(** * The codec layer of Hub (hub/core/compression.py)

    A shallow embedding of the sample compression module: byte codec,
    image codec, multi-sample tiler, JPEG / PNG header readers, audio and
    video decoders, together with the properties its specification states.

    Conventions of the embedding.
    - [bytes], [memoryview]: [list byte].
    - A numpy array is its dtype, its shape and its C-contiguous buffer
      (what [tobytes] returns).  Two arrays are equal when the three agree,
      which is bit-identity.
    - Python exceptions are values of [Exception]; a computation that may
      raise has type [outcome A]; a computation that also calls into a
      third-party library (numcodecs, lz4, PIL, miniaudio, PyAV) has type
      [M A] and records every such call, in order, in a log of [Event]s.
    - The third-party libraries, the import-time flags and the tables of
      [hub.compression] (that module is not part of the sources at hand) are
      the fields of a [World]; every function of the module is a function of
      the world it runs in. *)

From Stdlib Require Import ZArith NArith QArith Qround.
From Stdlib Require Import Strings.Byte Strings.Ascii.
From stdpp Require Import base list strings.
From Equations Require Import Equations.

Open Scope Z_scope.
Open Scope list_scope.
Close Scope Q_scope.

(** ** Bytes *)

Abbreviation bytes := (list byte) (only parsing).

Fixpoint bytes_eqb (a b : bytes) : bool :=
  match a, b with
  | [], [] => true
  | x :: a', y :: b' => Byte.eqb x y && bytes_eqb a' b'
  | _, _ => false
  end.

(** [b[i:j]] for non-negative [i], [j]: Python slices clip silently. *)
Definition slice {A} (l : list A) (i j : nat) : list A := take (j - i) (drop i l).

(** [int.from_bytes(b, "big")]. *)
Definition int_from_bytes_big (b : bytes) : Z :=
  fold_left (fun acc x => acc * 256 + Z.of_N (Byte.to_N x)) b 0.

(** [b.find(pat)]: index of the first occurrence of [pat], if any. *)
Fixpoint is_prefix (pat b : bytes) : bool :=
  match pat, b with
  | [], _ => true
  | x :: pat', y :: b' => Byte.eqb x y && is_prefix pat' b'
  | _ :: _, [] => false
  end.

Fixpoint bytes_find (pat b : bytes) : option nat :=
  if is_prefix pat b then Some 0%nat
  else match b with
       | [] => None
       | _ :: b' => S <$> bytes_find pat b'
       end.

(** ** Exceptions and outcomes *)

Inductive Exception :=
| SampleCompressionError (shape : list nat) (compression : option string)
                         (message : string)
| SampleDecompressionError
| UnsupportedCompressionError (compression : option string)
| CorruptedSampleError (compression : string)
| ModuleNotFoundError (message : string)
| NotImplementedError (message : string)
| ValueError (message : string)
| TypeError (message : string)
| OSError (message : string)
| KeyError (message : string)
| IndexError (message : string)
| AssertionError
| ZeroDivisionError
| StructError
| AVPermissionError
| OtherException (message : string).

Inductive outcome (A : Type) :=
| Return (a : A)
| Raise (e : Exception).
Arguments Return {A} a.
Arguments Raise {A} e.

#[global] Instance outcome_ret : MRet outcome := fun _ a => Return a.
#[global] Instance outcome_bind : MBind outcome := fun _ _ f m =>
  match m with
  | Return a => f a
  | Raise e => Raise e
  end.

(** [assert c] *)
Definition assert (c : bool) : outcome unit :=
  if c then Return tt else Raise AssertionError.

(** ** Arrays *)

Inductive dtype :=
| Bool | UInt8 | Int8 | UInt16 | Int16 | UInt32 | Int32 | UInt64 | Int64
| Float16 | Float32 | Float64.

Definition dtype_eqb (a b : dtype) : bool :=
  match a, b with
  | Bool, Bool | UInt8, UInt8 | Int8, Int8 | UInt16, UInt16 | Int16, Int16
  | UInt32, UInt32 | Int32, Int32 | UInt64, UInt64 | Int64, Int64
  | Float16, Float16 | Float32, Float32 | Float64, Float64 => true
  | _, _ => false
  end.

Definition itemsize (d : dtype) : nat :=
  match d with
  | Bool | UInt8 | Int8 => 1
  | UInt16 | Int16 | Float16 => 2
  | UInt32 | Int32 | Float32 => 4
  | UInt64 | Int64 | Float64 => 8
  end%nat.

Abbreviation Shape := (list nat) (only parsing).

Definition shape_eqb (a b : Shape) : bool := bool_decide (a = b).

(** [np.prod(shape)] *)
Definition prod (s : Shape) : nat := foldr Nat.mul 1%nat s.

(** [0 in shape] *)
Definition zero_in (s : Shape) : bool := existsb (Nat.eqb 0) s.

Record ndarray := mk_ndarray {
  arr_dtype : dtype;
  shape : Shape;
  tobytes : bytes
}.

Definition ndim (a : ndarray) : nat := length (shape a).
Definition nbytes_of (s : Shape) (d : dtype) : nat := (prod s * itemsize d)%nat.

(** Every array numpy hands out owns a buffer of the size its shape and
    dtype call for. *)
Definition well_formed (a : ndarray) : Prop :=
  length (tobytes a) = nbytes_of (shape a) (arr_dtype a).

(** [np.zeros(shape, dtype=dtype)]; numpy's default dtype is float64. *)
Definition np_zeros (s : Shape) (d : option dtype) : ndarray :=
  let d' := default Float64 d in
  mk_ndarray d' s (replicate (nbytes_of s d') x00).

(** [np.frombuffer(b, dtype=dtype).reshape(shape)] *)
Definition np_frombuffer_reshape (b : bytes) (d : dtype) (s : Shape)
  : outcome ndarray :=
  if negb (length b mod itemsize d =? 0)%nat then
    Raise (ValueError "buffer size must be a multiple of element size")
  else if negb (length b =? nbytes_of s d)%nat then
    Raise (ValueError "cannot reshape array")
  else Return (mk_ndarray d s b).

(** [arr.reshape(shape)] *)
Definition reshape (a : ndarray) (s : Shape) : outcome ndarray :=
  if (prod (shape a) =? prod s)%nat
  then Return (mk_ndarray (arr_dtype a) s (tobytes a))
  else Raise (ValueError "cannot reshape array").

(** [array.squeeze(axis=2)] of a 3-dimensional array. *)
Definition squeeze_axis2 (a : ndarray) : outcome ndarray :=
  match shape a with
  | [h; w; 1%nat] => Return (mk_ndarray (arr_dtype a) [h; w] (tobytes a))
  | _ => Raise (ValueError "cannot select an axis to squeeze out")
  end.

(** ** Inputs and third-party objects *)

(** A sample to decode arrives as a file path ([str]) or as its contents
    ([bytes] or a [memoryview] of them). *)
Inductive Source :=
| Path (p : string)
| Buffer (b : bytes).

(** [not buffer] *)
Definition is_falsy (s : Source) : bool :=
  match s with
  | Path p => String.eqb p ""
  | Buffer b => match b with [] => true | _ => false end
  end.

(** [isinstance(file, str)] *)
Definition is_str (s : Source) : bool :=
  match s with Path _ => true | Buffer _ => false end.

(** A PIL image: what [np.array(img)] reads at frame 0 and after
    [img.seek(i)] for the frames that follow, and [img.format]. *)
Record Image := mk_Image {
  im_frame0 : ndarray;
  im_more_frames : list ndarray;
  im_format : string
}.

Definition im_frames (img : Image) : list ndarray :=
  im_frame0 img :: im_more_frames img.

(** What miniaudio's [*_read_f32] and [*_get_info] return. *)
Record SoundFile := mk_SoundFile {
  samples : bytes;
  num_frames : nat;
  nchannels : nat
}.

(** Python's [Fraction]. *)
Record Fraction := mk_Fraction { numerator : Z; denominator : Z }.

Record VideoStream := mk_VideoStream {
  vs_frames : Z;                  (* vstream.frames *)
  vs_duration : option Z;         (* vstream.duration *)
  guessed_rate : Fraction;
  time_base : Fraction;
  cc_height : nat;                (* vstream.codec_context.height *)
  cc_width : nat;
  gop_size : Z
}.

(** A decoded video frame: [frame.to_ndarray(format="rgb24")] yields a
    uint8 array of shape (height, width, 3), or raises. *)
Record VideoFrame := mk_VideoFrame {
  rgb24 : outcome (nat * nat * bytes)
}.

Definition to_ndarray_rgb24 (f : VideoFrame) : outcome ndarray :=
  '(h, w, px) ← rgb24 f; Return (mk_ndarray UInt8 [h; w; 3%nat] px).

Record Packet := mk_Packet {
  pts : option Z;
  decode : outcome (list VideoFrame)
}.

(** An opened container.  [demux] lists the packets [container.demux(video=0)]
    yields from the position the container was opened at;
    [seek t] is [container.seek(t, stream=vstream)]: it raises or moves the
    read position, after which the demuxer yields the packets it returns. *)
Record Container := mk_Container {
  streams_video : list VideoStream;
  container_duration : option Z;
  demux : list Packet;
  seek : Z -> outcome (list Packet)
}.

Inductive compression_type :=
| BYTE_COMPRESSION | IMAGE_COMPRESSION | AUDIO_COMPRESSION | VIDEO_COMPRESSION.

Definition compression_type_eqb (a b : compression_type) : bool :=
  match a, b with
  | BYTE_COMPRESSION, BYTE_COMPRESSION
  | IMAGE_COMPRESSION, IMAGE_COMPRESSION
  | AUDIO_COMPRESSION, AUDIO_COMPRESSION
  | VIDEO_COMPRESSION, VIDEO_COMPRESSION => true
  | _, _ => false
  end.

(** [compr_type == T], where [compr_type] is [None] for no compression. *)
Definition is_type (c : option compression_type) (t : compression_type) : bool :=
  match c with
  | Some t' => compression_type_eqb t' t
  | None => false
  end.

(** ** The world the module runs in *)

Record World := mk_World {
  (* import-time state of the module *)
  byteorder_little : bool;                 (* sys.byteorder == "little" *)
  _MINIAUDIO_INSTALLED : bool;
  _PYAV_INSTALLED : bool;
  _LZ4_INSTALLED : bool;
  (* hub.compression, hub.compressions *)
  hub_compressions : list (option string);
  get_compression_type : option string -> outcome (option compression_type);
  (* numcodecs.lz4, lz4.frame *)
  numcodecs_lz4_compress : bytes -> outcome bytes;
  numcodecs_lz4_decompress : Source -> outcome bytes;
  lz4_frame_decompress : Source -> outcome bytes;
  (* PIL *)
  Image_fromarray : ndarray -> outcome Image;
  Image_save : Image -> string -> outcome bytes;
  Image_save_all : list Image -> outcome bytes;
  Image_open : Source -> outcome Image;
  Image_conv_type_shape : Image -> Shape * string;
  Image_accept : bytes -> option string;   (* first format of Image.OPEN accepting a header *)
  Image_verify : Image -> outcome unit;
  Image_encode_raw : Image -> outcome Z;   (* img.load(), then the raw encoder's error code *)
  (* miniaudio: the imported function of that name applied to the source *)
  miniaudio : string -> Source -> outcome SoundFile;
  (* PyAV *)
  av_open : Source -> outcome Container
}.

(** ** Calls into the libraries *)

Inductive Event :=
| numcodecs_lz4_compress_call (b : bytes)
| numcodecs_lz4_decompress_call (s : Source)
| lz4_frame_decompress_call (s : Source)
| Image_fromarray_call (a : ndarray)
| Image_save_call (img : Image) (fmt : string)
| Image_save_all_call (frames : list Image)
| Image_open_call (s : Source)
| Image_verify_call (img : Image)
| Image_encode_raw_call (img : Image)
| miniaudio_call (fn : string) (s : Source)
| av_open_call (s : Source)
| av_seek_call (t : Z)
| av_decode_call (p : option Z)
| av_to_ndarray_call
| warning_call (msg : string).

(** A computation: the calls it made, in order, and how it ended. *)
Definition M (A : Type) : Type := list Event * outcome A.

#[global] Instance M_ret : MRet M := fun _ a => ([], Return a).
#[global] Instance M_bind : MBind M := fun _ _ f m =>
  match m with
  | (l, Return a) => let '(l', r) := f a in (l ++ l', r)
  | (l, Raise e) => (l, Raise e)
  end.

#[global] Instance M_fmap : FMap M := fun _ _ f m =>
  match m with
  | (l, Return a) => (l, Return (f a))
  | (l, Raise e) => (l, Raise e)
  end.

Definition raise {A} (e : Exception) : M A := ([], Raise e).
Definition pure {A} (r : outcome A) : M A := ([], r).
Definition call {A} (ev : Event) (r : outcome A) : M A := ([ev], r).

(** [try: m except <handles>: h e] *)
Definition try_except {A} (m : M A) (handles : Exception -> bool)
    (h : Exception -> M A) : M A :=
  match m with
  | (l, Return a) => (l, Return a)
  | (l, Raise e) =>
      if handles e then let '(l', r) := h e in (l ++ l', r) else (l, Raise e)
  end.

Definition calls {A} (m : M A) : list Event := fst m.
Definition result {A} (m : M A) : outcome A := snd m.

(** [except Exception] *)
Definition any_exception (e : Exception) : bool := true.

(** ** numpy helpers used by the codecs *)

(** [n] consecutive chunks of [sz] items. *)
Fixpoint chunks {A} (n sz : nat) (l : list A) : list (list A) :=
  match n with
  | O => []
  | S n' => take sz l :: chunks n' sz (drop sz l)
  end.

(** Items [i], [i + c], [i + 2c], ... of the first [n] groups of [c]. *)
Definition stride_select {A} (n c i : nat) (l : list A) : list A :=
  omap (fun g => g !! i) (chunks n c l).

(** [array[:, :, i]] of a 3-dimensional array. *)
Definition plane (a : ndarray) (i : nat) : outcome ndarray :=
  match shape a with
  | [h; w; c] =>
      let elems := chunks (h * w * c) (itemsize (arr_dtype a)) (tobytes a) in
      Return (mk_ndarray (arr_dtype a) [h; w]
                (concat (stride_select (h * w) c i elems)))
  | _ => Raise (IndexError "too many indices for array")
  end.

(** Iterating an array yields its sub-arrays along the first axis. *)
Definition subarrays (a : ndarray) : list ndarray :=
  match shape a with
  | [] => []
  | n :: s =>
      map (mk_ndarray (arr_dtype a) s)
          (chunks n (nbytes_of s (arr_dtype a)) (tobytes a))
  end.

(** [video[i] = arr]: the shapes must agree (numpy would also broadcast a
    smaller array; the callers here never rely on it) and so must the
    dtypes (numpy would cast; the callers here always store like in like). *)
Definition setitem0 (video : ndarray) (i : nat) (arr : ndarray) : outcome ndarray :=
  match shape video with
  | [] => Raise (IndexError "too many indices for array")
  | n :: s =>
      if negb (i <? n)%nat then Raise (IndexError "index out of bounds")
      else if negb (shape_eqb (shape arr) s) then
        Raise (ValueError "could not broadcast input array")
      else if negb (dtype_eqb (arr_dtype arr) (arr_dtype video)) then
        Raise (TypeError "dtype cast")
      else
        let fs := nbytes_of s (arr_dtype video) in
        Return (mk_ndarray (arr_dtype video) (shape video)
                  (take (i * fs) (tobytes video) ++ tobytes arr
                   ++ drop ((i + 1) * fs) (tobytes video)))
  end.

(** [video[::-1]] *)
Definition flip0 (a : ndarray) : ndarray :=
  match shape a with
  | [] => a
  | n :: s =>
      mk_ndarray (arr_dtype a) (shape a)
        (concat (reverse (chunks n (nbytes_of s (arr_dtype a)) (tobytes a))))
  end.

(** Stacking [k] arrays of [n] elements each along a new last axis:
    element [p] of every array, then element [p + 1] of every array, ... *)
Fixpoint interleave {A} (n : nat) (ls : list (list A)) : list A :=
  match n with
  | O => []
  | S n' => omap head ls ++ interleave n' (map (drop 1) ls)
  end.

(** Python truthiness and comparisons of an optional identifier. *)
Definition str_of (c : option string) : string := default "None" c.

Definition is_id (c : option string) (name : string) : bool :=
  match c with
  | Some c' => String.eqb c' name
  | None => false
  end.

Definition opt_string_eqb (a b : option string) : bool :=
  match a, b with
  | Some x, Some y => String.eqb x y
  | None, None => true
  | _, _ => false
  end.

(** [str(e)] *)
Definition str_exc (e : Exception) : string :=
  match e with
  | SampleCompressionError _ _ m | ModuleNotFoundError m | NotImplementedError m
  | ValueError m | TypeError m | OSError m | KeyError m | IndexError m
  | OtherException m => m
  | UnsupportedCompressionError c => str_of c
  | CorruptedSampleError c => c
  | _ => ""
  end.

Definition is_TypeError_or_OSError (e : Exception) : bool :=
  match e with
  | TypeError _ | OSError _ => true
  | _ => false
  end.

Definition is_AVPermissionError (e : Exception) : bool :=
  match e with
  | AVPermissionError => true
  | _ => false
  end.

(** ** Floating point

    The module computes frame counts and time stamps in binary64.  The
    embedding uses exact rationals: the rounding of binary64 is not
    modelled.  For integers below 2^53 the quotient of two of them
    is correctly rounded and its ceiling is the exact ceiling, so the frame
    count of a window agrees with the source for every realistic window.
    A time stamp is a floor of a product of two quotients and may come out
    one lower in binary64 than here, where an exact integer is rounded to
    just below itself (frame 29 at 25 frames a second in a time base of
    1/12800: 14847 in binary64, 14848 here). *)

Definition float := Q.

(** [a / b] on two ints *)
Definition truediv (a b : Z) : outcome float :=
  match b with
  | Z0 => Raise ZeroDivisionError
  | Zpos p => Return (Qmake a p)
  | Zneg p => Return (Qmake (- a) p)
  end.

(** [x / y] on floats *)
Definition fdiv (x y : float) : outcome float :=
  if Qeq_bool y (Qmake 0 1) then Raise ZeroDivisionError else Return (Qdiv x y).

Definition of_int (a : Z) : float := Qmake a 1.

(** [math.ceil(a / b)] *)
Definition ceil_div (a b : Z) : outcome Z :=
  q ← truediv a b; Return (Qceiling q).

(** ** The module *)

Section Compression.
Context (w : World).

(** [_NATIVE_INT32], [_NATIVE_FLOAT32] *)
Definition _NATIVE_INT32 : string := if byteorder_little w then "<i4" else ">i4".
Definition _NATIVE_FLOAT32 : string := if byteorder_little w then "<f4" else ">f4".

Definition to_image (array : ndarray) : M Image :=
  match shape array with
  | [h; _; 1%nat] =>
      if negb (h =? 1)%nat then
        (* convert (X,Y,1) grayscale to (X,Y) for pillow compatibility *)
        squeezed ← pure (squeeze_axis2 array);
        call (Image_fromarray_call squeezed) (Image_fromarray w squeezed)
      else call (Image_fromarray_call array) (Image_fromarray w array)
  | _ => call (Image_fromarray_call array) (Image_fromarray w array)
  end.

(** [list(map(Image.fromarray, arrays))] *)
Fixpoint map_fromarray (arrays : list (outcome ndarray)) : M (list Image) :=
  match arrays with
  | [] => mret []
  | a :: rest =>
      a' ← pure a;
      img ← call (Image_fromarray_call a') (Image_fromarray w a');
      imgs ← map_fromarray rest;
      mret (img :: imgs)
  end.

Definition _compress_apng (array : ndarray) : M bytes :=
  frames ←
    (if (ndim array =? 3)%nat then
       (* Binary APNG *)
       map_fromarray (map (plane array) (seq 0 (nth 2 (shape array) 0%nat)))
     else if (ndim array =? 4)%nat && (nth 3 (shape array) 0 <=? 4)%nat then
       (* RGB(A) APNG *)
       map_fromarray (map Return (subarrays array))
     else raise (SampleCompressionError (shape array) (Some "apng")
                   "Unexpected shape."));
  match frames with
  | [] => raise (IndexError "list index out of range")
  | _ => call (Image_save_all_call frames) (Image_save_all w frames)
  end.

(** All frames of an opened image share its mode, hence shape and dtype;
    a frame that does not is rejected as numpy rejects an assignment it
    cannot broadcast. *)
Definition same_layout (frame0 : ndarray) (frames : list ndarray) : bool :=
  forallb (fun f => shape_eqb (shape f) (shape frame0)
                    && dtype_eqb (arr_dtype f) (arr_dtype frame0)) frames.

Definition _decompress_apng (buffer : Source) : M ndarray :=
  img ← call (Image_open_call buffer) (Image_open w buffer);
  let frame0 := im_frame0 img in
  let frames := im_frames img in
  let n_frames := length frames in
  if negb (same_layout frame0 frames) then
    raise (ValueError "could not broadcast input array")
  else if (ndim frame0 =? 2)%nat then
    let sz := itemsize (arr_dtype frame0) in
    let elems f := chunks (prod (shape f)) sz (tobytes f) in
    mret (mk_ndarray (arr_dtype frame0) (shape frame0 ++ [n_frames])
            (concat (interleave (prod (shape frame0)) (map elems frames))))
  else
    mret (mk_ndarray (arr_dtype frame0) (n_frames :: shape frame0)
            (concat (map tobytes frames))).

Definition compress_bytes (buffer : bytes) (compression : option string) : M bytes :=
  match buffer with
  | [] => mret []
  | _ =>
      if is_id compression "lz4" then
        match buffer with
        | [] => mret []
        | _ => call (numcodecs_lz4_compress_call buffer)
                    (numcodecs_lz4_compress w buffer)
        end
      else
        raise (SampleCompressionError [length buffer] compression
                 ("Not a byte compression: " +:+ str_of compression))
  end.

(** The two empty-payload encodings and the python-lz4 magic number. *)
Definition empty_marker : bytes := [x00; x00; x00; x00; x00].
Definition lz4_magic : bytes := [x04; x22; x4d; x18].

(** [buffer == b] and [buffer[:4] == b]; a [str] never equals [bytes]. *)
Definition source_eqb (buffer : Source) (b : bytes) : bool :=
  match buffer with
  | Buffer b' => bytes_eqb b' b
  | Path _ => false
  end.

Definition has_magic (buffer : Source) : bool :=
  match buffer with
  | Buffer b' => bytes_eqb (slice b' 0 4) lz4_magic
  | Path _ => false
  end.

Definition decompress_bytes (buffer : Source) (compression : option string) : M bytes :=
  if is_falsy buffer then mret []
  else if is_id compression "lz4" then
    (* weird edge case of lz4 + empty string *)
    if source_eqb buffer empty_marker then mret []
    else if has_magic buffer then
      (* python-lz4 magic number (backward compatiblity) *)
      if negb (_LZ4_INSTALLED w) then
        raise (ModuleNotFoundError
                 "Module lz4 not found. Install using `pip install lz4`.")
      else call (lz4_frame_decompress_call buffer) (lz4_frame_decompress w buffer)
    else call (numcodecs_lz4_decompress_call buffer)
              (numcodecs_lz4_decompress w buffer)
  else raise SampleDecompressionError.

(** *** Audio *)

(** The functions imported from miniaudio, as [globals()] knows them. *)
Definition miniaudio_globals : list string :=
  [ "mp3_read_file_f32"; "mp3_read_f32"; "mp3_get_file_info"; "mp3_get_info";
    "flac_read_file_f32"; "flac_read_f32"; "flac_get_file_info"; "flac_get_info";
    "wav_read_file_f32"; "wav_read_f32"; "wav_get_file_info"; "wav_get_info" ].

Definition globals (name : string) : outcome string :=
  if existsb (String.eqb name) miniaudio_globals then Return name
  else Raise (KeyError name).

Definition miniaudio_missing : Exception :=
  ModuleNotFoundError "Miniaudio is not installed. Run `pip install hub[audio]`.".

Definition _decompress_audio (file : Source) (compression : option string)
  : M ndarray :=
  if negb (_MINIAUDIO_INSTALLED w) then raise miniaudio_missing
  else
    decompressor ← pure (globals (str_of compression +:+ "_read"
                           +:+ (if is_str file then "_file" else "") +:+ "_f32"));
    raw_audio ← call (miniaudio_call decompressor file) (miniaudio w decompressor file);
    pure (np_frombuffer_reshape (samples raw_audio) Float32
            [num_frames raw_audio; nchannels raw_audio]).

Definition _read_audio_shape (file : Source) (compression : option string)
  : M Shape :=
  if negb (_MINIAUDIO_INSTALLED w) then raise miniaudio_missing
  else
    f_info ← pure (globals (str_of compression +:+ "_get"
                     +:+ (if is_str file then "_file" else "") +:+ "_info"));
    info ← call (miniaudio_call f_info file) (miniaudio w f_info file);
    mret [num_frames info; nchannels info].

(** *** Video *)

(** [av.time_base] *)
Definition av_time_base : Z := 1000000.

(** Convert frame number to timestamp based on fps of video stream. *)
Definition _frame_to_stamp (nframe : Z) (stream : VideoStream) : outcome Z :=
  fps ← truediv (numerator (guessed_rate stream)) (denominator (guessed_rate stream));
  seek_target ← fdiv (of_int nframe) fps;
  ratio ← truediv (denominator (time_base stream)) (numerator (time_base stream));
  Return (Qfloor (Qmult seek_target ratio)).

Definition pyav_missing : Exception :=
  ModuleNotFoundError "PyAV is not installed. Run `pip install hub[video]`.".

Definition _open_video (file : Source) : M (Container * VideoStream) :=
  if negb (_PYAV_INSTALLED w) then raise pyav_missing
  else
    container ← call (av_open_call file) (av_open w file);
    match streams_video container with
    | [] => raise (IndexError "No video streams available!")
    | vstream :: _ => mret (container, vstream)
    end.

(** Returns [(nframes, height, width)] of the shape, the last axis being 3,
    then duration, fps and time base. *)
Definition _read_metadata_from_vstream (container : Container) (vstream : VideoStream)
  : outcome (Z * nat * nat * option Z * float * float) :=
  '(duration, time_base) ←
    match vs_duration vstream with
    | None => tb ← truediv 1 av_time_base; Return (container_duration container, tb)
    | Some d =>
        tb ← truediv (numerator (time_base vstream)) (denominator (time_base vstream));
        Return (Some d, tb)
    end;
  fps ← truediv (numerator (guessed_rate vstream)) (denominator (guessed_rate vstream));
  nframes ←
    (if vs_frames vstream =? 0 then
       match duration with
       | Some d => Return (Qfloor (Qmult (Qmult fps (of_int d)) time_base))
       | None => Raise (TypeError "unsupported operand type(s) for *")
       end
     else Return (vs_frames vstream));
  Return (nframes, cc_height vstream, cc_width vstream, duration, fps, time_base).

Definition _read_video_shape (file : Source) : M (Z * nat * nat) :=
  '(container, vstream) ← _open_video file;
  '(nframes, height, width, _, _, _) ←
     pure (_read_metadata_from_vstream container vstream);
  mret (nframes, height, width).

(** [packet.pts and packet.pts >= seek_target] *)
Definition pts_reached (p : option Z) (seek_target : Z) : bool :=
  match p with
  | Some t => negb (t =? 0) && (seek_target <=? t)
  | None => false
  end.

Section DemuxLoop.
Context (container : Container) (nframes : nat) (step_time : Z)
        (step_seeking seekable : bool).

(** The two nested [for] loops of [_decompress_video], entered in the body
    of the inner one: [frames] are the frames of the current packet still
    to visit, [pending] the packets the demuxer yields next, and [free]
    the slots of [video] not written yet, so that [i = nframes - free]. *)
Fixpoint demux_loop (free : nat) (pending : list Packet) (packet_pts : option Z)
    (frames : list VideoFrame) (seek_target : Z) (video : ndarray)
    {struct free} : M ndarray :=
  (fix packets (pending : list Packet) (packet_pts : option Z)
       (frames : list VideoFrame) (seek_target : Z) (video : ndarray)
       {struct pending} : M ndarray :=
     (fix inner (frames : list VideoFrame) (seek_target : Z) (video : ndarray)
          {struct frames} : M ndarray :=
        match frames with
        | [] =>
            if (free =? 0)%nat then mret video        (* i == nframes: break *)
            else
              match pending with
              | [] => mret video
              | packet :: rest =>
                  fs ← call (av_decode_call (pts packet)) (decode packet);
                  packets rest (pts packet) fs seek_target video
              end
        | frame :: frames' =>
            if pts_reached packet_pts seek_target then
              arr ← call av_to_ndarray_call (to_ndarray_rgb24 frame);
              match free with
              | O => raise (IndexError "index out of bounds")
              | S free' =>
                  video' ← pure (setitem0 video (nframes - free) arr);
                  let seek_target' := seek_target + step_time in
                  if step_seeking && seekable then
                    pending' ← call (av_seek_call seek_target')
                                    (seek container seek_target');
                    demux_loop free' pending' packet_pts frames' seek_target' video'
                  else
                    demux_loop free' pending packet_pts frames' seek_target' video'
              end
            else inner frames' seek_target video
        end) frames seek_target video)
    pending packet_pts frames seek_target video.

(** Entering the outer loop: the first packet is demuxed before [i] is
    ever compared with [nframes]. *)
Definition demux_all (pending : list Packet) (seek_target : Z) (video : ndarray)
  : M ndarray :=
  match pending with
  | [] => mret video
  | packet :: rest =>
      fs ← call (av_decode_call (pts packet)) (decode packet);
      demux_loop nframes rest (pts packet) fs seek_target video
  end.
End DemuxLoop.

Definition cannot_seek : string :=
  "Cannot seek. Possibly a corrupted video file. Retrying with seeking disabled...".

Definition _decompress_video (file : Source) (start stop step : option Z)
    (reverse : bool) : M ndarray :=
  '(container, vstream) ← _open_video file;
  '(nframes, height, width, _, _, _) ←
     pure (_read_metadata_from_vstream container vstream);
  let start := default 0 start in
  let stop := default nframes stop in
  let step := default 1 step in
  nframes ← pure (ceil_div (stop - start) step);
  video ← pure (if nframes <? 0
                then Raise (ValueError "negative dimensions are not allowed")
                else Return (np_zeros [Z.to_nat nframes; height; width; 3%nat]
                               (Some UInt8)));
  seek_target ← pure (_frame_to_stamp start vstream);
  step_time ← pure (_frame_to_stamp step vstream);
  (* gop size is distance (in frames) between 2 I-frames *)
  let step_seeking := gop_size vstream <? step in
  '(seekable, container, pending) ←
     try_except
       (pending ← call (av_seek_call seek_target) (seek container seek_target);
        mret (true, container, pending))
       is_AVPermissionError
       (fun _ =>
          (* try again but this time don't seek *)
          '(container', _) ← _open_video file;
          _ ← call (warning_call cannot_seek) (Return tt);
          mret (false, container', demux container'));
  video ← demux_all container (Z.to_nat nframes) step_time step_seeking seekable
            pending seek_target video;
  if reverse then mret (flip0 video) else mret video.

(** *** Arrays *)

Definition in_compressions (compression : option string) : bool :=
  existsb (opt_string_eqb compression) (hub_compressions w).

Definition audio_unsupported : string :=
  "In order to store audio data, you should use `hub.read(path_to_file)`. Compressing raw data is not yet supported.".
Definition video_unsupported : string :=
  "In order to store video data, you should use `hub.read(path_to_file)`. Compressing raw data is not yet supported.".

(** [img.save(out, compression, **kwargs)] followed by reading [out] back.
    The [sizes] argument passed for "ico" is [img.size]: the library gets
    nothing the image and the format name do not determine. *)
Definition save_image (array : ndarray) (compression : string) : M bytes :=
  img ← to_image array;
  call (Image_save_call img compression) (Image_save w img compression).

Definition compress_array (array : ndarray) (compression : option string) : M bytes :=
  (* empty sample shouldn't be compressed *)
  if zero_in (shape array) then mret []
  else if negb (in_compressions compression) then
    raise (UnsupportedCompressionError compression)
  else
    match compression with
    | None => mret (tobytes array)
    | Some c =>
        compr_type ← pure (get_compression_type w compression);
        if is_type compr_type BYTE_COMPRESSION then
          compress_bytes (tobytes array) compression
        else if is_type compr_type AUDIO_COMPRESSION then
          raise (NotImplementedError audio_unsupported)
        else if is_type compr_type VIDEO_COMPRESSION then
          raise (NotImplementedError video_unsupported)
        else if String.eqb c "apng" then _compress_apng array
        else
          try_except (save_image array c) is_TypeError_or_OSError
            (fun e => raise (SampleCompressionError (shape array) compression
                               (str_exc e)))
    end.

Definition decompress_array (buffer : Source) (shape : option Shape)
    (dtype : option dtype) (compression : option string)
    (start_idx end_idx step : option Z) (reverse : bool) : M ndarray :=
  compr_type ← pure (get_compression_type w compression);
  if is_type compr_type BYTE_COMPRESSION then
    match dtype, shape with
    | Some d, Some s =>
        try_except
          (decompressed_bytes ← decompress_bytes buffer compression;
           pure (np_frombuffer_reshape decompressed_bytes d s))
          any_exception (fun _ => raise SampleDecompressionError)
    | _, _ =>
        raise (ValueError "dtype and shape must be specified for byte compressions.")
    end
  else if is_type compr_type AUDIO_COMPRESSION then
    _decompress_audio buffer compression
  else if is_type compr_type VIDEO_COMPRESSION then
    _decompress_video buffer start_idx end_idx step reverse
  else if is_id compression "apng" then _decompress_apng buffer
  else
    try_except
      (match shape with
       | Some s =>
           if zero_in s then mret (np_zeros s dtype)
           else
             img ← call (Image_open_call buffer) (Image_open w buffer);
             pure (reshape (im_frame0 img) s)
       | None =>
           img ← call (Image_open_call buffer) (Image_open w buffer);
           mret (im_frame0 img)
       end)
      any_exception (fun _ => raise SampleDecompressionError).

(** *** Tiling *)

(** [s[i]] on a tuple *)
Definition getitem (s : Shape) (i : nat) : outcome nat :=
  match s !! i with
  | Some d => Return d
  | None => Raise (IndexError "tuple index out of range")
  end.

Fixpoint mapM {A B} (f : A -> outcome B) (l : list A) : outcome (list B) :=
  match l with
  | [] => Return []
  | x :: l' => y ← f x; ys ← mapM f l'; Return (y :: ys)
  end.

(** Gets the shape of a bounding box that can contain the given the shapes
    tiled horizontally. *)
Definition _get_bounding_shape (shapes : list Shape) : outcome Shape :=
  match shapes with
  | [] => Return [0; 0; 0]%nat
  | shape0 :: _ =>
      let channels_shape := drop 2 shape0 in
      if negb (forallb (fun s => shape_eqb (drop 2 s) channels_shape) shapes) then
        Raise (ValueError
          "The data can't be compressed as the number of channels doesn't match.")
      else
        heights ← mapM (fun s => getitem s 0) shapes;
        widths ← mapM (fun s => getitem s 1) shapes;
        Return (max_list heights :: sum_list widths :: channels_shape)
  end.

(** Rows of a canvas of shape (H, W, ...): [H] chunks of [W * cell] bytes,
    [cell] being the size of what one (row, column) position holds. *)
Definition cell_size (a : ndarray) : nat := nbytes_of (drop 2 (shape a)) (arr_dtype a).

Definition rows_of (a : ndarray) : list bytes :=
  chunks (nth 0 (shape a) 0%nat) (nth 1 (shape a) 0%nat * cell_size a) (tobytes a).

(** Overwrite bytes [lo, hi) of the leading rows with the given blocks. *)
Fixpoint write_rows (rows blocks : list bytes) (lo hi : nat) : list bytes :=
  match rows, blocks with
  | row :: rows', block :: blocks' =>
      (take lo row ++ block ++ drop hi row) :: write_rows rows' blocks' lo hi
  | _, _ => rows
  end.

(** The shape of [canvas[:h, x:x+wd]] *)
Definition block_shape (canvas : ndarray) (h x wd : nat) : outcome Shape :=
  match shape canvas with
  | H :: W :: trailing =>
      Return (Nat.min h H :: (Nat.min (x + wd) W - Nat.min x W)%nat :: trailing)
  | _ => Raise (IndexError "too many indices for array")
  end.

(** [canvas[:h, x:x+wd] = arr] with [h], [wd] the first two dimensions of
    [arr] (the shapes must agree: see [setitem0]). *)
Definition set_block (canvas : ndarray) (x : nat) (arr : ndarray) : outcome ndarray :=
  h ← getitem (shape arr) 0;
  wd ← getitem (shape arr) 1;
  target ← block_shape canvas h x wd;
  if negb (shape_eqb (shape arr) target) then
    Raise (ValueError "could not broadcast input array")
  else if negb (dtype_eqb (arr_dtype arr) (arr_dtype canvas)) then
    Raise (TypeError "dtype cast")
  else
    let c := cell_size canvas in
    Return (mk_ndarray (arr_dtype canvas) (shape canvas)
              (concat (write_rows (rows_of canvas) (rows_of arr)
                         (x * c) ((x + wd) * c)))).

(** [canvas[:h, x:x+wd]] *)
Definition get_block (canvas : ndarray) (h x wd : nat) : outcome ndarray :=
  s ← block_shape canvas h x wd;
  let c := cell_size canvas in
  Return (mk_ndarray (arr_dtype canvas) s
            (concat (map (fun row => slice row (x * c) ((x + wd) * c))
                         (take h (rows_of canvas))))).

Fixpoint fill_canvas (canvas : ndarray) (arrays : list ndarray) (next_x : nat)
  : outcome ndarray :=
  match arrays with
  | [] => Return canvas
  | arr :: rest =>
      canvas' ← set_block canvas next_x arr;
      wd ← getitem (shape arr) 1;
      fill_canvas canvas' rest (next_x + wd)
  end.

(** Compress multiple arrays of different shapes into a single buffer. Used
    for chunk wise compression.  The arrays are tiled horizontally and padded
    with zeros to fit in a bounding box, which is then compressed. *)
Definition compress_multiple (arrays : list ndarray) (compression : option string)
  : M bytes :=
  match arrays with
  | [] => mret []
  | array0 :: _ =>
      let dtype := arr_dtype array0 in
      match List.find (fun arr => negb (dtype_eqb (arr_dtype arr) dtype)) arrays with
      | Some arr =>
          raise (SampleCompressionError (shape arr) compression
                   "All arrays expected to have same dtype.")
      | None =>
          compr_type ← pure (get_compression_type w compression);
          if is_type compr_type BYTE_COMPRESSION then
            (* Note: shape and dtype info not included *)
            compress_bytes (concat (map tobytes arrays)) compression
          else if is_type compr_type AUDIO_COMPRESSION then
            raise (NotImplementedError
                     "compress_multiple does not support audio samples.")
          else if is_type compr_type VIDEO_COMPRESSION then
            raise (NotImplementedError
                     "compress_multiple does not support video samples.")
          else if is_id compression "apng" then
            raise (NotImplementedError
                     "compress_multiple does not support apng samples.")
          else
            bounding ← pure (_get_bounding_shape (map shape arrays));
            canvas ← pure (fill_canvas (np_zeros bounding (Some dtype)) arrays 0);
            compress_array canvas compression
      end
  end.

(** The two loops of [decompress_multiple]. *)
Fixpoint split_buffer (decompressed_buffer : bytes) (shapes : list Shape)
    (dtype : dtype) : outcome (list ndarray) :=
  match shapes with
  | [] => Return []
  | shape :: rest =>
      let nbytes := (prod shape * itemsize dtype)%nat in
      arr ← np_frombuffer_reshape (take nbytes decompressed_buffer) dtype shape;
      arrs ← split_buffer (drop nbytes decompressed_buffer) rest dtype;
      Return (arr :: arrs)
  end.

Fixpoint split_canvas (canvas : ndarray) (shapes : list Shape) (next_x : nat)
  : outcome (list ndarray) :=
  match shapes with
  | [] => Return []
  | shape :: rest =>
      h ← getitem shape 0;
      wd ← getitem shape 1;
      arr ← get_block canvas h next_x wd;
      arrs ← split_canvas canvas rest (next_x + wd);
      Return (arr :: arrs)
  end.

(** [compression] is truthy *)
Definition truthy (compression : option string) : bool :=
  match compression with
  | Some c => negb (String.eqb c "")
  | None => false
  end.

(** Unpack a compressed buffer into multiple arrays. *)
Definition decompress_multiple (buffer : bytes) (shapes : list Shape)
    (dtype : option dtype) (compression : option string) : M (list ndarray) :=
  match buffer with
  | [] => mret []
  | _ =>
      is_byte ← (if truthy compression then
                   compr_type ← pure (get_compression_type w compression);
                   mret (is_type compr_type BYTE_COMPRESSION)
                 else mret false);
      if is_byte : bool then
        decompressed_buffer ← decompress_bytes (Buffer buffer) compression;
        pure (split_buffer decompressed_buffer shapes (default Float64 dtype))
      else
        canvas ← decompress_array (Buffer buffer) None None None None None None false;
        pure (split_canvas canvas shapes 0)
  end.

(** *** JPEG and PNG headers *)

Definition to_bytes_2_big (x : N) : bytes :=
  [default x00 (Byte.of_N (x / 256)); default x00 (Byte.of_N (x mod 256))].

Definition _JPEG_SOFS : list bytes :=
  [ [xff; xc0]; [xff; xc2]; [xff; xc1]; [xff; xc3]; [xff; xc5]; [xff; xc6];
    [xff; xc7]; [xff; xc9]; [xff; xca]; [xff; xcb]; [xff; xcd]; [xff; xce];
    [xff; xcf]; [xff; xde];
    (* Skip: *)
    [xff; xcc]; [xff; xdc]; [xff; xdd]; [xff; xdf] ]
  (* App: (0xFFE0 - 0xFFEF): *)
  ++ map (fun k => to_bytes_2_big (0xFFE0 + N.of_nat k)) (seq 0 16)
  ++ [ (* DQT: *) [xff; xdb];
       (* COM: *) [xff; xfe];
       (* Start of scan *) [xff; xda] ].

Definition _JPEG_SKIP_MARKERS : list bytes := drop 14 _JPEG_SOFS.

(** [_JPEG_SOFS[-1]] *)
Definition start_of_scan : bytes := [xff; xda].

Definition in_markers (marker : bytes) (markers : list bytes) : bool :=
  existsb (bytes_eqb marker) markers.

(** [_re_find_first(_JPEG_SOFS_RE, b)]: where the leftmost match of the
    alternation of the markers starts. *)
Fixpoint re_find_first (pats : list bytes) (b : bytes) : option nat :=
  if existsb (fun p => is_prefix p b) pats then Some 0%nat
  else match b with
       | [] => None
       | _ :: b' => S <$> re_find_first pats b'
       end.

Lemma is_prefix_length p b : is_prefix p b = true -> (length p <= length b)%nat.
Proof.
  revert b; induction p as [|x p IH]; intros [|y b]; simpl; try lia; try discriminate.
  intros H. apply andb_prop in H as [_ H]. apply IH in H. lia.
Qed.

Lemma _JPEG_SOFS_length p : In p _JPEG_SOFS -> length p = 2%nat.
Proof.
  intros Hp. vm_compute in Hp.
  repeat (destruct Hp as [<- | Hp]; [reflexivity|]). destruct Hp.
Qed.

Lemma re_find_first_bound b m :
  re_find_first _JPEG_SOFS b = Some m -> (m + 2 <= length b)%nat.
Proof.
  revert m; induction b as [|y b IH]; intros m; cbn [re_find_first].
  - vm_compute; discriminate.
  - destruct (existsb (fun p => is_prefix p (y :: b)) _JPEG_SOFS) eqn:E.
    + intros [= <-]. apply existsb_exists in E as (p & Hp & Hpre).
      apply is_prefix_length in Hpre. apply _JPEG_SOFS_length in Hp.
      simpl in *. lia.
    + destruct (re_find_first _JPEG_SOFS b) eqn:E'; cbn; [|discriminate].
      intros [= <-]. specialize (IH _ eq_refl). lia.
Qed.

Definition inspect {A} (a : A) : {b | a = b} := exist _ a eq_refl.

(** Look for Start of Frame: the [while True] loop shared by the JPEG
    readers.  [sof_idx] is [None] where the source has -1. *)
Equations? find_sof (buf : bytes) (offset : nat) (sof_idx : option nat) : option nat
  by wf (length buf - offset)%nat lt :=
find_sof buf offset sof_idx
  with inspect (re_find_first _JPEG_SOFS (drop offset buf)) := {
  | exist _ None _ => sof_idx
  | exist _ (Some m) Hm =>
      let idx := (m + offset)%nat in
      let marker := slice buf idx (idx + 2) in
      if bytes_eqb marker start_of_scan then sof_idx
      else
        find_sof buf
          (idx + Z.to_nat (int_from_bytes_big (slice buf (idx + 2) (idx + 4))) + 2)
          (if negb (in_markers marker _JPEG_SKIP_MARKERS) then Some idx else sof_idx) }.
Proof.
  apply re_find_first_bound in Hm. rewrite length_drop in Hm. lia.
Qed.

(** [_STRUCT_HHB.unpack(b)]: two big-endian unsigned shorts and a byte. *)
Definition unpack_HHB (b : bytes) : outcome (Z * Z * Z) :=
  match b with
  | [h1; h0; w1; w0; c] =>
      Return (int_from_bytes_big [h1; h0], int_from_bytes_big [w1; w0],
              int_from_bytes_big [c])
  | _ => Raise StructError
  end.

(** [if shape[-1] in (1, None): shape = shape[:-1]] *)
Definition jpeg_shape (hwc : Z * Z * Z) : list Z :=
  let '(h, wd, c) := hwc in
  if c =? 1 then [h; wd] else [h; wd; c].

(** Gets shape of a jpeg file from its contents *)
Definition _read_jpeg_shape_from_buffer (buf : bytes) : outcome (list Z) :=
  match find_sof buf 0 None with
  | None => Raise (OtherException "")
  | Some sof_idx =>
      shape ← unpack_HHB (slice buf (sof_idx + 5) (sof_idx + 10));
      Return (jpeg_shape shape)
  end.

Definition end_of_image : bytes := [xff; xd9].

Definition _verify_jpeg_buffer (buf : bytes) : outcome (list Z) :=
  (* Start of Image *)
  _ ← assert (is_prefix [xff; xd8] buf);
  match find_sof buf 0 None with
  | None => Raise (OtherException "")
  | Some sof_idx =>
      let length :=
        Z.to_nat (int_from_bytes_big (slice buf (sof_idx + 2) (sof_idx + 4))) in
      _ ← assert (in_markers
                    (slice buf (sof_idx + length + 2) (sof_idx + length + 4))
                    [ [xff; xc4]; [xff; xdb]; [xff; xdd]; [xff; xda] ]);
                    (* DHT, DQT, DRI, SOS *)
      shape ← unpack_HHB (slice buf (sof_idx + 5) (sof_idx + 10));
      _ ← assert (bool_decide (bytes_find end_of_image buf <> None));
      Return (jpeg_shape shape)
  end.

(** [_STRUCT_II.unpack(b)]: two big-endian signed 32-bit integers. *)
Definition to_signed32 (v : Z) : Z := if v <? 2 ^ 31 then v else v - 2 ^ 32.

Definition unpack_ii (b : bytes) : outcome (Z * Z) :=
  if (length b =? 8)%nat then
    Return (to_signed32 (int_from_bytes_big (take 4 b)),
            to_signed32 (int_from_bytes_big (drop 4 b)))
  else Raise StructError.

(** Reads shape and dtype of a png file from file contents. *)
Definition _read_png_shape_and_dtype (f : bytes) : outcome (list Z * string) :=
  '(width, height) ← unpack_ii (slice f 16 24);
  let size := [height; width] in
  '(bits, colors) ←
     match slice f 24 26 with
     | [bits; colors] => Return (Z.of_N (Byte.to_N bits), Z.of_N (Byte.to_N colors))
     | _ => Raise (ValueError "not enough values to unpack")
     end;
  (* Get the number of channels and dtype based on bits and colors: *)
  let '(typstr, nlayers) :=
    if colors =? 0 then
      (if bits =? 1 then "|b1"%string
       else if bits =? 16 then _NATIVE_INT32
       else "|u1"%string, None)
    else
      ("|u1"%string,
       if colors =? 2 then Some 3
       else if colors =? 3 then None
       else if colors =? 4 then (if bits =? 8 then Some 2 else Some 4)
       else Some 4) in
  let shape := match nlayers with
               | None => size
               | Some n => size ++ [n]
               end in
  Return (shape, typstr).

(** *** Introspection and verification of encoded samples

    The sample is given by its contents ([bytes] or a [memoryview] of
    them), and every property of these two functions below is a property of
    what they do on file contents.  A path or an open file takes other
    branches of the source, which these definitions do not cover: the file
    object that [open] returns is what the libraries are then handed.  An
    open file goes through the [_file] twins of the JPEG readers, which run
    the same scan over a memory map of the file. *)

Definition lower_ascii (c : ascii) : ascii :=
  let n := nat_of_ascii c in
  if (65 <=? n)%nat && (n <=? 90)%nat then ascii_of_nat (n + 32) else c.

Fixpoint lower (s : string) : string :=
  match s with
  | EmptyString => EmptyString
  | String c s' => String (lower_ascii c) (lower s')
  end.

Definition endswith (s suffix : string) : bool :=
  (String.length suffix <=? String.length s)%nat
  && String.eqb (String.substring (String.length s - String.length suffix)
                   (String.length suffix) s) suffix.

Definition get_compression (header : bytes) (path : option string)
  : outcome (option string) :=
  let by_extension :=
    match path with
    | Some p =>
        if String.eqb p "" then None
        else
          (* These formats are recognized by file extension for now *)
          List.find (fun fmt => endswith (lower p) ("." +:+ fmt))
            ["mp3"; "flac"; "wav"; "mp4"; "mkv"; "avi"]%string
    | None => None
    end in
  match by_extension with
  | Some fmt => Return (Some fmt)
  | None =>
      match header with
      | [] => Return None
      | _ =>
          match Image_accept w header with
          | Some fmt => Return (Some (lower fmt))
          | None => Raise SampleDecompressionError
          end
      end
  end.

Definition is_video_format (compression : option string) : bool :=
  is_id compression "mp4" || is_id compression "mkv" || is_id compression "avi".

(** A shape as the readers report it. *)
Definition Z_shape (s : Shape) : list Z := map Z.of_nat s.

Definition video_shape (nhw : Z * nat * nat) : list Z :=
  let '(nframes, height, width) := nhw in
  [nframes; Z.of_nat height; Z.of_nat width; 3].

(** Reads shape, dtype and format without decompressing or verifying the
    sample. *)
Definition read_meta_from_compressed_file (file : bytes) (compression : option string)
  : M (string * list Z * string) :=
  compression ←
    match compression with
    | None => pure (get_compression (slice file 0 32) None)
    | Some c => mret (Some c)
    end;
  if is_id compression "jpeg" then
    try_except
      (shape ← pure (_read_jpeg_shape_from_buffer file);
       mret ("jpeg"%string, shape, "|u1"%string))
      any_exception (fun _ => raise (CorruptedSampleError "jpeg"))
  else if is_id compression "png" then
    try_except
      ('(shape, typestr) ← pure (_read_png_shape_and_dtype file);
       mret ("png"%string, shape, typestr))
      any_exception (fun _ => raise (CorruptedSampleError "png"))
  else
    compr_type ← pure (get_compression_type w compression);
    if is_type compr_type AUDIO_COMPRESSION then
      try_except
        (shape ← _read_audio_shape (Buffer file) compression;
         mret (str_of compression, Z_shape shape, "<f4"%string))
        any_exception (fun _ => raise (CorruptedSampleError (str_of compression)))
    else if is_video_format compression then
      try_except
        (shape ← _read_video_shape (Buffer file);
         mret (str_of compression, video_shape shape, "|u1"%string))
        any_exception (fun _ => raise (CorruptedSampleError (str_of compression)))
    else
      img ← call (Image_open_call (Buffer file)) (Image_open w (Buffer file));
      let '(shape, typestr) := Image_conv_type_shape w img in
      mret (lower (im_format img), Z_shape shape, typestr).

Definition _verify_png (buf : bytes) : M (list Z * string) :=
  img ← call (Image_open_call (Buffer buf)) (Image_open w (Buffer buf));
  _ ← call (Image_verify_call img) (Image_verify w img);
  let '(shape, typestr) := Image_conv_type_shape w img in
  mret (Z_shape shape, typestr).

Definition _fast_decompress (buf : bytes) : M (list Z * string) :=
  img ← call (Image_open_call (Buffer buf)) (Image_open w (Buffer buf));
  err_code ← call (Image_encode_raw_call img) (Image_encode_raw w img);
  if err_code <? 0 then raise (OtherException "")
  else
    let '(shape, typestr) := Image_conv_type_shape w img in
    mret (Z_shape shape, typestr).

(** Verify the contents of an image file *)
Definition verify_compressed_file (file : bytes) (compression : string)
  : M (option (list Z * string)) :=
  try_except
    (if String.eqb compression "png" then Some <$> _verify_png file
     else if String.eqb compression "jpeg" then
       shape ← pure (_verify_jpeg_buffer file);
       mret (Some (shape, "|u1"%string))
     else
       compr_type ← pure (get_compression_type w (Some compression));
       if is_type compr_type AUDIO_COMPRESSION then
         shape ← _read_audio_shape (Buffer file) (Some compression);
         mret (Some (Z_shape shape, "<f4"%string))
       else if is_video_format (Some compression) then
         shape ← _read_video_shape (Buffer file);
         mret (Some (video_shape shape, "|u1"%string))
       else Some <$> _fast_decompress file)
    any_exception (fun _ => raise (CorruptedSampleError compression)).

End Compression.

(** ** Files

    A binary file opened for reading: its contents and the position of the
    next read. *)

Record BinaryIO := mk_BinaryIO { getvalue : bytes; tell : nat }.

(** [f.seek(pos)] *)
Definition f_seek (f : BinaryIO) (pos : nat) : BinaryIO :=
  mk_BinaryIO (getvalue f) pos.

(** [f.seek(delta, 1)]: relative to the current position. *)
Definition f_seek_cur (f : BinaryIO) (delta : Z) : outcome BinaryIO :=
  let pos := Z.of_nat (tell f) + delta in
  if pos <? 0 then Raise (OSError "Invalid argument")
  else Return (mk_BinaryIO (getvalue f) (Z.to_nat pos)).

(** [f.read(n)]: what is read, and the file after it. *)
Definition f_read (f : BinaryIO) (n : nat) : bytes * BinaryIO :=
  let b := slice (getvalue f) (tell f) (tell f + n) in
  (b, mk_BinaryIO (getvalue f) (tell f + length b)).

(** [mmap.mmap(f.fileno(), 0, access=...)]: the whole file, which must not
    be empty. *)
Definition mmap (f : BinaryIO) : outcome bytes :=
  match getvalue f with
  | [] => Raise (ValueError "cannot mmap an empty file")
  | b => Return b
  end.

(** The [while True] loop of the [_file] readers: the markers are looked
    for in the memory map, the segment lengths are read from the file. *)
Equations? find_sof_file (mm : bytes) (f : BinaryIO) (offset : nat)
    (sof_idx : option nat) : option nat * BinaryIO
  by wf (length mm - offset)%nat lt :=
find_sof_file mm f offset sof_idx
  with inspect (re_find_first _JPEG_SOFS (drop offset mm)) := {
  | exist _ None _ => (sof_idx, f)
  | exist _ (Some m) Hm =>
      let idx := (m + offset)%nat in
      let marker := slice mm idx (idx + 2) in
      if bytes_eqb marker start_of_scan then (sof_idx, f)
      else
        let r := f_read (f_seek f (idx + 2)) 2 in
        find_sof_file mm (snd r)
          (idx + Z.to_nat (int_from_bytes_big (fst r)) + 2)
          (if negb (in_markers marker _JPEG_SKIP_MARKERS) then Some idx else sof_idx) }.
Proof.
  apply re_find_first_bound in Hm. rewrite length_drop in Hm. lia.
Qed.

(** Reads shape of a jpeg image from file without loading the whole image
    in memory *)
Definition _read_jpeg_shape_from_file (f : BinaryIO) : outcome (list Z) :=
  mm ← mmap f;
  match find_sof_file mm f 0 None with
  | (None, _) => Raise (OtherException "")
  | (Some sof_idx, f) =>
      let '(b, _) := f_read (f_seek f (sof_idx + 5)) 5 in
      shape ← unpack_HHB b;
      Return (jpeg_shape shape)
  end.

Definition _verify_jpeg_file (f : BinaryIO) : outcome (list Z) :=
  mm ← mmap f;
  let '(soi, f) := f_read f 2 in
  (* Start of Image *)
  _ ← assert (bytes_eqb soi [xff; xd8]);
  match find_sof_file mm f 0 None with
  | (None, _) => Raise (OtherException "")  (* Caught by verify_compressed_file() *)
  | (Some sof_idx, f) =>
      let '(len, f) := f_read (f_seek f (sof_idx + 2)) 2 in
      let length := int_from_bytes_big len in
      f ← f_seek_cur f (length - 2);
      let '(definition_start, f) := f_read f 2 in
      _ ← assert (in_markers definition_start
                    [ [xff; xc4]; [xff; xdb]; [xff; xdd]; [xff; xda] ]);
                    (* DHT, DQT, DRI, SOS *)
      let '(b, _) := f_read (f_seek f (sof_idx + 5)) 5 in
      shape ← unpack_HHB b;
      _ ← assert (bool_decide (bytes_find end_of_image mm <> None));  (* End of Image *)
      Return (jpeg_shape shape)
  end.

(** What the readers take: an open file ([hasattr(f, "read")]) or the
    contents. *)
Inductive FileLike :=
| Handle (f : BinaryIO)
| Contents (b : bytes).

Definition _read_jpeg_shape (f : FileLike) : outcome (list Z) :=
  match f with
  | Handle f => _read_jpeg_shape_from_file f
  | Contents b => _read_jpeg_shape_from_buffer b
  end.

Definition _verify_jpeg (f : FileLike) : outcome (list Z) :=
  match f with
  | Handle f => _verify_jpeg_file f
  | Contents b => _verify_jpeg_buffer b
  end.

(** ** A small world to run the module in

    Stand-ins for the libraries, simple enough to evaluate: a store-only
    byte codec, an image codec that writes the array behind a short header,
    and one video clip of thirty single-pixel frames. *)

Module Fixture.

Definition image_formats : list string :=
  [ "apng"; "bmp"; "dib"; "gif"; "ico"; "jpeg"; "jpeg2000"; "pcx"; "png";
    "ppm"; "sgi"; "tga"; "tiff"; "webp"; "wmf"; "xbm" ]%string.

Definition mem (s : string) (l : list string) : bool := existsb (String.eqb s) l.

(** Modelled from the spec: [get_compression_type] of [hub.compression],
    which is not among the sources.  Every supported identifier maps to
    exactly one tag, the absent identifier to none, and an unknown
    identifier is rejected. *)
Definition classify (c : option string) : outcome (option compression_type) :=
  match c with
  | None => Return None
  | Some s =>
      if mem s ["lz4"]%string then Return (Some BYTE_COMPRESSION)
      else if mem s image_formats then Return (Some IMAGE_COMPRESSION)
      else if mem s ["mp3"; "flac"; "wav"]%string then Return (Some AUDIO_COMPRESSION)
      else if mem s ["mp4"; "mkv"; "avi"]%string then Return (Some VIDEO_COMPRESSION)
      else Raise (UnsupportedCompressionError c)
  end.

(** Modelled from the spec: [hub.compressions], the supported identifiers
    and the absent one. *)
Definition compressions : list (option string) :=
  None :: map Some (["lz4"%string] ++ image_formats
                    ++ ["mp3"%string; "flac"%string; "wav"%string]
                    ++ ["mp4"%string; "mkv"%string; "avi"%string]).

Definition byte_of_nat (n : nat) : byte := default x00 (Byte.of_nat n).

(** Little-endian 32-bit length, then the payload as it is. *)
Definition le32 (n : nat) : bytes :=
  map (fun k => byte_of_nat ((n / 256 ^ k) mod 256)) (seq 0 4).

Definition store (b : bytes) : outcome bytes := Return (le32 (length b) ++ b).

Definition unstore (s : Source) : outcome bytes :=
  match s with
  | Buffer b =>
      if bytes_eqb (take 4 b) (le32 (length b - 4)) then Return (drop 4 b)
      else Raise (OtherException "corrupt input")
  | Path _ => Raise (TypeError "a bytes-like object is required")
  end.

(** The legacy container: the magic number, then the payload. *)
Definition unframe (s : Source) : outcome bytes :=
  match s with
  | Buffer b =>
      if bytes_eqb (take 4 b) [x04; x22; x4d; x18] then Return (drop 4 b)
      else Raise (OtherException "LZ4F_decompress failed")
  | Path _ => Raise (TypeError "a bytes-like object is required")
  end.

Definition dtype_code (d : dtype) : nat :=
  match d with
  | Bool => 0 | UInt8 => 1 | Int8 => 2 | UInt16 => 3 | Int16 => 4 | UInt32 => 5
  | Int32 => 6 | UInt64 => 7 | Int64 => 8 | Float16 => 9 | Float32 => 10
  | Float64 => 11
  end%nat.

Definition dtype_of_code (n : nat) : dtype :=
  nth n [Bool; UInt8; Int8; UInt16; Int16; UInt32; Int32; UInt64; Int64;
         Float16; Float32; Float64] UInt8.

(** Pillow takes a 2-dimensional array, or a 3-dimensional one with two
    to four channels. *)
Definition fromarray (a : ndarray) : outcome Image :=
  match shape a with
  | [_; _] => Return (mk_Image a [] "")
  | [_; _; c] =>
      if (2 <=? c)%nat && (c <=? 4)%nat then Return (mk_Image a [] "")
      else Raise (TypeError "Cannot handle this data type")
  | _ => Raise (TypeError "Cannot handle this data type")
  end.

Definition save (img : Image) (fmt : string) : outcome bytes :=
  let a := im_frame0 img in
  Return ([x89; byte_of_nat (dtype_code (arr_dtype a)); byte_of_nat (ndim a)]
          ++ map byte_of_nat (shape a) ++ tobytes a).

Definition open (s : Source) : outcome Image :=
  match s with
  | Buffer (x89 :: d :: n :: rest) =>
      let n := N.to_nat (Byte.to_N n) in
      Return (mk_Image
                (mk_ndarray (dtype_of_code (N.to_nat (Byte.to_N d)))
                   (map (fun x => N.to_nat (Byte.to_N x)) (take n rest))
                   (drop n rest))
                [] "PNG")
  | _ => Raise (OSError "cannot identify image file")
  end.

Definition conv_type_shape (img : Image) : Shape * string :=
  (shape (im_frame0 img), "|u1"%string).

Definition read_audio (fn : string) (s : Source) : outcome SoundFile :=
  match s with
  | Buffer [] => Raise (OtherException "could not decode")
  | Buffer b => Return (mk_SoundFile b (length b / 4) 1)
  | Path _ => Raise (OSError "could not open file")
  end.

(** Thirty frames at 25 fps in a time base of 1/12800: frame [k] has
    time stamp [512 k], a key frame every twelve, one frame a packet. *)
Definition frame (k : nat) : VideoFrame :=
  mk_VideoFrame (Return (1, 1, [byte_of_nat k; byte_of_nat k; byte_of_nat k])%nat).

Definition packet (k : nat) : Packet :=
  mk_Packet (Some (512 * Z.of_nat k)) (Return [frame k]).

Definition packets : list Packet := map packet (seq 0 30).

Definition stream : VideoStream :=
  mk_VideoStream 30 (Some 15360) (mk_Fraction 25 1) (mk_Fraction 1 12800) 1 1 12.

(** Seeking lands on the key frame at or before the target. *)
Definition seek_clip (t : Z) : outcome (list Packet) :=
  Return (drop (12 * (Z.to_nat (t / 512) / 12)) packets).

Definition clip : Container := mk_Container [stream] (Some 1200000) packets seek_clip.

(** The same clip behind a source that refuses to seek. *)
Definition unseekable_clip : Container :=
  mk_Container [stream] (Some 1200000) packets (fun _ => Raise AVPermissionError).

Definition world : World :=
  {| byteorder_little := true;
     _MINIAUDIO_INSTALLED := true;
     _PYAV_INSTALLED := true;
     _LZ4_INSTALLED := true;
     hub_compressions := compressions;
     get_compression_type := classify;
     numcodecs_lz4_compress := store;
     numcodecs_lz4_decompress := unstore;
     lz4_frame_decompress := unframe;
     Image_fromarray := fromarray;
     Image_save := save;
     Image_save_all := fun frames => Raise (OSError "not supported");
     Image_open := open;
     Image_conv_type_shape := conv_type_shape;
     Image_accept := fun _ => Some "PNG"%string;
     Image_verify := fun _ => Return tt;
     Image_encode_raw := fun _ => Return 1;
     miniaudio := read_audio;
     av_open := fun s => match s with
                         | Path _ => Return unseekable_clip
                         | Buffer _ => Return clip
                         end |}.

(** The same world without the optional dependencies. *)
Definition bare_world : World :=
  {| byteorder_little := true;
     _MINIAUDIO_INSTALLED := false;
     _PYAV_INSTALLED := false;
     _LZ4_INSTALLED := false;
     hub_compressions := hub_compressions world;
     get_compression_type := get_compression_type world;
     numcodecs_lz4_compress := numcodecs_lz4_compress world;
     numcodecs_lz4_decompress := numcodecs_lz4_decompress world;
     lz4_frame_decompress := lz4_frame_decompress world;
     Image_fromarray := Image_fromarray world;
     Image_save := Image_save world;
     Image_save_all := Image_save_all world;
     Image_open := Image_open world;
     Image_conv_type_shape := Image_conv_type_shape world;
     Image_accept := Image_accept world;
     Image_verify := Image_verify world;
     Image_encode_raw := Image_encode_raw world;
     miniaudio := miniaudio world;
     av_open := av_open world |}.

End Fixture.

(** ** Further samples

    A clip whose packets carry no time stamp, and an image library that
    writes animations: the frame count and the layout of the frames, then
    the frames one after the other. *)

Module Samples.

Definition raw_packets : list Packet :=
  map (fun k => mk_Packet None (Return [Fixture.frame k])) (seq 0 5).

Definition raw_clip : Container :=
  mk_Container [Fixture.stream] (Some 1200000) raw_packets (fun _ => Return raw_packets).

Definition save_all (frames : list Image) : outcome bytes :=
  match frames with
  | [] => Raise (ValueError "no frames")
  | img :: _ =>
      let a := im_frame0 img in
      Return ([x8a; Fixture.byte_of_nat (length frames);
               Fixture.byte_of_nat (Fixture.dtype_code (arr_dtype a));
               Fixture.byte_of_nat (ndim a)]
              ++ map Fixture.byte_of_nat (shape a)
              ++ concat (map (fun i => tobytes (im_frame0 i)) frames))
  end.

Definition open (s : Source) : outcome Image :=
  match s with
  | Buffer (x8a :: n :: d :: k :: rest) =>
      let n := N.to_nat (Byte.to_N n) in
      let d := Fixture.dtype_of_code (N.to_nat (Byte.to_N d)) in
      let k := N.to_nat (Byte.to_N k) in
      let s := map (fun x => N.to_nat (Byte.to_N x)) (take k rest) in
      match map (mk_ndarray d s) (chunks n (nbytes_of s d) (drop k rest)) with
      | [] => Raise (OSError "cannot identify image file")
      | frame0 :: more => Return (mk_Image frame0 more "PNG")
      end
  | _ => Fixture.open s
  end.

Definition world : World :=
  {| byteorder_little := byteorder_little Fixture.world;
     _MINIAUDIO_INSTALLED := _MINIAUDIO_INSTALLED Fixture.world;
     _PYAV_INSTALLED := _PYAV_INSTALLED Fixture.world;
     _LZ4_INSTALLED := _LZ4_INSTALLED Fixture.world;
     hub_compressions := hub_compressions Fixture.world;
     get_compression_type := get_compression_type Fixture.world;
     numcodecs_lz4_compress := numcodecs_lz4_compress Fixture.world;
     numcodecs_lz4_decompress := numcodecs_lz4_decompress Fixture.world;
     lz4_frame_decompress := lz4_frame_decompress Fixture.world;
     Image_fromarray := Image_fromarray Fixture.world;
     Image_save := Image_save Fixture.world;
     Image_save_all := save_all;
     Image_open := open;
     Image_conv_type_shape := Image_conv_type_shape Fixture.world;
     Image_accept := Image_accept Fixture.world;
     Image_verify := Image_verify Fixture.world;
     Image_encode_raw := Image_encode_raw Fixture.world;
     miniaudio := miniaudio Fixture.world;
     av_open := fun _ => Return raw_clip |}.

End Samples.

(** ** Vocabulary of the statements *)

(** An array laid out as [H] rows of [W] cells of shape [T]. *)
Definition tiled (a : ndarray) (H W : nat) (T : Shape) (d : dtype) : Prop :=
  shape a = H :: W :: T /\ arr_dtype a = d
  /\ length (tobytes a) = (H * (W * nbytes_of T d))%nat.

Definition height_of (a : ndarray) : nat := nth 0 (shape a) 0%nat.
Definition width_of (a : ndarray) : nat := nth 1 (shape a) 0%nat.

(** The canvas [compress_multiple] builds for an image format. *)
Definition canvas_of (arrays : list ndarray) (d : dtype) : outcome ndarray :=
  bounding ← _get_bounding_shape (map shape arrays);
  fill_canvas (np_zeros bounding (Some d)) arrays 0.

(** A JPEG stream cut off after its start-of-scan marker: no end-of-image
    marker anywhere. *)
Definition truncated_jpeg : bytes :=
  [xff; xd8]                                          (* SOI *)
  ++ [xff; xc0; x00; x11; x08; x00; x02; x00; x03; x03]  (* SOF0: 2 x 3, 3 components *)
  ++ replicate 9 x00
  ++ [xff; xda].                                      (* SOS *)

(** Whether a log shows a packet decoded after [missing] more frames were
    converted, that is, once the output array is full. *)
Fixpoint decoded_after (missing : nat) (log : list Event) : bool :=
  match log with
  | [] => false
  | av_decode_call _ :: log' =>
      match missing with
      | O => true
      | _ => decoded_after missing log'
      end
  | av_to_ndarray_call :: log' => decoded_after (pred missing) log'
  | _ :: log' => decoded_after missing log'
  end.

(** A frame that converts to an RGB array of the stream's size, and a
    packet that decodes to such frames: to one at most, or to any number of
    them when the packet carries no time stamp ([packet.pts] absent or 0),
    in which case none of them is stored. *)
Definition good_frame (h wd : nat) (f : VideoFrame) : Prop :=
  exists px, rgb24 f = Return (h, wd, px).

Definition good_packet (h wd : nat) (p : Packet) : Prop :=
  exists fs, decode p = Return fs
             /\ ((length fs <= 1)%nat \/ pts p = None \/ pts p = Some 0)
             /\ Forall (good_frame h wd) fs.

(** A stream whose rates are not zero and whose length is known. *)
Definition stream_ok (c : Container) (v : VideoStream) : Prop :=
  numerator (guessed_rate v) <> 0 /\ denominator (guessed_rate v) <> 0
  /\ numerator (time_base v) <> 0 /\ denominator (time_base v) <> 0
  /\ (vs_frames v = 0 -> vs_duration v = None -> container_duration c <> None).

(** ** Vocabulary of the further properties *)

(** What [to_image] hands to [Image.fromarray]. *)
Definition handed_to_pillow (a : ndarray) : ndarray :=
  match shape a with
  | [h; wd; 1%nat] =>
      if negb (h =? 1)%nat then mk_ndarray (arr_dtype a) [h; wd] (tobytes a) else a
  | _ => a
  end.

(** An identifier that [decompress_multiple] does not treat as a byte
    compression. *)
Definition not_byte (w : World) (c : option string) : Prop :=
  truthy c = false
  \/ exists t, get_compression_type w c = Return t /\ is_type t BYTE_COMPRESSION = false.

(** What [_get_bounding_shape] raises on samples whose trailing dimensions
    differ. *)
Definition channels_mismatch : Exception :=
  ValueError "The data can't be compressed as the number of channels doesn't match.".

(** The bytes the samples of the given shapes take. *)
Definition payload_size (shapes : list Shape) (d : dtype) : nat :=
  sum_list (map (fun s => nbytes_of s d) shapes).

(** A start-of-frame marker at index [i]: one of the markers the scan
    looks for, other than those it skips. *)
Definition frame_marker_at (buf : bytes) (i : nat) : Prop :=
  (i + 2 <= length buf)%nat
  /\ in_markers (slice buf i (i + 2)) (take 14 _JPEG_SOFS) = true.

(** A small complete JPEG stream: the truncated one, a byte of scan data
    and the end-of-image marker. *)
Definition complete_jpeg : bytes := truncated_jpeg ++ [x00; xff; xd9].

(** How often a log shows the container sought, and a source opened. *)
Definition is_seek (ev : Event) : bool :=
  match ev with av_seek_call _ => true | _ => false end.

Definition is_open (ev : Event) : bool :=
  match ev with av_open_call _ => true | _ => false end.

Definition seeks (log : list Event) : nat := length (List.filter is_seek log).
Definition opens (log : list Event) : nat := length (List.filter is_open log).

(** What the demux loop may call: the decoder and the frame conversion,
    and [container.seek] when it is stepping by seeks. *)
Definition loop_event (seeking : bool) (ev : Event) : bool :=
  match ev with
  | av_decode_call _ | av_to_ndarray_call => true
  | av_seek_call _ => seeking
  | _ => false
  end.

(** [packet.pts] is falsy: absent, or zero. *)
Definition no_stamp (p : option Z) : Prop := p = None \/ p = Some 0.

(** The frames [_compress_apng] hands to the image library: the planes
    along the last axis of a 3-dimensional array, the sub-arrays along the
    first axis of a 4-dimensional one. *)
Definition apng_frames (a : ndarray) : list ndarray :=
  match shape a with
  | [h; wd; c] =>
      let elems := chunks (h * wd * c) (itemsize (arr_dtype a)) (tobytes a) in
      map (fun i => mk_ndarray (arr_dtype a) [h; wd]
                      (concat (stride_select (h * wd) c i elems)))
          (seq 0 c)
  | [_; _; _; _] => subarrays a
  | _ => []
  end.

(** * Properties *)

(** ** Basic facts *)

Lemma bytes_eqb_eq a b : bytes_eqb a b = true <-> a = b.
Proof.
  revert b; induction a as [|x a IH]; intros [|y b]; simpl; split;
    try congruence; try discriminate.
  - intros H. apply andb_prop in H as [Hx Hab].
    apply Byte.byte_dec_bl in Hx. apply IH in Hab. congruence.
  - intros [= -> ->]. apply andb_true_intro; split.
    + now apply Byte.byte_dec_lb.
    + now apply IH.
Qed.

Lemma bytes_eqb_neq a b : bytes_eqb a b = false <-> a <> b.
Proof.
  destruct (bytes_eqb a b) eqn:E.
  - apply bytes_eqb_eq in E. split; [discriminate | congruence].
  - split; [|reflexivity]. intros _ H. apply bytes_eqb_eq in H. congruence.
Qed.

Lemma dtype_eqb_eq a b : dtype_eqb a b = true <-> a = b.
Proof. destruct a, b; simpl; split; congruence. Qed.

Lemma shape_eqb_eq (a b : Shape) : shape_eqb a b = true <-> a = b.
Proof. unfold shape_eqb. apply bool_decide_eq_true. Qed.

Lemma bind_pure_Return {A B} (a : A) (f : A -> M B) : pure (Return a) ≫= f = f a.
Proof. unfold mbind, M_bind, pure. now destruct (f a). Qed.

Lemma bind_mret {A B} (a : A) (f : A -> M B) : mret a ≫= f = f a.
Proof. apply bind_pure_Return. Qed.

Lemma bind_call_Return {A B} ev (a : A) (f : A -> M B) :
  call ev (Return a) ≫= f = (ev :: calls (f a), result (f a)).
Proof. unfold mbind, M_bind, call, calls, result. now destruct (f a). Qed.

Lemma zero_in_prod s : zero_in s = true -> prod s = 0%nat.
Proof.
  induction s as [|d s IH]; simpl; [discriminate|].
  destruct d; simpl; [reflexivity|]. intros H. rewrite (IH H). lia.
Qed.

(** ** Byte codec *)

(** C10: [compress_bytes] on an empty buffer returns the empty byte string
    for every identifier, byte-type or not, known or not, without raising
    and without calling the compressor: the [SampleCompressionError] branch
    is out of reach of an empty buffer. *)
Theorem compress_bytes_empty (w : World) (compression : option string) :
  compress_bytes w [] compression = ([], Return []).
Proof. reflexivity. Qed.

(** C3, as stated, fails where the optional [lz4] module is missing: a
    buffer that begins with the magic number reaches no decompression
    routine at all. *)
Lemma legacy_container_without_lz4 :
  has_magic (Buffer [x04; x22; x4d; x18; x00]) = true
  /\ decompress_bytes Fixture.bare_world (Buffer [x04; x22; x4d; x18; x00])
       (Some "lz4"%string)
     = ([], Raise (ModuleNotFoundError
                     "Module lz4 not found. Install using `pip install lz4`.")).
Proof. split; reflexivity. Qed.

(** C3, amended: [decompress_bytes] on the byte-compression identifier
    returns empty bytes for the empty buffer and for the 5-byte marker
    without calling a codec; a buffer that begins with the 4-byte magic
    number goes to [lz4.frame.decompress] when the [lz4] module is installed
    and fails with [ModuleNotFoundError] when it is not; any other buffer
    goes to [numcodecs.lz4.decompress]; nothing else is called.  Hence, with
    the module installed, a legacy and a current container of one payload
    decode to the same bytes. *)
Theorem decompress_bytes_routing (w : World) :
  decompress_bytes w (Buffer []) (Some "lz4"%string) = ([], Return [])
  /\ decompress_bytes w (Buffer empty_marker) (Some "lz4"%string) = ([], Return [])
  /\ (forall b, has_magic (Buffer b) = true ->
        decompress_bytes w (Buffer b) (Some "lz4"%string)
        = if _LZ4_INSTALLED w
          then ([lz4_frame_decompress_call (Buffer b)],
                lz4_frame_decompress w (Buffer b))
          else ([], Raise (ModuleNotFoundError
                             "Module lz4 not found. Install using `pip install lz4`.")))
  /\ (forall b, has_magic (Buffer b) = false -> b <> [] -> b <> empty_marker ->
        decompress_bytes w (Buffer b) (Some "lz4"%string)
        = ([numcodecs_lz4_decompress_call (Buffer b)],
           numcodecs_lz4_decompress w (Buffer b)))
  /\ (_LZ4_INSTALLED w = true ->
      forall legacy current payload,
        has_magic (Buffer legacy) = true ->
        has_magic (Buffer current) = false ->
        current <> [] -> current <> empty_marker ->
        lz4_frame_decompress w (Buffer legacy) = Return payload ->
        numcodecs_lz4_decompress w (Buffer current) = Return payload ->
        result (decompress_bytes w (Buffer legacy) (Some "lz4"%string)) = Return payload
        /\ result (decompress_bytes w (Buffer current) (Some "lz4"%string))
           = Return payload).
Proof.
  assert (Hlegacy : forall b, has_magic (Buffer b) = true ->
            decompress_bytes w (Buffer b) (Some "lz4"%string)
            = if _LZ4_INSTALLED w
              then ([lz4_frame_decompress_call (Buffer b)],
                    lz4_frame_decompress w (Buffer b))
              else ([], Raise (ModuleNotFoundError
                         "Module lz4 not found. Install using `pip install lz4`."))).
  { intros b Hb. unfold decompress_bytes.
    destruct b as [|x b]; [discriminate|]. cbn [is_falsy is_id String.eqb].
    change (String.eqb "lz4" "lz4") with true. cbv iota.
    destruct (source_eqb (Buffer (x :: b)) empty_marker) eqn:Hm.
    - apply bytes_eqb_eq in Hm. rewrite Hm in Hb. discriminate.
    - rewrite Hb. destruct (_LZ4_INSTALLED w); reflexivity. }
  assert (Hcurrent : forall b, has_magic (Buffer b) = false -> b <> [] ->
            b <> empty_marker ->
            decompress_bytes w (Buffer b) (Some "lz4"%string)
            = ([numcodecs_lz4_decompress_call (Buffer b)],
               numcodecs_lz4_decompress w (Buffer b))).
  { intros b Hb Hne Hnm. unfold decompress_bytes.
    destruct b as [|x b]; [congruence|]. cbn [is_falsy is_id].
    change (String.eqb "lz4" "lz4") with true. cbv iota.
    apply bytes_eqb_neq in Hnm. cbn [source_eqb]. rewrite Hnm, Hb. reflexivity. }
  split; [reflexivity|]. split; [reflexivity|]. split; [exact Hlegacy|].
  split; [exact Hcurrent|].
  intros Hlz4 legacy current payload Hl Hc Hne Hnm Hframe Hblock. split.
  - rewrite Hlegacy, Hlz4 by assumption. assumption.
  - rewrite Hcurrent by assumption. assumption.
Qed.

Lemma decompress_bytes_routing_witness :
  _LZ4_INSTALLED Fixture.world = true
  /\ result (decompress_bytes Fixture.world (Buffer [x04; x22; x4d; x18; x2a])
               (Some "lz4"%string)) = Return [x2a]
  /\ result (decompress_bytes Fixture.world (Buffer [x01; x00; x00; x00; x2a])
               (Some "lz4"%string)) = Return [x2a].
Proof.
  split; [reflexivity|].
  destruct (decompress_bytes_routing Fixture.world) as (_ & _ & _ & _ & Hsame).
  apply (Hsame eq_refl [x04; x22; x4d; x18; x2a] [x01; x00; x00; x00; x2a] [x2a]);
    solve [reflexivity | discriminate].
Defined.

(** ** Optional dependencies *)

(** C8: without miniaudio, decoding audio and reading its shape fail, for
    every input, with a [ModuleNotFoundError] that names the audio extra;
    without PyAV, opening a video (and so reading its shape and decoding it)
    fails, for every input, with a [ModuleNotFoundError] that names the
    video extra.  No library is called. *)
Theorem missing_dependency_reported (w : World) :
  (_MINIAUDIO_INSTALLED w = false ->
   forall file compression,
     _decompress_audio w file compression
     = ([], Raise (ModuleNotFoundError
                     "Miniaudio is not installed. Run `pip install hub[audio]`."))
     /\ _read_audio_shape w file compression
        = ([], Raise (ModuleNotFoundError
                        "Miniaudio is not installed. Run `pip install hub[audio]`.")))
  /\ (_PYAV_INSTALLED w = false ->
      forall file,
        _open_video w file
        = ([], Raise (ModuleNotFoundError
                        "PyAV is not installed. Run `pip install hub[video]`."))
        /\ (forall start stop step reverse,
              _decompress_video w file start stop step reverse
              = ([], Raise (ModuleNotFoundError
                              "PyAV is not installed. Run `pip install hub[video]`.")))
        /\ _read_video_shape w file
           = ([], Raise (ModuleNotFoundError
                           "PyAV is not installed. Run `pip install hub[video]`."))).
Proof.
  split.
  - intros H file compression.
    unfold _decompress_audio, _read_audio_shape. rewrite H. split; reflexivity.
  - intros H file.
    assert (Hopen : _open_video w file = ([], Raise pyav_missing)).
    { unfold _open_video. rewrite H. reflexivity. }
    split; [exact Hopen|]. split.
    + intros. unfold _decompress_video. rewrite Hopen. reflexivity.
    + unfold _read_video_shape. rewrite Hopen. reflexivity.
Qed.

Lemma missing_dependency_reported_witness :
  _MINIAUDIO_INSTALLED Fixture.bare_world = false
  /\ _PYAV_INSTALLED Fixture.bare_world = false
  /\ result (_decompress_audio Fixture.bare_world (Buffer [x00]) (Some "mp3"%string))
     = Raise (ModuleNotFoundError
                "Miniaudio is not installed. Run `pip install hub[audio]`.")
  /\ result (_open_video Fixture.bare_world (Path "clip.mp4"))
     = Raise (ModuleNotFoundError
                "PyAV is not installed. Run `pip install hub[video]`.").
Proof.
  split; [reflexivity|]. split; [reflexivity|].
  destruct (missing_dependency_reported Fixture.bare_world) as [Haudio Hvideo].
  split.
  - destruct (Haudio eq_refl (Buffer [x00]) (Some "mp3"%string)) as [-> _].
    reflexivity.
  - destruct (Hvideo eq_refl (Path "clip.mp4")) as [-> _]. reflexivity.
Defined.

(** ** Empty samples *)

Lemma calls_try_except_raise {A} (m : M A) handles (g : Exception -> Exception) :
  calls (try_except m handles (fun e => raise (g e))) = calls m.
Proof.
  destruct m as [l [a|e]]; simpl; [reflexivity|].
  destruct (handles e); simpl; [apply app_nil_r | reflexivity].
Qed.

(** C1, as stated, fails for the animated format: the empty blob written
    for an empty sample goes to the image library, which cannot read it
    (and likewise to the audio and video decoders for their formats). *)
Lemma empty_apng_sample_reaches_codec :
  let array := np_zeros [0; 3]%nat (Some UInt8) in
  zero_in (shape array) = true
  /\ compress_array Fixture.world array (Some "apng"%string) = ([], Return [])
  /\ decompress_array Fixture.world (Buffer []) (Some (shape array)) (Some UInt8)
       (Some "apng"%string) None None None false
     = ([Image_open_call (Buffer [])], Raise (OSError "cannot identify image file"))
  /\ decompress_array Fixture.world (Buffer []) (Some (shape array)) (Some UInt8)
       (Some "mp3"%string) None None None false
     = ([miniaudio_call "mp3_read_f32" (Buffer [])],
        Raise (OtherException "could not decode")).
Proof. repeat split; reflexivity. Qed.

(** C1, amended: an array with a zero-sized dimension compresses to the
    empty byte string under every identifier, and no codec is called;
    [decompress_array] given the empty blob and that shape returns the
    zero-filled array of that shape, again without calling a codec, when
    the identifier is absent or a non-animated image format (for any dtype
    argument), and when it is a byte compression and the dtype is given. *)
Theorem empty_sample_short_circuit (w : World) (array : ndarray)
    (compression : option string) :
  zero_in (shape array) = true ->
  compress_array w array compression = ([], Return [])
  /\ (forall dtype start_idx end_idx step reverse,
        (get_compression_type w compression = Return None
         \/ get_compression_type w compression = Return (Some IMAGE_COMPRESSION)) ->
        is_id compression "apng" = false ->
        decompress_array w (Buffer []) (Some (shape array)) dtype compression
          start_idx end_idx step reverse
        = ([], Return (np_zeros (shape array) dtype)))
  /\ (forall d start_idx end_idx step reverse,
        get_compression_type w compression = Return (Some BYTE_COMPRESSION) ->
        decompress_array w (Buffer []) (Some (shape array)) (Some d) compression
          start_idx end_idx step reverse
        = ([], Return (np_zeros (shape array) (Some d)))).
Proof.
  intros Hzero. split; [|split].
  - unfold compress_array. rewrite Hzero. reflexivity.
  - intros dtype start_idx end_idx step reverse Hclass Hapng.
    unfold decompress_array.
    destruct Hclass as [-> | ->]; rewrite bind_pure_Return; cbn [is_type compression_type_eqb];
      rewrite Hapng, Hzero; reflexivity.
  - intros d start_idx end_idx step reverse Hclass.
    unfold decompress_array. rewrite Hclass, bind_pure_Return. cbn [is_type compression_type_eqb].
    unfold decompress_bytes. cbn [is_falsy]. rewrite bind_mret.
    unfold np_frombuffer_reshape, np_zeros, nbytes_of.
    rewrite (zero_in_prod _ Hzero). cbn [length default Nat.mul replicate].
    replace (0 mod itemsize d =? 0)%nat with true by (now destruct d).
    reflexivity.
Qed.

Lemma empty_sample_short_circuit_witness :
  let array := np_zeros [4; 0; 3]%nat (Some UInt8) in
  zero_in (shape array) = true
  /\ compress_array Fixture.world array (Some "png"%string) = ([], Return [])
  /\ decompress_array Fixture.world (Buffer []) (Some (shape array)) (Some UInt8)
       (Some "png"%string) None None None false
     = ([], Return array).
Proof.
  split; [reflexivity|].
  destruct (empty_sample_short_circuit Fixture.world
              (np_zeros [4; 0; 3]%nat (Some UInt8)) (Some "png"%string) eq_refl)
    as (Hc & Hd & _).
  split; [exact Hc|].
  apply (Hd (Some UInt8) None None None false); [right|]; reflexivity.
Defined.

(** ** Grayscale images *)

(** C9, as stated, fails for a single-row image: an array of shape
    (1, W, 1) is handed to the image library as it is. *)
Lemma single_row_not_squeezed :
  let array := mk_ndarray UInt8 [1; 2; 1]%nat [x07; x09] in
  calls (compress_array Fixture.world array (Some "png"%string))
  = [Image_fromarray_call array]
  /\ shape array = [1; 2; 1]%nat.
Proof. split; reflexivity. Qed.

(** C9, amended: for a non-empty array of shape (H, W, 1) with H other
    than 1 and a non-animated image identifier, the first and only array
    [compress_array] hands to the image library is the array squeezed to
    (H, W), and the image saved is the one made from it; with H = 1 the
    array is handed over unsqueezed. *)
Theorem grayscale_squeezed_before_encoding (w : World) (array : ndarray)
    (c : string) (h wd : nat) :
  shape array = [h; wd; 1%nat] -> h <> 0%nat -> wd <> 0%nat ->
  in_compressions w (Some c) = true ->
  get_compression_type w (Some c) = Return (Some IMAGE_COMPRESSION) ->
  String.eqb c "apng" = false ->
  let given := if (h =? 1)%nat then array
               else mk_ndarray (arr_dtype array) [h; wd] (tobytes array) in
  calls (compress_array w array (Some c))
  = Image_fromarray_call given
    :: match Image_fromarray w given with
       | Return img => [Image_save_call img c]
       | Raise _ => []
       end.
Proof.
  intros Hshape Hh Hwd Hin Hclass Hapng given.
  unfold compress_array. rewrite Hshape.
  cbn [zero_in existsb]. rewrite orb_false_r.
  replace (0 =? h)%nat with false by (symmetry; apply Nat.eqb_neq; lia).
  replace (0 =? wd)%nat with false by (symmetry; apply Nat.eqb_neq; lia).
  cbn [orb]. rewrite Hin. cbn [negb]. rewrite Hclass, bind_pure_Return.
  cbn [is_type compression_type_eqb]. rewrite Hapng.
  rewrite calls_try_except_raise.
  unfold save_image, to_image. rewrite Hshape.
  assert (Hcall : forall a,
            calls (call (Image_fromarray_call a) (Image_fromarray w a) ≫=
                     (fun img => call (Image_save_call img c) (Image_save w img c)))
            = Image_fromarray_call a
              :: match Image_fromarray w a with
                 | Return img => [Image_save_call img c]
                 | Raise _ => []
                 end).
  { intros a. destruct (Image_fromarray w a); reflexivity. }
  subst given. destruct (h =? 1)%nat eqn:Hone; cbn [negb].
  - apply Hcall.
  - unfold squeeze_axis2. rewrite Hshape, bind_pure_Return. apply Hcall.
Qed.

Lemma grayscale_squeezed_before_encoding_witness :
  let array := mk_ndarray UInt8 [2; 2; 1]%nat [x01; x02; x03; x04] in
  let squeezed := mk_ndarray UInt8 [2; 2]%nat [x01; x02; x03; x04] in
  calls (compress_array Fixture.world array (Some "png"%string))
  = [Image_fromarray_call squeezed; Image_save_call (mk_Image squeezed [] "") "png"].
Proof.
  exact (grayscale_squeezed_before_encoding Fixture.world
           (mk_ndarray UInt8 [2; 2; 1]%nat [x01; x02; x03; x04]) "png" 2 2
           eq_refl (Nat.neq_succ_0 1) (Nat.neq_succ_0 1) eq_refl eq_refl eq_refl).
Defined.

(** ** Tiling: rejected inputs *)

(** C7, as stated, fails for samples that disagree on a trailing
    dimension: the tiler raises [ValueError], not [SampleCompressionError],
    and under a byte compression it raises nothing at all. *)
Lemma trailing_mismatch_is_ValueError :
  let a := np_zeros [2; 2; 3]%nat (Some UInt8) in
  let b := np_zeros [2; 2; 4]%nat (Some UInt8) in
  compress_multiple Fixture.world [a; b] (Some "png"%string)
  = ([], Raise (ValueError
       "The data can't be compressed as the number of channels doesn't match."))
  /\ exists blob, result (compress_multiple Fixture.world [a; b] (Some "lz4"%string))
                  = Return blob.
Proof. split; [reflexivity|]. eexists. reflexivity. Qed.

Lemma find_dtype_mismatch (arrays : list ndarray) (d : dtype) (a : ndarray) :
  In a arrays -> arr_dtype a <> d ->
  exists arr, List.find (fun arr => negb (dtype_eqb (arr_dtype arr) d)) arrays = Some arr.
Proof.
  induction arrays as [|x arrays IH]; intros Hin Hne; [destruct Hin|].
  cbn [List.find]. destruct (dtype_eqb (arr_dtype x) d) eqn:E; cbn [negb].
  - destruct Hin as [-> | Hin].
    + apply dtype_eqb_eq in E. congruence.
    + now apply IH.
  - now exists x.
Qed.

Lemma find_dtype_agree (arrays : list ndarray) (d : dtype) :
  (forall a, In a arrays -> arr_dtype a = d) ->
  List.find (fun arr => negb (dtype_eqb (arr_dtype arr) d)) arrays = None.
Proof.
  induction arrays as [|x arrays IH]; intros H; [reflexivity|].
  cbn [List.find].
  replace (dtype_eqb (arr_dtype x) d) with true
    by (symmetry; apply dtype_eqb_eq, H; now left).
  cbn [negb]. apply IH. intros a Ha. apply H. now right.
Qed.

Lemma forallb_trailing_mismatch (shapes : list Shape) (s : Shape) (a : Shape) :
  In a shapes -> drop 2 a <> s ->
  forallb (fun x => shape_eqb (drop 2 x) s) shapes = false.
Proof.
  intros Hin Hne. apply not_true_is_false. intros H.
  rewrite forallb_forall in H. specialize (H a Hin).
  apply shape_eqb_eq in H. congruence.
Qed.

(** C7, amended: [compress_multiple] fails with [SampleCompressionError],
    whatever the identifier, when two samples disagree on dtype; when the
    samples share their dtype but two of them disagree on a dimension
    beyond the first two axes, and the identifier is absent or a
    non-animated image format, it fails with [ValueError]; under a byte
    compression the samples are joined whatever their shapes. *)
Theorem compress_multiple_rejects (w : World) (arrays : list ndarray)
    (compression : option string) (a b : ndarray) :
  In a arrays -> In b arrays ->
  (arr_dtype a <> arr_dtype b ->
   exists s m, compress_multiple w arrays compression
               = ([], Raise (SampleCompressionError s compression m)))
  /\ ((forall x y, In x arrays -> In y arrays -> arr_dtype x = arr_dtype y) ->
      drop 2 (shape a) <> drop 2 (shape b) ->
      (get_compression_type w compression = Return None
       \/ get_compression_type w compression = Return (Some IMAGE_COMPRESSION)) ->
      is_id compression "apng" = false ->
      compress_multiple w arrays compression
      = ([], Raise (ValueError
           "The data can't be compressed as the number of channels doesn't match.")))
  /\ ((forall x y, In x arrays -> In y arrays -> arr_dtype x = arr_dtype y) ->
      get_compression_type w compression = Return (Some BYTE_COMPRESSION) ->
      compress_multiple w arrays compression
      = compress_bytes w (concat (map tobytes arrays)) compression).
Proof.
  intros Ha Hb.
  destruct arrays as [|array0 rest]; [destruct Ha|].
  split; [|split].
  - intros Hne. unfold compress_multiple.
    assert (Hex : exists x, In x (array0 :: rest) /\ arr_dtype x <> arr_dtype array0).
    { destruct (dtype_eqb (arr_dtype a) (arr_dtype array0)) eqn:E.
      - apply dtype_eqb_eq in E. exists b. split; [assumption | congruence].
      - exists a. split; [assumption|]. intros H. apply dtype_eqb_eq in H. congruence. }
    destruct Hex as (x & Hx & Hxne).
    destruct (find_dtype_mismatch _ _ _ Hx Hxne) as [arr ->].
    eexists _, _. reflexivity.
  - intros Hsame Htrail Hclass Hapng. unfold compress_multiple.
    rewrite find_dtype_agree
      by (intros x Hx; apply Hsame; [assumption | now left]).
    assert (Hbound : _get_bounding_shape (map shape (array0 :: rest))
                     = Raise (ValueError
           "The data can't be compressed as the number of channels doesn't match.")).
    { cbn [_get_bounding_shape map].
      assert (Hex : exists s, In s (map shape (array0 :: rest))
                              /\ drop 2 s <> drop 2 (shape array0)).
      { destruct (decide (drop 2 (shape a) = drop 2 (shape array0))) as [E|E].
        - exists (shape b). split; [now apply in_map | congruence].
        - exists (shape a). split; [now apply in_map | assumption]. }
      destruct Hex as (s & Hs & Hsne).
      change (shape array0 :: map shape rest) with (map shape (array0 :: rest)).
      rewrite (forallb_trailing_mismatch _ _ _ Hs Hsne). reflexivity. }
    destruct Hclass as [-> | ->]; rewrite bind_pure_Return;
      cbn [is_type compression_type_eqb]; rewrite Hapng, Hbound; reflexivity.
  - intros Hsame Hclass. unfold compress_multiple.
    rewrite find_dtype_agree
      by (intros x Hx; apply Hsame; [assumption | now left]).
    rewrite Hclass, bind_pure_Return. reflexivity.
Qed.

Lemma compress_multiple_rejects_witness :
  let a := np_zeros [2; 2; 3]%nat (Some UInt8) in
  let b := np_zeros [2; 2; 3]%nat (Some Float32) in
  let c := np_zeros [2; 2; 4]%nat (Some UInt8) in
  (exists s m, compress_multiple Fixture.world [a; b] (Some "png"%string)
               = ([], Raise (SampleCompressionError s (Some "png"%string) m)))
  /\ compress_multiple Fixture.world [a; c] (Some "png"%string)
     = ([], Raise (ValueError
          "The data can't be compressed as the number of channels doesn't match.")).
Proof.
  split.
  - refine (proj1 (compress_multiple_rejects Fixture.world _ (Some "png"%string)
                     (np_zeros [2; 2; 3]%nat (Some UInt8))
                     (np_zeros [2; 2; 3]%nat (Some Float32)) _ _) _).
    + now left.
    + right; now left.
    + discriminate.
  - refine (proj1 (proj2 (compress_multiple_rejects Fixture.world _
                            (Some "png"%string)
                            (np_zeros [2; 2; 3]%nat (Some UInt8))
                            (np_zeros [2; 2; 4]%nat (Some UInt8)) _ _)) _ _ _ _).
    + now left.
    + right; now left.
    + intros x y [<- | [<- | []]] [<- | [<- | []]]; reflexivity.
    + discriminate.
    + right; reflexivity.
    + reflexivity.
Defined.

(** ** PNG header *)

(** C4, as stated, fails for a colour image: a 16-bit truecolor header and
    a 1-bit palette header both read as 8-bit unsigned. *)
Lemma png_dtype_follows_color_type :
  let header bits colors :=
    replicate 16 x00 ++ [x00; x00; x00; x02] ++ [x00; x00; x00; x03]
    ++ [bits; colors] in
  _read_png_shape_and_dtype Fixture.world (header x10 x02)
  = Return ([3; 2; 3], "|u1"%string)
  /\ _NATIVE_INT32 Fixture.world <> "|u1"%string
  /\ _read_png_shape_and_dtype Fixture.world (header x01 x03)
     = Return ([3; 2], "|u1"%string).
Proof. repeat split; try reflexivity. discriminate. Qed.

(** C4, amended: the PNG fast path reads width and height as big-endian
    (signed) 32-bit fields at byte offsets 16 and 20, bit depth and colour
    type at offsets 24 and 25; the shape is (height, width) followed by the
    channel count given by the colour type (0: none, 2: 3, 3: none, 4: 2 if
    8-bit else 4, other: 4); the dtype is boolean for bit depth 1 and the
    native-endian 4-byte integer for bit depth 16 only when the colour type
    is 0, and 8-bit unsigned in every other case. *)
Theorem png_fast_path (w : World) (pre wf hf rest : bytes) (bits colors : byte) :
  length pre = 16%nat -> length wf = 4%nat -> length hf = 4%nat ->
  let width := to_signed32 (int_from_bytes_big wf) in
  let height := to_signed32 (int_from_bytes_big hf) in
  let b := Z.of_N (Byte.to_N bits) in
  let c := Z.of_N (Byte.to_N colors) in
  _read_png_shape_and_dtype w (pre ++ wf ++ hf ++ bits :: colors :: rest)
  = Return
      ([height; width]
       ++ (if c =? 0 then [] else if c =? 2 then [3] else if c =? 3 then []
           else if c =? 4 then (if b =? 8 then [2] else [4]) else [4]),
       if c =? 0
       then (if b =? 1 then "|b1"%string
             else if b =? 16
                  then (if byteorder_little w then "<i4"%string else ">i4"%string)
                  else "|u1"%string)
       else "|u1"%string).
Proof.
  intros Hpre Hwf Hhf width height b c.
  do 17 (destruct pre as [|? pre]; try discriminate Hpre).
  do 5 (destruct wf as [|? wf]; try discriminate Hwf).
  do 5 (destruct hf as [|? hf]; try discriminate Hhf).
  unfold _read_png_shape_and_dtype, slice, unpack_ii, _NATIVE_INT32.
  cbn [app firstn skipn length Nat.sub Nat.eqb mbind outcome_bind].
  change (take 0 rest) with (@nil byte). cbn [mbind outcome_bind].
  fold width height b c.
  destruct (c =? 0); [|destruct (c =? 2); [|destruct (c =? 3); [|destruct (c =? 4)]]];
    try destruct (b =? 1); try destruct (b =? 16); try destruct (b =? 8);
    reflexivity.
Qed.

Lemma png_fast_path_witness :
  _read_png_shape_and_dtype Fixture.world
    (replicate 16 x00 ++ [x00; x00; x01; x00] ++ [x00; x00; x00; x80]
     ++ x10 :: x00 :: [xff])
  = Return ([128; 256], "<i4"%string).
Proof.
  exact (png_fast_path Fixture.world (replicate 16 x00) [x00; x00; x01; x00]
           [x00; x00; x00; x80] [xff] x10 x00 eq_refl eq_refl eq_refl).
Defined.

(** ** JPEG end-of-image marker *)

(** C5, as stated, fails: the metadata fast path never looks for the
    end-of-image marker and reports the shape of a truncated stream. *)
Lemma fast_path_ignores_end_of_image :
  bytes_find end_of_image truncated_jpeg = None
  /\ _read_jpeg_shape_from_buffer truncated_jpeg = Return [2; 3; 3]
  /\ read_meta_from_compressed_file Fixture.world truncated_jpeg (Some "jpeg"%string)
     = ([], Return ("jpeg"%string, [2; 3; 3], "|u1"%string)).
Proof. repeat split; vm_compute; reflexivity. Qed.

(** C5, amended: it is the verification path that rejects a JPEG stream
    without an end-of-image marker: [_verify_jpeg_buffer] raises, and
    [verify_compressed_file] reports the sample as corrupted. *)
Theorem verify_requires_end_of_image (buf : bytes) :
  bytes_find end_of_image buf = None ->
  (exists e, _verify_jpeg_buffer buf = Raise e)
  /\ forall w, verify_compressed_file w buf "jpeg"
               = ([], Raise (CorruptedSampleError "jpeg")).
Proof.
  intros Heoi.
  assert (H : exists e, _verify_jpeg_buffer buf = Raise e).
  { unfold _verify_jpeg_buffer. rewrite Heoi.
    destruct (is_prefix [xff; xd8] buf); cbn [assert mbind outcome_bind];
      [|eexists; reflexivity].
    destruct (find_sof buf 0 None) as [sof_idx|]; [|eexists; reflexivity].
    destruct (in_markers _ _); cbn [assert mbind outcome_bind];
      [|eexists; reflexivity].
    destruct (unpack_HHB _); cbn [mbind outcome_bind]; eexists; reflexivity. }
  split; [exact H|].
  intros w. destruct H as [e He]. unfold verify_compressed_file.
  change (String.eqb "jpeg" "png") with false.
  change (String.eqb "jpeg" "jpeg") with true. cbv iota.
  rewrite He. reflexivity.
Qed.

Lemma verify_requires_end_of_image_witness :
  bytes_find end_of_image truncated_jpeg = None
  /\ verify_compressed_file Fixture.world truncated_jpeg "jpeg"
     = ([], Raise (CorruptedSampleError "jpeg")).
Proof.
  split; [reflexivity|].
  exact (proj2 (verify_requires_end_of_image truncated_jpeg eq_refl) Fixture.world).
Defined.

(** ** Tiling: round trip *)

Section Chunks.
Context {A : Type}.
Implicit Types (l : list A) (rows : list (list A)).

Lemma chunks_length n sz l : length (chunks n sz l) = n.
Proof. revert l; induction n as [|n IH]; intros l; simpl; [reflexivity|]. now rewrite IH. Qed.

Lemma chunks_concat sz rows :
  Forall (fun r => length r = sz) rows -> chunks (length rows) sz (concat rows) = rows.
Proof.
  induction 1 as [|r rows Hr _ IH]; simpl; [reflexivity|].
  rewrite take_app_length' by congruence.
  rewrite drop_app_length' by congruence. now rewrite IH.
Qed.

Lemma concat_chunks n sz l : length l = (n * sz)%nat -> concat (chunks n sz l) = l.
Proof.
  revert l; induction n as [|n IH]; intros l Hl; simpl in *.
  - destruct l; [reflexivity | discriminate].
  - rewrite IH by (rewrite length_drop; lia). apply take_drop.
Qed.

Lemma chunks_Forall_length n sz l :
  length l = (n * sz)%nat -> Forall (fun r => length r = sz) (chunks n sz l).
Proof.
  revert l; induction n as [|n IH]; intros l Hl; simpl in *; constructor.
  - rewrite length_take. lia.
  - apply IH. rewrite length_drop. lia.
Qed.
End Chunks.

Lemma slice_left (row rest : bytes) (lo l0 h0 : nat) :
  (h0 <= lo)%nat -> (lo <= length row)%nat ->
  slice (take lo row ++ rest) l0 h0 = slice row l0 h0.
Proof.
  intros Hh Hlo. unfold slice.
  rewrite <- (take_drop lo row) at 2.
  destruct (decide (l0 <= h0)%nat) as [Hle|Hgt].
  - rewrite !drop_app_le by (rewrite length_take; lia).
    rewrite !take_app_le by (rewrite length_drop, length_take; lia). reflexivity.
  - replace (h0 - l0)%nat with 0%nat by lia. now rewrite !take_0.
Qed.

Lemma slice_middle (row block : bytes) (lo hi : nat) :
  (lo <= length row)%nat -> length block = (hi - lo)%nat ->
  slice (take lo row ++ block ++ drop hi row) lo hi = block.
Proof.
  intros Hlo Hb. unfold slice.
  rewrite drop_app_length' by (rewrite length_take; lia).
  now rewrite take_app_length'.
Qed.

Lemma write_rows_length rows blocks lo hi :
  length (write_rows rows blocks lo hi) = length rows.
Proof.
  revert blocks; induction rows as [|r rows IH]; intros [|b blocks]; simpl;
    try reflexivity. f_equal. apply IH.
Qed.

Lemma write_rows_Forall rows blocks lo hi sz :
  (lo <= hi)%nat -> (hi <= sz)%nat ->
  Forall (fun r : bytes => length r = sz) rows ->
  Forall (fun b : bytes => length b = (hi - lo)%nat) blocks ->
  Forall (fun r : bytes => length r = sz) (write_rows rows blocks lo hi).
Proof.
  intros Hlo Hhi Hrows. revert blocks.
  induction Hrows as [|r rows Hr Hrows IH]; intros blocks Hblocks; simpl;
    [destruct blocks; constructor|].
  destruct Hblocks as [|b blocks Hb Hblocks]; simpl; [now constructor|].
  constructor; [|now apply IH].
  rewrite !length_app, length_take, length_drop. lia.
Qed.

Lemma write_rows_read_back rows blocks lo hi sz :
  (lo <= hi)%nat -> (hi <= sz)%nat ->
  Forall (fun r : bytes => length r = sz) rows ->
  Forall (fun b : bytes => length b = (hi - lo)%nat) blocks ->
  (length blocks <= length rows)%nat ->
  map (fun row => slice row lo hi) (take (length blocks) (write_rows rows blocks lo hi))
  = blocks.
Proof.
  intros Hlo Hhi Hrows. revert blocks.
  induction Hrows as [|r rows Hr _ IH]; intros blocks Hblocks Hlen.
  - destruct blocks; [reflexivity | simpl in Hlen; lia].
  - destruct Hblocks as [|b blocks Hb Hblocks]; [reflexivity|].
    simpl in *. rewrite slice_middle by lia. f_equal. apply IH; [assumption | lia].
Qed.

Lemma write_rows_read_left rows blocks lo hi sz l0 h0 h :
  (h0 <= lo)%nat -> (lo <= sz)%nat ->
  Forall (fun r : bytes => length r = sz) rows ->
  map (fun row => slice row l0 h0) (take h (write_rows rows blocks lo hi))
  = map (fun row => slice row l0 h0) (take h rows).
Proof.
  intros Hh Hlo Hrows. revert blocks h.
  induction Hrows as [|r rows Hr _ IH]; intros blocks h; [now destruct blocks|].
  destruct blocks as [|b blocks]; [reflexivity|].
  destruct h as [|h]; [reflexivity|]. simpl.
  rewrite slice_left by lia. f_equal. apply IH.
Qed.

Lemma length_concat_uniform {A} (rows : list (list A)) sz :
  Forall (fun r => length r = sz) rows -> length (concat rows) = (length rows * sz)%nat.
Proof.
  induction 1 as [|r rows Hr _ IH]; simpl; [reflexivity|].
  rewrite length_app, IH. lia.
Qed.

Lemma tiled_rows a H W T d :
  tiled a H W T d -> rows_of a = chunks H (W * nbytes_of T d) (tobytes a).
Proof. intros (Hs & Hd & _). unfold rows_of, cell_size. rewrite Hs, Hd. reflexivity. Qed.

Lemma tiled_rows_Forall a H W T d :
  tiled a H W T d -> Forall (fun r => length r = (W * nbytes_of T d)%nat) (rows_of a).
Proof.
  intros Ht. rewrite (tiled_rows _ _ _ _ _ Ht).
  apply chunks_Forall_length, Ht.
Qed.

Lemma tiled_rows_length a H W T d : tiled a H W T d -> length (rows_of a) = H.
Proof. intros Ht. rewrite (tiled_rows _ _ _ _ _ Ht). apply chunks_length. Qed.

Lemma tiled_cell_size a H W T d : tiled a H W T d -> cell_size a = nbytes_of T d.
Proof. intros (Hs & Hd & _). unfold cell_size. now rewrite Hs, Hd. Qed.

Lemma block_shape_inside canvas H W T d h x wd :
  tiled canvas H W T d -> (h <= H)%nat -> (x + wd <= W)%nat ->
  block_shape canvas h x wd = Return (h :: wd :: T).
Proof.
  intros (Hs & _) Hh Hx. unfold block_shape. rewrite Hs.
  do 3 f_equal; lia.
Qed.

Lemma set_block_tiled canvas a H W T d h wd x :
  tiled canvas H W T d -> tiled a h wd T d -> (h <= H)%nat -> (x + wd <= W)%nat ->
  exists canvas',
    set_block canvas x a = Return canvas'
    /\ tiled canvas' H W T d
    /\ rows_of canvas'
       = write_rows (rows_of canvas) (rows_of a)
           (x * nbytes_of T d) ((x + wd) * nbytes_of T d).
Proof.
  intros Hc Ha Hh Hx.
  set (c := nbytes_of T d).
  assert (Hrows : Forall (fun r : bytes => length r = (W * c)%nat)
                    (write_rows (rows_of canvas) (rows_of a) (x * c) ((x + wd) * c))).
  { apply write_rows_Forall; try (subst c; nia).
    - eapply tiled_rows_Forall, Hc.
    - replace ((x + wd) * c - x * c)%nat with (wd * c)%nat by nia.
      eapply tiled_rows_Forall, Ha. }
  assert (Hlen : length (write_rows (rows_of canvas) (rows_of a) (x * c) ((x + wd) * c))
                 = H).
  { rewrite write_rows_length. eapply tiled_rows_length, Hc. }
  exists (mk_ndarray d (H :: W :: T)
            (concat (write_rows (rows_of canvas) (rows_of a) (x * c) ((x + wd) * c)))).
  split; [|split].
  - unfold set_block.
    destruct Ha as (Has & Had & _). destruct Hc as (Hcs & Hcd & Hcl).
    rewrite Has. cbn [getitem lookup list_lookup mbind outcome_bind].
    rewrite (block_shape_inside canvas H W T d) by (try split; auto).
    cbn [mbind outcome_bind].
    replace (shape_eqb (h :: wd :: T) (h :: wd :: T)) with true
      by (symmetry; now apply shape_eqb_eq).
    replace (dtype_eqb (arr_dtype a) (arr_dtype canvas)) with true
      by (symmetry; apply dtype_eqb_eq; congruence).
    cbn [negb]. unfold cell_size. rewrite Hcs, Hcd. cbn [drop]. reflexivity.
  - repeat split; cbn [shape arr_dtype tobytes]; auto.
    fold c. rewrite (length_concat_uniform _ _ Hrows). f_equal. exact Hlen.
  - unfold rows_of at 1, cell_size. cbn [shape arr_dtype tobytes nth drop]. fold c.
    rewrite <- Hlen at 1. now apply chunks_concat.
Qed.

Lemma get_block_tiled canvas H W T d h x wd :
  tiled canvas H W T d -> (h <= H)%nat -> (x + wd <= W)%nat ->
  get_block canvas h x wd
  = Return (mk_ndarray d (h :: wd :: T)
              (concat (map (fun row => slice row (x * nbytes_of T d)
                                         ((x + wd) * nbytes_of T d))
                         (take h (rows_of canvas))))).
Proof.
  intros Hc Hh Hx. unfold get_block.
  rewrite (block_shape_inside canvas H W T d) by assumption.
  cbn [mbind outcome_bind]. rewrite (tiled_cell_size _ _ _ _ _ Hc).
  destruct Hc as (_ & -> & _). reflexivity.
Qed.

Lemma get_block_written canvas canvas' a H W T d h wd x :
  tiled canvas H W T d -> tiled a h wd T d -> (h <= H)%nat -> (x + wd <= W)%nat ->
  set_block canvas x a = Return canvas' ->
  tiled canvas' H W T d
  /\ get_block canvas' h x wd = Return a
  /\ forall h0 x0 w0, (x0 + w0 <= x)%nat -> (h0 <= H)%nat ->
       get_block canvas' h0 x0 w0 = get_block canvas h0 x0 w0.
Proof.
  intros Hc Ha Hh Hx Hset.
  destruct (set_block_tiled canvas a H W T d h wd x Hc Ha Hh Hx)
    as (c' & Hset' & Hc' & Hrows).
  rewrite Hset in Hset'. injection Hset' as <-.
  set (c := nbytes_of T d) in *.
  split; [assumption|]. split.
  - rewrite (get_block_tiled canvas' H W T d) by assumption. fold c. rewrite Hrows.
    assert (Hback : map (fun row => slice row (x * c) ((x + wd) * c))
                      (take (length (rows_of a))
                         (write_rows (rows_of canvas) (rows_of a) (x * c) ((x + wd) * c)))
                    = rows_of a).
    { apply (write_rows_read_back _ _ _ _ (W * c)); try (subst c; nia).
      - eapply tiled_rows_Forall, Hc.
      - replace ((x + wd) * c - x * c)%nat with (wd * c)%nat by nia.
        eapply tiled_rows_Forall, Ha.
      - rewrite (tiled_rows_length _ _ _ _ _ Ha), (tiled_rows_length _ _ _ _ _ Hc).
        assumption. }
    rewrite (tiled_rows_length _ _ _ _ _ Ha) in Hback. rewrite Hback.
    rewrite (tiled_rows _ _ _ _ _ Ha), concat_chunks by apply Ha.
    destruct Ha as (Hs & Hd & _). destruct a; cbn in *. congruence.
  - intros h0 x0 w0 Hx0 Hh0.
    rewrite (get_block_tiled canvas' H W T d), (get_block_tiled canvas H W T d)
      by (assumption || lia).
    fold c. rewrite Hrows.
    rewrite (write_rows_read_left _ _ _ _ (W * c)); try (subst c; nia).
    + reflexivity.
    + eapply tiled_rows_Forall, Hc.
Qed.

Lemma fill_then_split H W T d arrays :
  forall canvas x,
    tiled canvas H W T d ->
    Forall (fun a => exists h wd, tiled a h wd T d /\ (h <= H)%nat) arrays ->
    (x + sum_list (map width_of arrays) <= W)%nat ->
    exists canvas',
      fill_canvas canvas arrays x = Return canvas'
      /\ tiled canvas' H W T d
      /\ split_canvas canvas' (map shape arrays) x = Return arrays
      /\ forall h0 x0 w0, (x0 + w0 <= x)%nat -> (h0 <= H)%nat ->
           get_block canvas' h0 x0 w0 = get_block canvas h0 x0 w0.
Proof.
  induction arrays as [|a rest IH]; intros canvas x Hc Hall Hfit.
  - exists canvas. split; [reflexivity|]. split; [assumption|]. split; reflexivity.
  - apply Forall_cons in Hall as [(h & wd & Ha & Hh) Hrest].
    assert (Hwd : width_of a = wd) by (unfold width_of; now rewrite (proj1 Ha)).
    cbn [map sum_list sum_list_with] in Hfit. rewrite Hwd in Hfit.
    change (id wd) with wd in Hfit.
    destruct (set_block_tiled canvas a H W T d h wd x Hc Ha Hh) as (c1 & Hset & _ & _);
      [lia|].
    destruct (get_block_written canvas c1 a H W T d h wd x Hc Ha Hh) as (Hc1 & Hget & Hleft);
      [lia | assumption |].
    destruct (IH c1 (x + wd)%nat Hc1 Hrest) as (canvas' & Hfill & Hc' & Hsplit & Hkeep);
      [lia|].
    exists canvas'. split; [|split; [assumption|split]].
    + cbn [fill_canvas]. rewrite Hset. cbn [mbind outcome_bind].
      rewrite (proj1 Ha). cbn [getitem lookup list_lookup mbind outcome_bind].
      exact Hfill.
    + cbn [map split_canvas]. rewrite (proj1 Ha).
      cbn [getitem lookup list_lookup mbind outcome_bind].
      rewrite Hkeep, Hget by lia. cbn [mbind outcome_bind].
      rewrite Hsplit. reflexivity.
    + intros h0 x0 w0 Hx0 Hh0. rewrite Hkeep by lia. apply Hleft; lia.
Qed.

Lemma well_formed_tiled a T d :
  well_formed a -> arr_dtype a = d -> (2 <= ndim a)%nat -> drop 2 (shape a) = T ->
  tiled a (height_of a) (width_of a) T d.
Proof.
  unfold well_formed, ndim, height_of, width_of, tiled, nbytes_of.
  destruct a as [d' s data]; cbn [shape arr_dtype tobytes].
  intros Hwf -> Hdim HT.
  destruct s as [|h [|wd s]]; cbn in Hdim; try lia. change (s = T) in HT. subst s.
  repeat split. rewrite Hwf. cbn [nth].
  change (prod (h :: wd :: T)) with (h * (wd * prod T))%nat. nia.
Qed.

Lemma np_zeros_tiled H W T d : tiled (np_zeros (H :: W :: T) (Some d)) H W T d.
Proof.
  unfold tiled, np_zeros, nbytes_of. cbn [shape arr_dtype tobytes default from_option].
  repeat split. rewrite length_replicate.
  change (prod (H :: W :: T)) with (H * (W * prod T))%nat. unfold id. nia.
Qed.

Lemma mapM_getitem (arrays : list ndarray) (i : nat) :
  Forall (fun a => (i < ndim a)%nat) arrays ->
  mapM (fun s => getitem s i) (map shape arrays)
  = Return (map (fun a => nth i (shape a) 0%nat) arrays).
Proof.
  induction 1 as [|a rest Ha _ IH]; [reflexivity|].
  cbn [map mapM]. rewrite IH. unfold getitem. cbn beta.
  unfold ndim in Ha. apply lookup_lt_is_Some_2 in Ha as [v Hv].
  rewrite Hv. cbn [mbind outcome_bind]. do 2 f_equal.
  symmetry. apply nth_lookup_Some with (d := 0%nat) in Hv. exact Hv.
Qed.

Lemma bounding_shape_of (arrays : list ndarray) (T : Shape) :
  arrays <> [] ->
  Forall (fun a => (2 <= ndim a)%nat /\ drop 2 (shape a) = T) arrays ->
  _get_bounding_shape (map shape arrays)
  = Return (max_list (map height_of arrays) :: sum_list (map width_of arrays) :: T).
Proof.
  intros Hne Hall. destruct arrays as [|a0 rest]; [congruence|].
  unfold _get_bounding_shape. cbn [map].
  change (shape a0 :: map shape rest) with (map shape (a0 :: rest)).
  assert (H0 : drop 2 (shape a0) = T) by (apply Forall_cons in Hall as [[_ ?] _]; auto).
  rewrite H0.
  replace (forallb (fun s => shape_eqb (drop 2 s) T) (map shape (a0 :: rest))) with true.
  2:{ symmetry. apply forallb_forall. intros s Hs. apply in_map_iff in Hs as (a & <- & Ha).
      apply shape_eqb_eq. rewrite Forall_forall in Hall.
      apply list_elem_of_In in Ha. now apply Hall. }
  cbn [negb].
  rewrite !mapM_getitem by (eapply Forall_impl; [exact Hall|]; cbn; intros ? [? _]; lia).
  reflexivity.
Qed.

Lemma split_buffer_concat (arrays : list ndarray) (d : dtype) (rest : list byte) :
  Forall well_formed arrays -> Forall (fun a => arr_dtype a = d) arrays ->
  split_buffer (concat (map tobytes arrays) ++ rest) (map shape arrays) d
  = Return arrays.
Proof.
  intros Hwf Hd. revert Hd.
  induction Hwf as [|a arrays Ha _ IH]; intros Hd; [reflexivity|].
  apply Forall_cons in Hd as [Hda Hd].
  cbn [map concat split_buffer]. rewrite <- app_assoc.
  unfold well_formed, nbytes_of in Ha. rewrite Hda in Ha.
  rewrite take_app_length', drop_app_length' by congruence.
  unfold np_frombuffer_reshape, nbytes_of. rewrite Ha.
  replace ((prod (shape a) * itemsize d) mod itemsize d =? 0)%nat with true
    by (symmetry; apply Nat.eqb_eq, Nat.Div0.mod_mul).
  rewrite Nat.eqb_refl. cbn [negb mbind outcome_bind].
  rewrite (IH Hd). cbn [mbind outcome_bind].
  destruct a; cbn in *. congruence.
Qed.

Lemma result_bind_Return {A B} (m : M A) (a : A) (f : A -> M B) :
  result m = Return a -> result (m ≫= f) = result (f a).
Proof.
  destruct m as [l r]; cbn. intros ->. unfold mbind, M_bind.
  now destruct (f a).
Qed.

Lemma result_try_except_Return {A} (m : M A) (a : A) handles h :
  result m = Return a -> result (try_except m handles h) = Return a.
Proof. destruct m as [l r]; cbn. now intros ->. Qed.

(** C2, as stated, fails for samples that are all empty: they pack to the
    empty blob, and the empty blob unpacks to no array at all, under a byte
    compression and under an image format alike.  It also fails for
    single-channel samples stored with an explicit channel axis: the canvas
    is squeezed before it is encoded, and the arrays come back without it. *)
Lemma empty_samples_not_unpacked :
  let a := np_zeros [0; 3]%nat (Some UInt8) in
  let b := mk_ndarray UInt8 [2; 1; 1]%nat [x01; x02] in
  let c := mk_ndarray UInt8 [2; 2; 1]%nat [x03; x04; x05; x06] in
  compress_multiple Fixture.world [a] (Some "lz4"%string) = ([], Return [])
  /\ decompress_multiple Fixture.world [] [shape a] (Some UInt8) (Some "lz4"%string)
     = ([], Return [])
  /\ compress_multiple Fixture.world [a] (Some "png"%string) = ([], Return [])
  /\ decompress_multiple Fixture.world [] [shape a] (Some UInt8) (Some "png"%string)
     = ([], Return [])
  /\ result (blob ← compress_multiple Fixture.world [b; c] (Some "png"%string);
             decompress_multiple Fixture.world blob [shape b; shape c] (Some UInt8)
               (Some "png"%string))
     = Return [mk_ndarray UInt8 [2; 1]%nat [x01; x02];
               mk_ndarray UInt8 [2; 2]%nat [x03; x04; x05; x06]].
Proof. repeat split; vm_compute; reflexivity. Qed.

(** C2, amended.  For a non-empty sequence of arrays of one dtype:
    under the byte compression, when the arrays hold at least one byte in
    all and the codec returns a blob it decodes back to what it was given
    (a blob that is neither empty, nor the 5-byte marker, nor begins with
    the legacy magic number), unpacking the packed blob with the shapes in
    pack order returns the arrays; under a non-animated image format, when
    the arrays have two axes or more and share the dimensions beyond them,
    the canvas exists, and when it has no zero-sized dimension, is not
    squeezed on the way to the image library, and the library reads back
    from the non-empty blob the canvas it was given, unpacking returns the
    arrays. *)
Theorem tiler_round_trip (w : World) (arrays : list ndarray) (c : string) (d : dtype) :
  arrays <> [] ->
  Forall well_formed arrays ->
  Forall (fun a => arr_dtype a = d) arrays ->
  (get_compression_type w (Some c) = Return (Some BYTE_COMPRESSION) ->
   c = "lz4"%string ->
   forall blob,
     concat (map tobytes arrays) <> [] ->
     numcodecs_lz4_compress w (concat (map tobytes arrays)) = Return blob ->
     blob <> [] -> blob <> empty_marker -> has_magic (Buffer blob) = false ->
     numcodecs_lz4_decompress w (Buffer blob) = Return (concat (map tobytes arrays)) ->
     result (compress_multiple w arrays (Some c)) = Return blob
     /\ result (decompress_multiple w blob (map shape arrays) (Some d) (Some c))
        = Return arrays)
  /\ (get_compression_type w (Some c) = Return (Some IMAGE_COMPRESSION) ->
      get_compression_type w None = Return None ->
      String.eqb c "apng" = false ->
      in_compressions w (Some c) = true ->
      forall T,
        Forall (fun a => (2 <= ndim a)%nat /\ drop 2 (shape a) = T) arrays ->
        exists canvas,
          canvas_of arrays d = Return canvas
          /\ (zero_in (shape canvas) = false ->
              T <> [1%nat] \/ nth 0 (shape canvas) 0%nat = 1%nat ->
              forall img blob img',
                Image_fromarray w canvas = Return img ->
                Image_save w img c = Return blob ->
                blob <> [] ->
                Image_open w (Buffer blob) = Return img' ->
                im_frame0 img' = canvas ->
                result (compress_multiple w arrays (Some c)) = Return blob
                /\ result (decompress_multiple w blob (map shape arrays) (Some d)
                             (Some c))
                   = Return arrays)).
Proof.
  intros Hne Hwf Hd.
  assert (Hfind : forall a0 rest, arrays = a0 :: rest ->
            List.find (fun arr => negb (dtype_eqb (arr_dtype arr) (arr_dtype a0))) arrays
            = None).
  { intros a0 rest ->. apply find_dtype_agree. intros a Ha.
    rewrite Forall_forall in Hd. rewrite !Hd; [reflexivity | now left |].
    now apply list_elem_of_In. }
  split.
  - intros Hclass -> blob Hpayload Hcompress Hblob Hmarker Hmagic Hdecompress.
    split.
    + destruct arrays as [|a0 rest] eqn:E; [congruence|]. rewrite <- E in *.
      unfold compress_multiple. rewrite E at 1. rewrite (Hfind _ _ E).
      rewrite Hclass, bind_pure_Return. cbn [is_type compression_type_eqb].
      unfold compress_bytes.
      destruct (concat (map tobytes arrays)) as [|x payload] eqn:Ep; [congruence|].
      cbn [is_id]. change (String.eqb "lz4" "lz4") with true. cbv iota.
      rewrite Hcompress. reflexivity.
    + unfold decompress_multiple. destruct blob as [|x blob]; [congruence|].
      change (truthy (Some "lz4"%string)) with true. cbv iota.
      rewrite Hclass, !bind_pure_Return, bind_mret.
      cbn [is_type compression_type_eqb].
      unfold decompress_bytes. cbn [is_falsy is_id].
      change (String.eqb "lz4" "lz4") with true. cbv iota.
      apply bytes_eqb_neq in Hmarker. cbn [source_eqb]. rewrite Hmarker, Hmagic.
      rewrite Hdecompress, bind_call_Return. cbn [result snd pure default from_option].
      rewrite <- (app_nil_r (concat (map tobytes arrays))).
      now apply split_buffer_concat.
  - intros Hclass Hnone Hapng Hin T Hlayout.
    set (H := max_list (map height_of arrays)).
    set (W := sum_list (map width_of arrays)).
    assert (Hbound : _get_bounding_shape (map shape arrays) = Return (H :: W :: T))
      by now apply bounding_shape_of.
    destruct (fill_then_split H W T d arrays (np_zeros (H :: W :: T) (Some d)) 0)
      as (canvas & Hfill & Hcanvas & Hsplit & _).
    { apply np_zeros_tiled. }
    { rewrite Forall_forall in *. intros a Ha.
      exists (height_of a), (width_of a). split.
      - destruct (Hlayout a Ha). apply well_formed_tiled; auto.
      - apply max_list_elem_of_le, list_elem_of_fmap. eauto. }
    { subst W. lia. }
    exists canvas. split.
    { unfold canvas_of. rewrite Hbound. exact Hfill. }
    intros Hzero Hkeep img blob img' Hfrom Hsave Hblob Hopen Hsame.
    assert (Hto : to_image w canvas
                  = call (Image_fromarray_call canvas) (Image_fromarray w canvas)).
    { unfold to_image. destruct Hcanvas as (Hs & _). rewrite Hs in *.
      destruct T as [|[|[|?]] [|? ?]]; try reflexivity.
      destruct Hkeep as [Hk | Hk]; [congruence|]. cbn in Hk. subst H.
      rewrite Hk. reflexivity. }
    split.
    + destruct arrays as [|a0 rest] eqn:E; [congruence|]. rewrite <- E in *.
      unfold compress_multiple. rewrite E at 1. rewrite (Hfind _ _ E).
      rewrite Hclass, bind_pure_Return. cbn [is_type compression_type_eqb is_id].
      rewrite Hapng, Hbound, bind_pure_Return.
      assert (Hd0 : arr_dtype a0 = d).
      { rewrite Forall_forall in Hd. apply Hd. rewrite E. now left. }
      rewrite Hd0, Hfill, bind_pure_Return.
      unfold compress_array. rewrite Hzero, Hin. cbn [negb].
      rewrite Hclass, bind_pure_Return. cbn [is_type compression_type_eqb].
      rewrite Hapng. apply result_try_except_Return.
      unfold save_image. rewrite Hto, Hfrom, bind_call_Return, Hsave. reflexivity.
    + unfold decompress_multiple. destruct blob as [|x blob]; [congruence|].
      assert (Hbyte : (if truthy (Some c)
                       then compr_type ← pure (get_compression_type w (Some c));
                            mret (is_type compr_type BYTE_COMPRESSION)
                       else mret false) = (mret false : M bool)).
      { destruct (truthy (Some c)); [|reflexivity].
        rewrite Hclass, bind_pure_Return. reflexivity. }
      rewrite Hbyte, bind_mret.
      unfold decompress_array. rewrite Hnone, bind_pure_Return.
      cbn [is_type is_id]. rewrite Hopen.
      rewrite bind_call_Return. cbn [try_except calls result fst snd mret M_ret].
      rewrite Hsame. cbn [mbind M_bind pure result snd]. exact Hsplit.
Qed.

Lemma tiler_round_trip_witness :
  let a := mk_ndarray UInt8 [4; 5; 3]%nat (map Fixture.byte_of_nat (seq 0 60)) in
  let b := mk_ndarray UInt8 [6; 3; 3]%nat (map Fixture.byte_of_nat (seq 60 54)) in
  let c := mk_ndarray UInt8 [2; 7; 3]%nat (map Fixture.byte_of_nat (seq 114 42)) in
  result (blob ← compress_multiple Fixture.world [a; b; c] (Some "lz4"%string);
          decompress_multiple Fixture.world blob [shape a; shape b; shape c]
            (Some UInt8) (Some "lz4"%string))
  = Return [a; b; c]
  /\ result (blob ← compress_multiple Fixture.world [a; b; c] (Some "png"%string);
             decompress_multiple Fixture.world blob [shape a; shape b; shape c]
               (Some UInt8) (Some "png"%string))
     = Return [a; b; c].
Proof.
  intros a b c.
  assert (Hwf : Forall well_formed [a; b; c]) by (repeat constructor).
  assert (Hd : Forall (fun x => arr_dtype x = UInt8) [a; b; c]) by (repeat constructor).
  assert (Hne : [a; b; c] <> []) by discriminate.
  split.
  - destruct (proj1 (tiler_round_trip Fixture.world [a; b; c] "lz4" UInt8 Hne Hwf Hd)
                eq_refl eq_refl
                (Fixture.le32 156 ++ concat (map tobytes [a; b; c])))
      as [Hpack Hunpack].
    1-6: solve [reflexivity | vm_compute; discriminate].
    rewrite (result_bind_Return _ _ _ Hpack). exact Hunpack.
  - destruct (proj2 (tiler_round_trip Fixture.world [a; b; c] "png" UInt8 Hne Hwf Hd)
                eq_refl eq_refl eq_refl eq_refl [3%nat])
      as (canvas & Hcanvas & Hround).
    { repeat constructor. }
    vm_compute in Hcanvas. injection Hcanvas as <-.
    edestruct Hround as [Hpack Hunpack].
    1-7: solve [reflexivity | left; discriminate | discriminate].
    rewrite (result_bind_Return _ _ _ Hpack). exact Hunpack.
Defined.

(** ** Video: frame window *)

Lemma calls_bind {A B} (m : M A) (f : A -> M B) :
  calls (m ≫= f)
  = calls m ++ match result m with
               | Return a => calls (f a)
               | Raise _ => []
               end.
Proof.
  destruct m as [l [a|e]]; cbn.
  - unfold mbind, M_bind. now destruct (f a).
  - now rewrite app_nil_r.
Qed.

Lemma bind_ext {A B} (m : M A) (f g : A -> M B) :
  (forall a, f a = g a) -> m ≫= f = m ≫= g.
Proof. intros H. destruct m as [l [a|e]]; cbn; [now rewrite H | reflexivity]. Qed.

Lemma fmap_bind {A B C} (h : B -> C) (m : M A) (f : A -> M B) :
  h <$> (m ≫= f) = m ≫= (fun a => h <$> f a).
Proof.
  destruct m as [l [a|e]]; cbn; [|reflexivity].
  unfold mbind, M_bind, fmap, M_fmap. now destruct (f a) as [l' [b|e]].
Qed.

Section Loop.
Context (container : Container) (nframes : nat) (step_time : Z)
        (step_seeking seekable : bool).

Local Abbreviation loop := (demux_loop container nframes step_time step_seeking seekable).

Lemma demux_loop_nil free pending packet_pts seek_target video :
  loop free pending packet_pts [] seek_target video
  = if (free =? 0)%nat then mret video
    else match pending with
         | [] => mret video
         | packet :: rest =>
             fs ← call (av_decode_call (pts packet)) (decode packet);
             loop free rest (pts packet) fs seek_target video
         end.
Proof. destruct free, pending; reflexivity. Qed.

Lemma demux_loop_cons free pending packet_pts frame frames seek_target video :
  loop free pending packet_pts (frame :: frames) seek_target video
  = if pts_reached packet_pts seek_target then
      arr ← call av_to_ndarray_call (to_ndarray_rgb24 frame);
      match free with
      | O => raise (IndexError "index out of bounds")
      | S free' =>
          video' ← pure (setitem0 video (nframes - free) arr);
          let seek_target' := seek_target + step_time in
          if step_seeking && seekable then
            pending' ← call (av_seek_call seek_target') (seek container seek_target');
            loop free' pending' packet_pts frames seek_target' video'
          else loop free' pending packet_pts frames seek_target' video'
      end
    else loop free pending packet_pts frames seek_target video.
Proof. destruct free, pending; reflexivity. Qed.


(** No packet is decoded once the array is full, whatever the source does. *)
Lemma demux_loop_stops free :
  forall pending packet_pts frames seek_target video,
    decoded_after free
      (calls (loop free pending packet_pts frames seek_target video)) = false.
Proof.
  induction free as [|free' IHfree].
  - intros pending packet_pts frames. revert pending packet_pts.
    induction frames as [|frame frames IHframes]; intros pending packet_pts seek_target video.
    + rewrite demux_loop_nil. reflexivity.
    + rewrite demux_loop_cons. destruct (pts_reached packet_pts seek_target).
      * rewrite calls_bind. cbn [call calls result fst snd app].
        destruct (to_ndarray_rgb24 frame); reflexivity.
      * apply IHframes.
  - induction pending as [|packet rest IHpending].
    + intros packet_pts frames. revert packet_pts.
      induction frames as [|frame frames IHframes]; intros packet_pts seek_target video.
      * rewrite demux_loop_nil. reflexivity.
      * rewrite demux_loop_cons. destruct (pts_reached packet_pts seek_target);
          [|apply IHframes].
        rewrite calls_bind. cbn [call calls result fst snd app decoded_after pred].
        destruct (to_ndarray_rgb24 frame) as [arr|]; [|reflexivity].
        rewrite calls_bind. cbn [pure calls result fst snd app].
        destruct (setitem0 video (nframes - S free') arr) as [video'|]; [|reflexivity].
        destruct (step_seeking && seekable); [|apply IHfree].
        rewrite calls_bind. cbn [call calls result fst snd app decoded_after].
        destruct (seek container (seek_target + step_time)); [apply IHfree | reflexivity].
    + intros packet_pts frames. revert packet_pts.
      induction frames as [|frame frames IHframes]; intros packet_pts seek_target video.
      * rewrite demux_loop_nil. cbn [Nat.eqb].
        rewrite calls_bind. cbn [call calls result fst snd app decoded_after].
        destruct (decode packet); [apply IHpending | reflexivity].
      * rewrite demux_loop_cons. destruct (pts_reached packet_pts seek_target);
          [|apply IHframes].
        rewrite calls_bind. cbn [call calls result fst snd app decoded_after pred].
        destruct (to_ndarray_rgb24 frame) as [arr|]; [|reflexivity].
        rewrite calls_bind. cbn [pure calls result fst snd app].
        destruct (setitem0 video (nframes - S free') arr) as [video'|]; [|reflexivity].
        destruct (step_seeking && seekable); [|apply IHfree].
        rewrite calls_bind. cbn [call calls result fst snd app decoded_after].
        destruct (seek container (seek_target + step_time)); [apply IHfree | reflexivity].
Qed.


Lemma setitem0_frame video i h wd px :
  shape video = [nframes; h; wd; 3%nat] -> arr_dtype video = UInt8 ->
  (i < nframes)%nat ->
  exists video', setitem0 video i (mk_ndarray UInt8 [h; wd; 3%nat] px) = Return video'
                 /\ shape video' = [nframes; h; wd; 3%nat] /\ arr_dtype video' = UInt8.
Proof.
  intros Hs Hd Hi. unfold setitem0. rewrite Hs, Hd.
  replace (i <? nframes)%nat with true by (symmetry; now apply Nat.ltb_lt).
  cbn [negb shape arr_dtype dtype_eqb].
  replace (shape_eqb [h; wd; 3%nat] [h; wd; 3%nat]) with true
    by (symmetry; now apply shape_eqb_eq).
  cbn [negb]. eexists. split; [reflexivity|]. split; reflexivity.
Qed.

(** The frames of a packet without a time stamp are passed over. *)
Lemma demux_loop_skip free pending packet_pts frames seek_target video :
  packet_pts = None \/ packet_pts = Some 0 ->
  loop free pending packet_pts frames seek_target video
  = loop free pending packet_pts [] seek_target video.
Proof.
  intros Hpts. induction frames as [|frame frames IH]; [reflexivity|].
  rewrite demux_loop_cons.
  replace (pts_reached packet_pts seek_target) with false
    by (destruct Hpts as [-> | ->]; reflexivity).
  exact IH.
Qed.

(** With packets of one frame at most, or without a time stamp, each frame
    converting to an array of the stream's size, and seeks that succeed,
    the loop runs to its end. *)
Lemma demux_loop_returns h wd :
  (step_seeking && seekable = true ->
   forall t, exists ps, seek container t = Return ps /\ Forall (good_packet h wd) ps) ->
  forall free pending packet_pts frames seek_target video,
    Forall (good_packet h wd) pending ->
    Forall (good_frame h wd) frames ->
    (length frames <= 1)%nat ->
    (free = 0%nat -> frames = []) ->
    (free <= nframes)%nat ->
    shape video = [nframes; h; wd; 3%nat] -> arr_dtype video = UInt8 ->
    exists log video',
      loop free pending packet_pts frames seek_target video = (log, Return video')
      /\ shape video' = [nframes; h; wd; 3%nat] /\ arr_dtype video' = UInt8.
Proof.
  intros Hseek.
  induction free as [|free' IHfree].
  - intros pending packet_pts frames seek_target video _ _ _ Hempty _ Hs Hd.
    rewrite (Hempty eq_refl), demux_loop_nil. cbn [Nat.eqb]. eauto.
  - assert (Hretain : forall pending packet_pts frame seek_target video,
              Forall (good_packet h wd) pending -> good_frame h wd frame ->
              (S free' <= nframes)%nat ->
              shape video = [nframes; h; wd; 3%nat] -> arr_dtype video = UInt8 ->
              pts_reached packet_pts seek_target = true ->
              exists log video',
                loop (S free') pending packet_pts [frame] seek_target video
                = (log, Return video')
                /\ shape video' = [nframes; h; wd; 3%nat] /\ arr_dtype video' = UInt8).
    { intros pending packet_pts frame seek_target video Hp [px Hf] Hle Hs Hd Hreached.
      rewrite demux_loop_cons, Hreached.
      unfold to_ndarray_rgb24. rewrite Hf. cbn [mbind outcome_bind].
      rewrite bind_call_Return.
      destruct (setitem0_frame video (nframes - S free') h wd px Hs Hd)
        as (video' & Hset & Hs' & Hd'); [lia|].
      rewrite Hset, bind_pure_Return. cbv zeta.
      destruct (step_seeking && seekable) eqn:Hss.
      - destruct (Hseek eq_refl (seek_target + step_time)) as (ps & Hps & Hgood).
        rewrite Hps, bind_call_Return.
        destruct (IHfree ps packet_pts [] (seek_target + step_time) video')
          as (log & v & Hrun & Hv); auto; try (cbn; lia).
        rewrite Hrun. cbn [calls result fst snd]. eauto.
      - destruct (IHfree pending packet_pts [] (seek_target + step_time) video')
          as (log & v & Hrun & Hv); auto; try (cbn; lia).
        rewrite Hrun. cbn [calls result fst snd]. eauto. }
    induction pending as [|packet rest IHpending];
      intros packet_pts frames seek_target video Hp Hf Hlen _ Hle Hs Hd.
    + destruct frames as [|frame [|? ?]]; [| |cbn in Hlen; lia].
      * rewrite demux_loop_nil. cbn [Nat.eqb]. eauto.
      * destruct (pts_reached packet_pts seek_target) eqn:Hreached.
        -- apply Hretain; auto. now apply Forall_inv in Hf.
        -- rewrite demux_loop_cons, Hreached, demux_loop_nil. cbn [Nat.eqb]. eauto.
    + assert (Hnext : forall packet_pts seek_target video,
                shape video = [nframes; h; wd; 3%nat] -> arr_dtype video = UInt8 ->
                exists log video',
                  loop (S free') (packet :: rest) packet_pts [] seek_target video
                  = (log, Return video')
                  /\ shape video' = [nframes; h; wd; 3%nat] /\ arr_dtype video' = UInt8).
      { intros ppts t v Hvs Hvd. rewrite demux_loop_nil. cbn [Nat.eqb].
        apply Forall_cons in Hp as [(fs & Hdec & Hfs & Hgood) Hrest].
        rewrite Hdec, bind_call_Return.
        destruct Hfs as [Hfs | Hfs].
        - destruct (IHpending (pts packet) fs t v) as (log & v' & Hrun & Hv');
            auto; try discriminate.
          rewrite Hrun. cbn [calls result fst snd]. eauto.
        - rewrite (demux_loop_skip _ _ _ _ _ _ Hfs).
          destruct (IHpending (pts packet) [] t v) as (log & v' & Hrun & Hv');
            auto; try discriminate.
          rewrite Hrun. cbn [calls result fst snd]. eauto. }
      destruct frames as [|frame [|? ?]]; [| |cbn in Hlen; lia].
      * now apply Hnext.
      * destruct (pts_reached packet_pts seek_target) eqn:Hreached.
        -- apply Hretain; auto. now apply Forall_inv in Hf.
        -- rewrite demux_loop_cons, Hreached. now apply Hnext.
Qed.

End Loop.

Lemma ceil_div_pos a b : 0 < b -> ceil_div a b = Return ((a + b - 1) / b).
Proof.
  intros Hb. unfold ceil_div, truediv. destruct b as [|p|p]; try lia.
  cbn [mbind outcome_bind]. f_equal.
  unfold Qceiling, Qfloor, Qopp. cbn [Qnum Qden].
  set (b := Z.pos p) in *.
  pose proof (Z.div_mod (a + b - 1) b ltac:(lia)) as Hdm.
  pose proof (Z.mod_pos_bound (a + b - 1) b Hb) as Hm.
  assert (H : - ((a + b - 1) / b) = (- a) / b)
    by (apply (Z.div_unique _ _ _ (b - 1 - (a + b - 1) mod b)); lia).
  rewrite <- H. apply Z.opp_involutive.
Qed.

Lemma truediv_nonzero a b :
  a <> 0 -> b <> 0 -> exists q, truediv a b = Return q /\ Qeq_bool q (Qmake 0 1) = false.
Proof.
  intros Ha Hb. unfold truediv. destruct b as [|p|p]; [congruence| |];
    eexists; (split; [reflexivity|]); unfold Qeq_bool; cbn [Qnum Qden];
    destruct a; try congruence; reflexivity.
Qed.

Lemma truediv_defined a b : b <> 0 -> exists q, truediv a b = Return q.
Proof. intros Hb. unfold truediv. destruct b; [congruence| |]; eauto. Qed.

Lemma frame_to_stamp_defined c v nframe :
  stream_ok c v -> exists stamp, _frame_to_stamp nframe v = Return stamp.
Proof.
  intros (Hrn & Hrd & Htn & Htd & _). unfold _frame_to_stamp.
  destruct (truediv_nonzero _ _ Hrn Hrd) as (fps & -> & Hfps).
  cbn [mbind outcome_bind]. unfold fdiv. rewrite Hfps. cbn [mbind outcome_bind].
  destruct (truediv_defined (denominator (time_base v)) _ Htn) as (ratio & ->).
  cbn [mbind outcome_bind]. eauto.
Qed.

Lemma read_metadata_defined c v :
  stream_ok c v ->
  exists nframes duration fps time_base,
    _read_metadata_from_vstream c v
    = Return (nframes, cc_height v, cc_width v, duration, fps, time_base).
Proof.
  intros (Hrn & Hrd & Htn & Htd & Hlen). unfold _read_metadata_from_vstream.
  destruct (truediv_defined (numerator (guessed_rate v)) _ Hrd) as (fps & Hfps).
  destruct (vs_duration v) as [dur|] eqn:Hdur.
  - destruct (truediv_defined (numerator (time_base v)) _ Htd) as (tb & ->).
    cbn [mbind outcome_bind]. rewrite Hfps. cbn [mbind outcome_bind].
    destruct (vs_frames v =? 0); cbn [mbind outcome_bind]; eauto 6.
  - cbn [truediv av_time_base mbind outcome_bind]. rewrite Hfps.
    cbn [mbind outcome_bind].
    destruct (vs_frames v =? 0) eqn:Hz; cbn [mbind outcome_bind]; eauto 6.
    apply Z.eqb_eq in Hz. specialize (Hlen Hz eq_refl).
    destruct (container_duration c); [|congruence].
    cbn [mbind outcome_bind]. eauto 6.
Qed.

Lemma bind_Return_eq {A B} l l' (a : A) (f : A -> M B) r :
  f a = (l', r) -> (l, Return a) ≫= f = (l ++ l', r).
Proof. intros H. unfold mbind, M_bind. now rewrite H. Qed.

Lemma decoded_after_decode n p L :
  (1 <= n)%nat -> decoded_after n (av_decode_call p :: L) = decoded_after n L.
Proof. destruct n; [lia | reflexivity]. Qed.

Lemma open_video_ok (w : World) file c v vs :
  _PYAV_INSTALLED w = true -> av_open w file = Return c -> streams_video c = v :: vs ->
  _open_video w file = ([av_open_call file], Return (c, v)).
Proof.
  intros Hav Hopen Hstreams. unfold _open_video. rewrite Hav, Hopen. cbn [negb].
  rewrite bind_call_Return, Hstreams. reflexivity.
Qed.

(** Reversing is applied to the finished array: a call with the reverse
    flag makes the same library calls and ends as the call without it, its
    array flipped along the frame axis. *)
Lemma reverse_flips_frame_axis (w : World) file start stop step :
  _decompress_video w file start stop step true
  = flip0 <$> _decompress_video w file start stop step false.
Proof.
  unfold _decompress_video.
  repeat first
    [ rewrite fmap_bind; apply bind_ext; intros ?
    | match goal with
      | p : (_ * _)%type |- _ => destruct p
      end ]; cbv zeta.
  repeat first
    [ rewrite fmap_bind; apply bind_ext; intros ?
    | match goal with
      | p : (_ * _)%type |- _ => destruct p
      end ].
  reflexivity.
Qed.

(** C6: the code at an empty window that starts on a key frame.  The
    claim asks for an array of [ceil ((12 - 12) / 1) = 0] frames.  The code
    allocates it, seeks, decodes the packet it finds at the target and
    stores its frame at [video[0]] all the same: [i == nframes] is tested
    only after the frames of a packet were stored, so the store runs past
    the end of the array and raises [IndexError].  One frame further on,
    where the packet the seek lands on lies before the target, the same
    test is reached before any store and the array of no frame is returned,
    as the claim says.  (At frames 12 and 13 the time stamps are the same in
    binary64 as in exact arithmetic: 6144 and 6656.) *)
Theorem empty_window_on_key_frame :
  ceil_div (12 - 12) 1 = Return 0
  /\ _decompress_video Fixture.world (Buffer []) (Some 12) (Some 12) (Some 1) false
     = ([av_open_call (Buffer []); av_seek_call 6144; av_decode_call (Some 6144);
         av_to_ndarray_call],
        Raise (IndexError "index out of bounds"))
  /\ _decompress_video Fixture.world (Buffer []) (Some 13) (Some 13) (Some 1) false
     = ([av_open_call (Buffer []); av_seek_call 6656; av_decode_call (Some 6144)],
        Return (np_zeros [0; 1; 1; 3]%nat (Some UInt8))).
Proof. repeat split; vm_compute; reflexivity. Qed.

(** X22: when a window is decoded to the end.  For a source that PyAV
    opens, whose first video stream has non-zero rates and a known length,
    whose packets decode without error to frames of the stream's size, one
    frame a packet at most unless the packet carries no time stamp, and
    which either seeks without error or refuses every seek, and for every
    window, each of start, stop and step given or left to its default, the
    step of either sign, that calls for one frame or more:
    [_decompress_video] returns a uint8 array of exactly
    [ceil ((stop - start) / step)] frames of the stream's size, decodes no
    packet once that many frames are stored, and with the reverse flag
    returns, after the same calls, the same array flipped along the frame
    axis.  The last part holds for every source and window: the call with
    the reverse flag ends as the call without it, its array flipped. *)
Theorem decode_range_frames (w : World) (file : Source) :
  (forall start stop step,
     _decompress_video w file start stop step true
     = flip0 <$> _decompress_video w file start stop step false)
  /\ forall (c : Container) (v : VideoStream) (vs : list VideoStream)
            (start stop step : option Z) (total : Z) (duration : option Z)
            (fps time_base : float) (n : Z),
      _PYAV_INSTALLED w = true ->
      av_open w file = Return c ->
      streams_video c = v :: vs ->
      stream_ok c v ->
      _read_metadata_from_vstream c v
      = Return (total, cc_height v, cc_width v, duration, fps, time_base) ->
      ceil_div (default total stop - default 0 start) (default 1 step) = Return n ->
      0 < n ->
      Forall (good_packet (cc_height v) (cc_width v)) (demux c) ->
      ((forall t, exists ps, seek c t = Return ps
                             /\ Forall (good_packet (cc_height v) (cc_width v)) ps)
       \/ (forall t, seek c t = Raise AVPermissionError)) ->
      exists log video,
        _decompress_video w file start stop step false = (log, Return video)
        /\ shape video = [Z.to_nat n; cc_height v; cc_width v; 3%nat]
        /\ arr_dtype video = UInt8
        /\ decoded_after (Z.to_nat n) log = false
        /\ _decompress_video w file start stop step true
           = (log, Return (flip0 video)).
Proof.
  split; [intros; apply reverse_flips_frame_axis|].
  intros c v vs start stop step total duration fps time_base n
         Hav Hopen Hstreams Hok Hmeta Hceil Hcount Hpackets Hseek.
  set (h := cc_height v) in *. set (wd := cc_width v) in *.
  pose proof (open_video_ok w file c v vs Hav Hopen Hstreams) as Hopen_video.
  destruct (frame_to_stamp_defined c v (default 0 start) Hok) as (seek_target & Htarget).
  destruct (frame_to_stamp_defined c v (default 1 step) Hok) as (step_time & Hstep_time).
  set (m := Z.to_nat n).
  assert (Hm1 : (1 <= m)%nat) by lia.
  set (step_seeking := gop_size v <? default 1 step).
  set (video0 := np_zeros [m; h; wd; 3%nat] (Some UInt8)).
  (* the first seek, or the fallback *)
  assert (Hfirst : exists l1 seekable pending,
            try_except
              (pending ← call (av_seek_call seek_target) (seek c seek_target);
               mret (true, c, pending))
              is_AVPermissionError
              (fun _ =>
                 '(container', _) ← _open_video w file;
                 _ ← call (warning_call cannot_seek) (Return tt);
                 mret (false, container', demux container'))
            = (l1, Return (seekable, c, pending))
            /\ Forall (good_packet h wd) pending
            /\ (step_seeking && seekable = true ->
                forall t, exists ps, seek c t = Return ps /\ Forall (good_packet h wd) ps)
            /\ forall k L, decoded_after k (l1 ++ L) = decoded_after k L).
  { destruct Hseek as [Hseek | Hdenied].
    - destruct (Hseek seek_target) as (ps & Hps & Hgood).
      exists [av_seek_call seek_target], true, ps. rewrite Hps.
      repeat split; auto.
    - exists [av_seek_call seek_target; av_open_call file; warning_call cannot_seek],
             false, (demux c).
      rewrite Hdenied, Hopen_video. repeat split; auto.
      rewrite andb_false_r. discriminate. }
  destruct Hfirst as (l1 & seekable & pending & Htry & Hpending & Hseeks & Hneutral).
  (* the loop *)
  assert (Hloop : exists l2 video,
            demux_all c m step_time step_seeking seekable pending seek_target video0
            = (l2, Return video)
            /\ shape video = [m; h; wd; 3%nat] /\ arr_dtype video = UInt8
            /\ decoded_after m l2 = false).
  { unfold demux_all. destruct pending as [|packet rest].
    - exists [], video0. repeat split.
    - apply Forall_cons in Hpending as [(fs & Hdec & Hlen & Hfs) Hrest].
      assert (Hone : exists fs',
                demux_loop c m step_time step_seeking seekable m rest (pts packet)
                  fs seek_target video0
                = demux_loop c m step_time step_seeking seekable m rest (pts packet)
                    fs' seek_target video0
                /\ (length fs' <= 1)%nat /\ Forall (good_frame h wd) fs').
      { destruct Hlen as [Hlen | Hpts].
        - exists fs. auto.
        - exists []. split; [now apply demux_loop_skip|].
          split; [cbn; lia | constructor]. }
      destruct Hone as (fs' & Hsame & Hlen' & Hfs').
      destruct (demux_loop_returns c m step_time step_seeking seekable h wd Hseeks
                  m rest (pts packet) fs' seek_target video0)
        as (l2 & video & Hrun & Hshape & Hdtype); auto; try lia; try reflexivity.
      exists (av_decode_call (pts packet) :: l2), video.
      rewrite Hdec, bind_call_Return, Hsame, Hrun. repeat split; auto.
      rewrite decoded_after_decode by assumption.
      pose proof (demux_loop_stops c m step_time step_seeking seekable m
                    rest (pts packet) fs' seek_target video0) as Hstops.
      rewrite Hrun in Hstops. exact Hstops. }
  destruct Hloop as (l2 & video & Hdemux & Hshape & Hdtype & Hstops).
  assert (Hrun : forall reverse,
            _decompress_video w file start stop step reverse
            = ([av_open_call file] ++ l1 ++ l2,
               Return (if reverse then flip0 video else video))).
  { intros reverse. unfold _decompress_video. rewrite Hopen_video.
    apply bind_Return_eq. fold h wd. rewrite Hmeta, bind_pure_Return.
    cbv zeta. rewrite Hceil, bind_pure_Return.
    replace (n <? 0) with false by (symmetry; apply Z.ltb_ge; lia).
    rewrite bind_pure_Return, Htarget, bind_pure_Return, Hstep_time, bind_pure_Return.
    fold step_seeking. fold m. fold video0.
    rewrite Hopen_video in Htry. rewrite Htry. apply bind_Return_eq. rewrite Hdemux.
    rewrite <- (app_nil_r l2) at 2. apply bind_Return_eq.
    destruct reverse; reflexivity. }
  exists ([av_open_call file] ++ l1 ++ l2), video.
  split; [apply (Hrun false)|]. split; [assumption|]. split; [assumption|].
  split; [|apply (Hrun true)].
  cbn [app decoded_after]. rewrite Hneutral. exact Hstops.
Qed.

Lemma fixture_packets_good (ks : list nat) :
  Forall (good_packet 1 1) (map Fixture.packet ks).
Proof.
  apply Forall_forall. intros p Hp. apply list_elem_of_fmap in Hp as (k & -> & _).
  exists [Fixture.frame k]. split; [reflexivity|]. split; [left; cbn; lia|].
  constructor; [|constructor]. eexists. reflexivity.
Qed.

Lemma fixture_stream_ok c : stream_ok c Fixture.stream.
Proof. repeat split; discriminate. Qed.

Lemma decode_range_frames_witness :
  (exists video,
     result (_decompress_video Fixture.world (Buffer []) (Some 10) (Some 20) (Some 2)
               false) = Return video
     /\ shape video = [5; 1; 1; 3]%nat
     /\ result (_decompress_video Fixture.world (Buffer []) (Some 10) (Some 20)
                  (Some 2) true) = Return (flip0 video))
  /\ (exists video,
        result (_decompress_video Fixture.world (Path "clip.mp4") (Some 10) (Some 20)
                  (Some 2) false) = Return video
        /\ shape video = [5; 1; 1; 3]%nat)
  /\ (exists video,
        result (_decompress_video Fixture.world (Buffer []) (Some 20) (Some 10)
                  (Some (-2)) false) = Return video
        /\ shape video = [5; 1; 1; 3]%nat)
  /\ (exists video,
        result (_decompress_video Fixture.world (Buffer []) None None None false)
        = Return video
        /\ shape video = [30; 1; 1; 3]%nat).
Proof.
  assert (Hseeks : forall t, exists ps,
            seek Fixture.clip t = Return ps /\ Forall (good_packet 1 1) ps).
  { intros t. eexists. split; [reflexivity|].
    apply Forall_drop, fixture_packets_good. }
  split; [|split; [|split]].
  - destruct (proj2 (decode_range_frames Fixture.world (Buffer [])) Fixture.clip
                Fixture.stream [] (Some 10) (Some 20) (Some 2) 30 _ _ _ 5
                eq_refl eq_refl eq_refl (fixture_stream_ok _) eq_refl eq_refl eq_refl
                (fixture_packets_good _) (or_introl Hseeks))
      as (log & video & Hrun & Hshape & _ & _ & Hreverse).
    exists video. rewrite Hrun, Hreverse. repeat split. exact Hshape.
  - destruct (proj2 (decode_range_frames Fixture.world (Path "clip.mp4"))
                Fixture.unseekable_clip Fixture.stream [] (Some 10) (Some 20) (Some 2)
                30 _ _ _ 5
                eq_refl eq_refl eq_refl (fixture_stream_ok _) eq_refl eq_refl eq_refl
                (fixture_packets_good _) (or_intror (fun t => eq_refl)))
      as (log & video & Hrun & Hshape & _).
    exists video. rewrite Hrun. split; [reflexivity | exact Hshape].
  - destruct (proj2 (decode_range_frames Fixture.world (Buffer [])) Fixture.clip
                Fixture.stream [] (Some 20) (Some 10) (Some (-2)) 30 _ _ _ 5
                eq_refl eq_refl eq_refl (fixture_stream_ok _) eq_refl eq_refl eq_refl
                (fixture_packets_good _) (or_introl Hseeks))
      as (log & video & Hrun & Hshape & _).
    exists video. rewrite Hrun. split; [reflexivity | exact Hshape].
  - destruct (proj2 (decode_range_frames Fixture.world (Buffer [])) Fixture.clip
                Fixture.stream [] None None None 30 _ _ _ 30
                eq_refl eq_refl eq_refl (fixture_stream_ok _) eq_refl eq_refl eq_refl
                (fixture_packets_good _) (or_introl Hseeks))
      as (log & video & Hrun & Hshape & _).
    exists video. rewrite Hrun. split; [reflexivity | exact Hshape].
Defined.

(** * Further properties *)

(** ** Byte codec: round trip *)

(** X1: [decompress_bytes] undoes [compress_bytes] under lz4, for every
    buffer: the empty buffer goes both ways without a codec call, and a
    non-empty one comes back whenever numcodecs decodes its own output and
    that output is not empty, is not the five-byte marker and does not begin
    with the python-lz4 magic number. *)
Theorem byte_codec_round_trip (w : World) (b : bytes) :
  (b <> [] ->
   exists blob,
     numcodecs_lz4_compress w b = Return blob
     /\ blob <> [] /\ blob <> empty_marker /\ has_magic (Buffer blob) = false
     /\ numcodecs_lz4_decompress w (Buffer blob) = Return b) ->
  result (blob ← compress_bytes w b (Some "lz4"%string);
          decompress_bytes w (Buffer blob) (Some "lz4"%string))
  = Return b.
Proof.
  intros Hcodec. destruct b as [|x b]; [reflexivity|].
  destruct Hcodec as (blob & Hc & Hne & Hmarker & Hmagic & Hd); [discriminate|].
  unfold compress_bytes. cbn [is_id]. change (String.eqb "lz4" "lz4") with true.
  cbv iota. rewrite Hc, bind_call_Return. cbn [result snd].
  unfold decompress_bytes. destruct blob as [|y blob]; [congruence|].
  cbn [is_falsy is_id]. change (String.eqb "lz4" "lz4") with true. cbv iota.
  apply bytes_eqb_neq in Hmarker. cbn [source_eqb]. rewrite Hmarker, Hmagic, Hd.
  reflexivity.
Qed.

Lemma byte_codec_round_trip_witness :
  result (blob ← compress_bytes Fixture.world [x01; x02; x03] (Some "lz4"%string);
          decompress_bytes Fixture.world (Buffer blob) (Some "lz4"%string))
  = Return [x01; x02; x03].
Proof.
  apply (byte_codec_round_trip Fixture.world [x01; x02; x03]).
  intros _. exists (Fixture.le32 3 ++ [x01; x02; x03]).
  repeat split; solve [reflexivity | vm_compute; discriminate].
Defined.

(** ** Arrays: round trips *)

Lemma well_formed_empty a :
  well_formed a -> zero_in (shape a) = true -> tobytes a = [].
Proof.
  unfold well_formed, nbytes_of. intros Hwf Hz. apply zero_in_prod in Hz.
  rewrite Hz in Hwf. now apply nil_length_inv.
Qed.

Lemma frombuffer_well_formed a :
  well_formed a ->
  np_frombuffer_reshape (tobytes a) (arr_dtype a) (shape a) = Return a.
Proof.
  unfold well_formed, np_frombuffer_reshape, nbytes_of. intros ->.
  replace ((prod (shape a) * itemsize (arr_dtype a)) mod itemsize (arr_dtype a) =? 0)%nat
    with true by (symmetry; apply Nat.eqb_eq, Nat.Div0.mod_mul).
  rewrite Nat.eqb_refl. now destruct a.
Qed.

(** X2: [decompress_array], given the shape and the dtype, undoes
    [compress_array] under a byte compression for every well-formed array,
    the arrays with a zero-sized dimension included, when the codec is
    lossless on the array's bytes as in X1. *)
Theorem array_byte_round_trip (w : World) (a : ndarray) :
  well_formed a ->
  in_compressions w (Some "lz4"%string) = true ->
  get_compression_type w (Some "lz4"%string) = Return (Some BYTE_COMPRESSION) ->
  (tobytes a <> [] ->
   exists blob,
     numcodecs_lz4_compress w (tobytes a) = Return blob
     /\ blob <> [] /\ blob <> empty_marker /\ has_magic (Buffer blob) = false
     /\ numcodecs_lz4_decompress w (Buffer blob) = Return (tobytes a)) ->
  result (blob ← compress_array w a (Some "lz4"%string);
          decompress_array w (Buffer blob) (Some (shape a)) (Some (arr_dtype a))
            (Some "lz4"%string) None None None false)
  = Return a.
Proof.
  intros Hwf Hin Hclass Hcodec.
  assert (Hdec : forall blob,
            result (decompress_bytes w (Buffer blob) (Some "lz4"%string))
            = Return (tobytes a) ->
            result (decompress_array w (Buffer blob) (Some (shape a))
                      (Some (arr_dtype a)) (Some "lz4"%string) None None None false)
            = Return a).
  { intros blob Hb. unfold decompress_array.
    rewrite Hclass, bind_pure_Return. cbn [is_type compression_type_eqb].
    apply result_try_except_Return.
    rewrite (result_bind_Return _ _ _ Hb). cbn [pure result snd].
    now apply frombuffer_well_formed. }
  unfold compress_array. destruct (zero_in (shape a)) eqn:Hz.
  - rewrite bind_mret. apply Hdec. now rewrite (well_formed_empty a Hwf Hz).
  - rewrite Hin. cbn [negb]. rewrite Hclass, bind_pure_Return.
    cbn [is_type compression_type_eqb].
    destruct (tobytes a) as [|x data] eqn:Edata.
    + cbn [compress_bytes]. rewrite bind_mret. now apply Hdec.
    + destruct Hcodec as (blob & Hc & Hne & Hmarker & Hmagic & Hd); [discriminate|].
      unfold compress_bytes. cbn [is_id]. change (String.eqb "lz4" "lz4") with true.
      cbv iota. rewrite Hc, bind_call_Return. cbn [result snd].
      apply Hdec.
      unfold decompress_bytes. destruct blob as [|y blob]; [congruence|].
      cbn [is_falsy is_id]. change (String.eqb "lz4" "lz4") with true. cbv iota.
      apply bytes_eqb_neq in Hmarker. cbn [source_eqb]. rewrite Hmarker, Hmagic, Hd.
      reflexivity.
Qed.

Lemma array_byte_round_trip_witness :
  let a := mk_ndarray Int16 [2; 3]%nat (map Fixture.byte_of_nat (seq 1 12)) in
  result (blob ← compress_array Fixture.world a (Some "lz4"%string);
          decompress_array Fixture.world (Buffer blob) (Some (shape a))
            (Some (arr_dtype a)) (Some "lz4"%string) None None None false)
  = Return a.
Proof.
  intros a. apply (array_byte_round_trip Fixture.world a); try reflexivity.
  intros _. exists (Fixture.le32 12 ++ tobytes a).
  repeat split; solve [reflexivity | vm_compute; discriminate].
Defined.

Lemma to_image_handed (w : World) (a : ndarray) :
  to_image w a
  = call (Image_fromarray_call (handed_to_pillow a))
         (Image_fromarray w (handed_to_pillow a)).
Proof.
  unfold to_image, handed_to_pillow, squeeze_axis2.
  destruct a as [d s data]. cbn [shape arr_dtype tobytes].
  destruct s as [|h [|wd [|[|[|c]] [|? ?]]]]; try reflexivity.
  destruct (negb (h =? 1)%nat); [|reflexivity].
  now rewrite bind_pure_Return.
Qed.

Lemma handed_to_pillow_prod a :
  prod (shape (handed_to_pillow a)) = prod (shape a).
Proof.
  unfold handed_to_pillow. destruct a as [d s data]. cbn [shape arr_dtype tobytes].
  destruct s as [|h [|wd [|[|[|c]] [|? ?]]]]; try reflexivity.
  destruct (negb (h =? 1)%nat); [|reflexivity].
  cbn [shape prod foldr]. lia.
Qed.

Lemma handed_to_pillow_data a :
  arr_dtype (handed_to_pillow a) = arr_dtype a
  /\ tobytes (handed_to_pillow a) = tobytes a.
Proof.
  unfold handed_to_pillow. destruct a as [d s data]. cbn [shape arr_dtype tobytes].
  destruct s as [|h [|wd [|[|[|c]] [|? ?]]]]; try (split; reflexivity).
  destruct (negb (h =? 1)%nat); split; reflexivity.
Qed.

(** X3: under a non-animated image format whose library reads back the
    array it was given, [compress_array] returns the library's blob, and
    [decompress_array] returns the original array when it is given the
    original shape, also when [to_image] squeezed a trailing axis of 1 away;
    without the shape it returns the array as the library saw it. *)
Theorem array_image_round_trip (w : World) (a : ndarray) (c : string)
    (t : option compression_type) (d : option dtype) (img img' : Image) (blob : bytes) :
  zero_in (shape a) = false ->
  in_compressions w (Some c) = true ->
  get_compression_type w (Some c) = Return t ->
  is_type t BYTE_COMPRESSION = false ->
  is_type t AUDIO_COMPRESSION = false ->
  is_type t VIDEO_COMPRESSION = false ->
  String.eqb c "apng" = false ->
  Image_fromarray w (handed_to_pillow a) = Return img ->
  Image_save w img c = Return blob ->
  Image_open w (Buffer blob) = Return img' ->
  im_frame0 img' = handed_to_pillow a ->
  result (compress_array w a (Some c)) = Return blob
  /\ result (decompress_array w (Buffer blob) (Some (shape a)) d (Some c)
               None None None false) = Return a
  /\ result (decompress_array w (Buffer blob) None d (Some c) None None None false)
     = Return (handed_to_pillow a).
Proof.
  intros Hz Hin Hclass Hb Ha Hv Hapng Hfrom Hsave Hopen Hsame.
  repeat split.
  - unfold compress_array. rewrite Hz, Hin. cbn [negb].
    rewrite Hclass, bind_pure_Return, Hb, Ha, Hv, Hapng.
    apply result_try_except_Return.
    unfold save_image. rewrite to_image_handed, Hfrom, bind_call_Return, Hsave.
    reflexivity.
  - unfold decompress_array. rewrite Hclass, bind_pure_Return, Hb, Ha, Hv.
    cbn [is_id]. rewrite Hapng, Hz.
    apply result_try_except_Return.
    rewrite Hopen, bind_call_Return. cbn [result snd pure]. rewrite Hsame.
    unfold reshape. rewrite handed_to_pillow_prod, Nat.eqb_refl.
    destruct (handed_to_pillow_data a) as [-> ->]. now destruct a.
  - unfold decompress_array. rewrite Hclass, bind_pure_Return, Hb, Ha, Hv.
    cbn [is_id]. rewrite Hapng.
    apply result_try_except_Return.
    rewrite Hopen, bind_call_Return. cbn [result snd mret M_ret]. now rewrite Hsame.
Qed.

Lemma array_image_round_trip_witness :
  let a := mk_ndarray UInt8 [2; 3; 1]%nat (map Fixture.byte_of_nat (seq 1 6)) in
  let blob := [x89; x01; x02; x02; x03] ++ tobytes a in
  result (compress_array Fixture.world a (Some "png"%string)) = Return blob
  /\ result (decompress_array Fixture.world (Buffer blob) (Some (shape a)) None
               (Some "png"%string) None None None false) = Return a
  /\ result (decompress_array Fixture.world (Buffer blob) None None
               (Some "png"%string) None None None false)
     = Return (mk_ndarray UInt8 [2; 3]%nat (tobytes a)).
Proof.
  intros a blob.
  apply (array_image_round_trip Fixture.world a "png" (Some IMAGE_COMPRESSION) None
           (mk_Image (handed_to_pillow a) [] "")
           (mk_Image (handed_to_pillow a) [] "PNG") blob); reflexivity.
Defined.

(** ** Arrays: how decoding fails *)

Lemma result_try_except_any {A} (m : M A) (e0 : Exception) :
  (exists a, result (try_except m any_exception (fun _ => raise e0)) = Return a)
  \/ result (try_except m any_exception (fun _ => raise e0)) = Raise e0.
Proof. destruct m as [l [a|e]]; cbn; eauto. Qed.

(** X4: on the byte path (dtype and shape given) and on the generic image
    path, [decompress_array] returns an array or raises
    [SampleDecompressionError]: no other exception leaves these branches. *)
Theorem decode_failures_normalised (w : World) (buffer : Source) (s : option Shape)
    (d : option dtype) (c : option string) (start stop step : option Z)
    (rev : bool) (t : option compression_type) :
  get_compression_type w c = Return t ->
  is_type t AUDIO_COMPRESSION = false ->
  is_type t VIDEO_COMPRESSION = false ->
  is_id c "apng" = false ->
  (is_type t BYTE_COMPRESSION = true -> s <> None /\ d <> None) ->
  (exists a, result (decompress_array w buffer s d c start stop step rev) = Return a)
  \/ result (decompress_array w buffer s d c start stop step rev)
     = Raise SampleDecompressionError.
Proof.
  intros Hclass Ha Hv Hapng Hbyte. unfold decompress_array.
  rewrite Hclass, bind_pure_Return.
  destruct (is_type t BYTE_COMPRESSION).
  - destruct Hbyte as [Hs Hd]; [reflexivity|].
    destruct d as [d|]; [|congruence]. destruct s as [s|]; [|congruence].
    apply result_try_except_any.
  - rewrite Ha, Hv, Hapng. apply result_try_except_any.
Qed.

Lemma decode_failures_normalised_witness :
  (exists a, result (decompress_array Fixture.world (Buffer [x00; x01])
                       (Some [2; 2]%nat) None (Some "png"%string)
                       None None None false) = Return a)
  \/ result (decompress_array Fixture.world (Buffer [x00; x01])
               (Some [2; 2]%nat) None (Some "png"%string) None None None false)
     = Raise SampleDecompressionError.
Proof.
  apply (decode_failures_normalised Fixture.world (Buffer [x00; x01])
           (Some [2; 2]%nat) None (Some "png"%string) None None None false
           (Some IMAGE_COMPRESSION)); try reflexivity.
  discriminate.
Defined.

(** ** Tiling: the bounding box *)

Lemma max_list_attained (l : list nat) : l <> [] -> max_list l ∈ l.
Proof.
  induction l as [|x l IH]; [congruence|]. intros _.
  change (max_list (x :: l)) with (Nat.max x (max_list l)).
  destruct (Nat.max_spec x (max_list l)) as [[Hlt ->] | [_ ->]]; [|left].
  right. apply IH. intros ->. cbn in Hlt. lia.
Qed.

(** X5: for shapes of two axes or more that share their trailing
    dimensions, [_get_bounding_shape] returns a box with those trailing
    dimensions whose height is the height of the tallest shape, hence at
    least every height, and whose width is the sum of the widths. *)
Theorem bounding_box_fits_tiles (shapes : list Shape) (T : Shape) :
  shapes <> [] ->
  Forall (fun s => (2 <= length s)%nat /\ drop 2 s = T) shapes ->
  exists H W,
    _get_bounding_shape shapes = Return (H :: W :: T)
    /\ Forall (fun s => (nth 0 s 0 <= H)%nat) shapes
    /\ (exists s, s ∈ shapes /\ nth 0 s 0%nat = H)
    /\ W = sum_list (map (fun s => nth 1 s 0%nat) shapes).
Proof.
  intros Hne Hall.
  set (arrays := map (fun s => mk_ndarray UInt8 s []) shapes).
  assert (Hshapes : map shape arrays = shapes).
  { subst arrays. rewrite map_map. cbn [shape]. apply map_id. }
  assert (Hh : map height_of arrays = map (fun s => nth 0 s 0%nat) shapes)
    by (subst arrays; now rewrite map_map).
  assert (Hw : map width_of arrays = map (fun s => nth 1 s 0%nat) shapes)
    by (subst arrays; now rewrite map_map).
  exists (max_list (map (fun s => nth 0 s 0%nat) shapes)),
         (sum_list (map (fun s => nth 1 s 0%nat) shapes)).
  repeat split.
  - rewrite <- Hh, <- Hw, <- Hshapes. apply bounding_shape_of.
    + subst arrays. now destruct shapes.
    + subst arrays. apply Forall_map. eapply Forall_impl; [exact Hall|].
      now cbn.
  - apply Forall_forall. intros s Hs.
    apply max_list_elem_of_le, list_elem_of_fmap. eauto.
  - assert (Hin : max_list (map (fun s => nth 0 s 0%nat) shapes)
                    ∈ map (fun s => nth 0 s 0%nat) shapes).
    { apply max_list_attained. now destruct shapes. }
    apply list_elem_of_fmap in Hin as (s & Hs & Hin). eauto.
Qed.

Lemma bounding_box_fits_tiles_witness :
  exists H W,
    _get_bounding_shape [[4; 5; 3]; [6; 3; 3]; [2; 7; 3]]%nat = Return [H; W; 3%nat]
    /\ Forall (fun s => (nth 0 s 0 <= H)%nat) [[4; 5; 3]; [6; 3; 3]; [2; 7; 3]]%nat
    /\ (exists s, s ∈ [[4; 5; 3]; [6; 3; 3]; [2; 7; 3]]%nat /\ nth 0 s 0%nat = H)
    /\ W = sum_list (map (fun s => nth 1 s 0%nat) [[4; 5; 3]; [6; 3; 3]; [2; 7; 3]]%nat).
Proof.
  apply (bounding_box_fits_tiles [[4; 5; 3]; [6; 3; 3]; [2; 7; 3]]%nat [3%nat]).
  - discriminate.
  - repeat constructor.
Defined.

Lemma mapM_getitem_error (shapes : list Shape) (i : nat) (e : Exception) :
  mapM (fun s => getitem s i) shapes = Raise e ->
  e = IndexError "tuple index out of range".
Proof.
  induction shapes as [|s shapes IH]; cbn [mapM]; [discriminate|].
  destruct (getitem s i) as [n|e'] eqn:Eg; cbn [mbind outcome_bind].
  - destruct (mapM (fun s => getitem s i) shapes); cbn [mbind outcome_bind];
      [discriminate|]. intros [= <-]. now apply IH.
  - intros [= <-]. unfold getitem in Eg. destruct (s !! i); congruence.
Qed.

Lemma mapM_getitem_short (shapes : list Shape) (i : nat) :
  Exists (fun s => (length s <= i)%nat) shapes ->
  mapM (fun s => getitem s i) shapes = Raise (IndexError "tuple index out of range").
Proof.
  induction 1 as [s shapes Hs | s shapes _ IH]; cbn [mapM].
  - replace (getitem s i) with (@Raise nat (IndexError "tuple index out of range"));
      [reflexivity|].
    unfold getitem. now rewrite lookup_ge_None_2.
  - rewrite IH. destruct (getitem s i) as [n|e] eqn:Eg; cbn [mbind outcome_bind];
      [reflexivity|].
    unfold getitem in Eg. destruct (s !! i); congruence.
Qed.

Lemma bounding_shape_short (shapes : list Shape) :
  Exists (fun s => (length s < 2)%nat) shapes ->
  _get_bounding_shape shapes = Raise (IndexError "tuple index out of range")
  \/ _get_bounding_shape shapes = Raise channels_mismatch.
Proof.
  intros Hshort. unfold _get_bounding_shape.
  destruct shapes as [|s0 rest]; [inversion Hshort|].
  destruct (forallb _ (s0 :: rest)); cbn [negb]; [left | now right].
  destruct (mapM (fun s => getitem s 0) (s0 :: rest)) as [hs|e] eqn:Eh.
  - cbn [mbind outcome_bind]. rewrite mapM_getitem_short; [reflexivity|].
    eapply Exists_impl; [exact Hshort|]. cbn. lia.
  - apply mapM_getitem_error in Eh as ->. reflexivity.
Qed.

(** X6: a sample of fewer than two axes cannot be tiled: under an
    identifier that is no byte, audio or video compression and is not apng,
    [compress_multiple] on samples of one dtype, one of them of fewer than
    two axes, raises [IndexError] or the channel-mismatch [ValueError],
    without calling any library, and never [SampleCompressionError]. *)
Theorem tiling_needs_two_axes (w : World) (arrays : list ndarray)
    (c : option string) (t : option compression_type) (d : dtype) :
  Forall (fun a => arr_dtype a = d) arrays ->
  Exists (fun a => (ndim a < 2)%nat) arrays ->
  get_compression_type w c = Return t ->
  is_type t BYTE_COMPRESSION = false ->
  is_type t AUDIO_COMPRESSION = false ->
  is_type t VIDEO_COMPRESSION = false ->
  is_id c "apng" = false ->
  compress_multiple w arrays c = ([], Raise (IndexError "tuple index out of range"))
  \/ compress_multiple w arrays c = ([], Raise channels_mismatch).
Proof.
  intros Hd Hshort Hclass Hb Ha Hv Hapng.
  destruct arrays as [|a0 rest] eqn:E; [inversion Hshort|]. rewrite <- E in *.
  assert (Hd0 : arr_dtype a0 = d)
    by (rewrite Forall_forall in Hd; apply Hd; rewrite E; left).
  assert (Hraise : forall e, _get_bounding_shape (map shape arrays) = Raise e ->
                     compress_multiple w arrays c = ([], Raise e)).
  { intros e He. unfold compress_multiple. rewrite E at 1.
    rewrite Hd0, find_dtype_agree.
    2:{ intros a Hin. rewrite Forall_forall in Hd. apply Hd.
        now apply list_elem_of_In. }
    now rewrite Hclass, bind_pure_Return, Hb, Ha, Hv, Hapng, He. }
  destruct (bounding_shape_short (map shape arrays)) as [He | He];
    [| left | right]; try now apply Hraise.
  apply Exists_fmap. exact Hshort.
Qed.

Lemma tiling_needs_two_axes_witness :
  let a := mk_ndarray UInt8 [4]%nat (map Fixture.byte_of_nat (seq 1 4)) in
  let b := mk_ndarray UInt8 [2; 2]%nat (map Fixture.byte_of_nat (seq 5 4)) in
  compress_multiple Fixture.world [a; b] (Some "png"%string)
  = ([], Raise (IndexError "tuple index out of range"))
  \/ compress_multiple Fixture.world [a; b] (Some "png"%string)
     = ([], Raise channels_mismatch).
Proof.
  intros a b.
  apply (tiling_needs_two_axes Fixture.world [a; b] (Some "png"%string)
           (Some IMAGE_COMPRESSION) UInt8); try reflexivity.
  - repeat constructor.
  - left. cbn. lia.
Defined.

(** ** Tiling: unpacking a byte payload *)

Lemma split_buffer_enough (shapes : list Shape) (d : dtype) (b : bytes) :
  (payload_size shapes d <= length b)%nat ->
  exists arrs,
    split_buffer b shapes d = Return arrs
    /\ map shape arrs = shapes
    /\ Forall (fun a => arr_dtype a = d /\ well_formed a) arrs
    /\ concat (map tobytes arrs) = take (payload_size shapes d) b.
Proof.
  revert b; induction shapes as [|s shapes IH]; intros b Hlen.
  - exists []. split; [reflexivity|]. split; [reflexivity|].
    split; [constructor|]. symmetry. apply take_0.
  - unfold payload_size in *. cbn [map sum_list sum_list_with] in *.
    change (id (nbytes_of s d)) with (nbytes_of s d) in *.
    destruct (IH (drop (nbytes_of s d) b)) as (arrs & Hsplit & Hshapes & Hall & Hcat).
    { rewrite length_drop. lia. }
    exists (mk_ndarray d s (take (nbytes_of s d) b) :: arrs).
    assert (Htake : length (take (nbytes_of s d) b) = nbytes_of s d)
      by (rewrite length_take; lia).
    repeat split.
    + cbn [split_buffer]. fold (nbytes_of s d).
      unfold np_frombuffer_reshape. rewrite Htake, Nat.eqb_refl.
      replace (nbytes_of s d mod itemsize d =? 0)%nat with true
        by (symmetry; apply Nat.eqb_eq, Nat.Div0.mod_mul).
      cbn [negb mbind outcome_bind]. now rewrite Hsplit.
    + cbn [map shape]. now rewrite Hshapes.
    + constructor; [now split | exact Hall].
    + cbn [map concat tobytes]. rewrite Hcat. apply take_take_drop.
Qed.

Lemma split_buffer_short (shapes : list Shape) (d : dtype) (b : bytes) :
  (length b < payload_size shapes d)%nat ->
  exists m, split_buffer b shapes d = Raise (ValueError m).
Proof.
  revert b; induction shapes as [|s shapes IH]; intros b Hlen.
  - cbn in Hlen. lia.
  - unfold payload_size in *. cbn [map sum_list sum_list_with] in *.
    change (id (nbytes_of s d)) with (nbytes_of s d) in *.
    cbn [split_buffer]. fold (nbytes_of s d). unfold np_frombuffer_reshape.
    destruct (negb (length (take (nbytes_of s d) b) mod itemsize d =? 0)%nat);
      [eauto|].
    destruct (length (take (nbytes_of s d) b) =? nbytes_of s d)%nat eqn:Etake;
      cbn [negb]; [|eauto].
    apply Nat.eqb_eq in Etake. rewrite length_take in Etake.
    destruct (IH (drop (nbytes_of s d) b)) as (m & ->).
    { rewrite length_drop. lia. }
    cbn [mbind outcome_bind]. eauto.
Qed.

(** X7: under a byte compression [decompress_multiple] cuts the decoded
    payload front to back: when the payload holds the bytes the shapes call
    for, it returns one well-formed array of the given dtype per shape, in
    order, that together hold the leading bytes of the payload, and ignores
    whatever follows; when the payload is shorter it raises [ValueError]. *)
Theorem unpack_byte_payload (w : World) (buffer : bytes) (shapes : list Shape)
    (d : dtype) (c : option string) (payload : bytes) :
  truthy c = true ->
  get_compression_type w c = Return (Some BYTE_COMPRESSION) ->
  buffer <> [] ->
  result (decompress_bytes w (Buffer buffer) c) = Return payload ->
  ((payload_size shapes d <= length payload)%nat ->
   exists arrs,
     result (decompress_multiple w buffer shapes (Some d) c) = Return arrs
     /\ map shape arrs = shapes
     /\ Forall (fun a => arr_dtype a = d /\ well_formed a) arrs
     /\ concat (map tobytes arrs) = take (payload_size shapes d) payload)
  /\ ((length payload < payload_size shapes d)%nat ->
      exists m,
        result (decompress_multiple w buffer shapes (Some d) c)
        = Raise (ValueError m)).
Proof.
  intros Htruthy Hclass Hne Hpayload.
  assert (Hres : result (decompress_multiple w buffer shapes (Some d) c)
                 = split_buffer payload shapes d).
  { unfold decompress_multiple. destruct buffer as [|x buffer]; [congruence|].
    rewrite Htruthy, Hclass, bind_pure_Return, bind_mret.
    cbn [is_type compression_type_eqb].
    now rewrite (result_bind_Return _ _ _ Hpayload). }
  rewrite Hres. split; intros Hlen.
  - now apply split_buffer_enough.
  - now apply split_buffer_short.
Qed.

Lemma unpack_byte_payload_witness :
  let payload := map Fixture.byte_of_nat (seq 1 9) in
  let buffer := Fixture.le32 9 ++ payload in
  exists arrs,
    result (decompress_multiple Fixture.world buffer [[2]; [1; 2]]%nat (Some Int16)
              (Some "lz4"%string)) = Return arrs
    /\ map shape arrs = [[2]; [1; 2]]%nat
    /\ Forall (fun a => arr_dtype a = Int16 /\ well_formed a) arrs
    /\ concat (map tobytes arrs) = take 8 payload.
Proof.
  intros payload buffer.
  apply (proj1 (unpack_byte_payload Fixture.world buffer [[2]; [1; 2]]%nat Int16
                  (Some "lz4"%string) payload eq_refl eq_refl
                  ltac:(discriminate) eq_refl)).
  vm_compute. lia.
Defined.

(** ** Tiling: what unpacking a canvas looks at *)

(** X8: off the byte path, [decompress_multiple] looks at neither the
    identifier nor the dtype it is given: any two identifiers that are not
    byte compressions, with any two dtypes, unpack a buffer alike. *)
Theorem unpack_ignores_identifier (w : World) (buffer : bytes) (shapes : list Shape)
    (d1 d2 : option dtype) (c1 c2 : option string) :
  not_byte w c1 -> not_byte w c2 ->
  decompress_multiple w buffer shapes d1 c1
  = decompress_multiple w buffer shapes d2 c2.
Proof.
  assert (Hcanvas : forall d c, not_byte w c ->
            decompress_multiple w buffer shapes d c
            = match buffer with
              | [] => mret []
              | _ =>
                  canvas ← decompress_array w (Buffer buffer) None None None
                             None None None false;
                  pure (split_canvas canvas shapes 0)
              end).
  { intros d c Hc. unfold decompress_multiple.
    destruct buffer as [|x buffer]; [reflexivity|].
    destruct Hc as [-> | (t & Hclass & Ht)]; [now rewrite bind_mret|].
    destruct (truthy c); [|now rewrite bind_mret].
    now rewrite Hclass, bind_pure_Return, bind_mret, Ht. }
  intros H1 H2. now rewrite (Hcanvas d1 c1 H1), (Hcanvas d2 c2 H2).
Qed.

Lemma unpack_ignores_identifier_witness :
  let buffer := [x89; x01; x02; x02; x03] ++ map Fixture.byte_of_nat (seq 1 6) in
  decompress_multiple Fixture.world buffer [[2; 1]; [2; 2]]%nat (Some UInt8)
    (Some "png"%string)
  = decompress_multiple Fixture.world buffer [[2; 1]; [2; 2]]%nat (Some Float64)
      (Some "mp4"%string).
Proof.
  intros buffer.
  apply (unpack_ignores_identifier Fixture.world buffer [[2; 1]; [2; 2]]%nat
           (Some UInt8) (Some Float64) (Some "png"%string) (Some "mp4"%string)).
  - right. exists (Some IMAGE_COMPRESSION). split; reflexivity.
  - right. exists (Some VIDEO_COMPRESSION). split; reflexivity.
Defined.

(** ** JPEG: the scan for the start of frame *)

Lemma re_find_first_prefix pats b m :
  re_find_first pats b = Some m ->
  existsb (fun p => is_prefix p (drop m b)) pats = true.
Proof.
  revert m; induction b as [|y b IH]; intros m; cbn [re_find_first].
  - destruct (existsb _ pats) eqn:E; [|discriminate]. intros [= <-]. exact E.
  - destruct (existsb _ pats) eqn:E.
    + intros [= <-]. exact E.
    + destruct (re_find_first pats b) eqn:E'; cbn; [|discriminate].
      intros [= <-]. now apply IH.
Qed.

Lemma is_prefix_take p b : is_prefix p b = true -> take (length p) b = p.
Proof.
  revert b; induction p as [|x p IH]; intros [|y b]; cbn; try discriminate;
    try reflexivity.
  intros H. apply andb_prop in H as [Hx Hp].
  apply Byte.byte_dec_bl in Hx. subst y. f_equal. now apply IH.
Qed.

Lemma bytes_eqb_refl b : bytes_eqb b b = true.
Proof. now apply bytes_eqb_eq. Qed.

Lemma in_markers_In marker markers :
  in_markers marker markers = true <-> In marker markers.
Proof.
  unfold in_markers. rewrite existsb_exists. split.
  - intros (p & Hp & Heq). apply bytes_eqb_eq in Heq. now subst.
  - intros Hin. exists marker. split; [exact Hin | apply bytes_eqb_refl].
Qed.

Lemma found_marker buf offset m :
  re_find_first _JPEG_SOFS (drop offset buf) = Some m ->
  (m + offset + 2 <= length buf)%nat
  /\ in_markers (slice buf (m + offset) (m + offset + 2)) _JPEG_SOFS = true.
Proof.
  intros Hm. split.
  - apply re_find_first_bound in Hm. rewrite length_drop in Hm. lia.
  - apply re_find_first_prefix in Hm. apply existsb_exists in Hm as (p & Hp & Hpre).
    apply in_markers_In. apply is_prefix_take in Hpre.
    rewrite (_JPEG_SOFS_length p Hp), drop_drop in Hpre.
    unfold slice. replace (m + offset + 2 - (m + offset))%nat with 2%nat by lia.
    replace (m + offset)%nat with (offset + m)%nat by lia. now rewrite Hpre.
Qed.

Lemma frame_marker_found buf i :
  (i + 2 <= length buf)%nat ->
  in_markers (slice buf i (i + 2)) _JPEG_SOFS = true ->
  in_markers (slice buf i (i + 2)) _JPEG_SKIP_MARKERS = false ->
  frame_marker_at buf i.
Proof.
  intros Hlen Hin Hskip. split; [exact Hlen|].
  unfold in_markers in *. rewrite <- (take_drop 14 _JPEG_SOFS), existsb_app in Hin.
  fold _JPEG_SKIP_MARKERS in Hin. rewrite Hskip, orb_false_r in Hin. exact Hin.
Qed.

Lemma find_sof_frame_marker buf offset sof_idx :
  (forall j, sof_idx = Some j -> frame_marker_at buf j) ->
  forall i, find_sof buf offset sof_idx = Some i -> frame_marker_at buf i.
Proof.
  apply (find_sof_elim
           (fun buf offset sof_idx r =>
              (forall j, sof_idx = Some j -> frame_marker_at buf j) ->
              forall i, r = Some i -> frame_marker_at buf i)).
  - clear. intros buf offset m Hm sof_idx IH _ Hsof i. cbv zeta in *.
    destruct (bytes_eqb _ start_of_scan); [now apply Hsof|].
    apply IH. intros j.
    destruct (in_markers _ _JPEG_SKIP_MARKERS) eqn:Hskip; cbn [negb];
      [now apply Hsof|].
    intros [= <-]. destruct (found_marker _ _ _ Hm) as [Hlen Hin].
    now apply frame_marker_found.
  - clear. intros buf offset _ sof_idx _ Hsof i. now apply Hsof.
Qed.

(** A frame marker is none of the markers that may follow the frame
    header, nor does it end in 0xFF. *)
Lemma frame_marker_cases (marker : bytes) :
  in_markers marker (take 14 _JPEG_SOFS) = true ->
  exists c, marker = [xff; c]
            /\ Byte.eqb c xff = false
            /\ in_markers marker [ [xff; xc4]; [xff; xdb]; [xff; xdd]; [xff; xda] ]
               = false.
Proof.
  intros Hin. apply in_markers_In in Hin. vm_compute in Hin.
  repeat (destruct Hin as [<- | Hin]; [eexists; repeat split; reflexivity|]).
  destruct Hin.
Qed.

Lemma find_sof_Some buf offset sof_idx m :
  re_find_first _JPEG_SOFS (drop offset buf) = Some m ->
  find_sof buf offset sof_idx
  = let idx := (m + offset)%nat in
    let marker := slice buf idx (idx + 2) in
    if bytes_eqb marker start_of_scan then sof_idx
    else
      find_sof buf
        (idx + Z.to_nat (int_from_bytes_big (slice buf (idx + 2) (idx + 4))) + 2)
        (if negb (in_markers marker _JPEG_SKIP_MARKERS) then Some idx else sof_idx).
Proof.
  revert m.
  apply (find_sof_elim
           (fun buf offset sof_idx r =>
              forall m, re_find_first _JPEG_SOFS (drop offset buf) = Some m ->
              r = let idx := (m + offset)%nat in
                  let marker := slice buf idx (idx + 2) in
                  if bytes_eqb marker start_of_scan then sof_idx
                  else
                    find_sof buf
                      (idx + Z.to_nat (int_from_bytes_big
                                         (slice buf (idx + 2) (idx + 4))) + 2)
                      (if negb (in_markers marker _JPEG_SKIP_MARKERS)
                       then Some idx else sof_idx))).
  - clear. intros buf offset m Hm sof_idx _ _ m' Hm'.
    assert (m' = m) by congruence. now subst.
  - clear. intros buf offset Hnone sof_idx _ m Hm. congruence.
Qed.

Lemma find_sof_None buf offset sof_idx :
  re_find_first _JPEG_SOFS (drop offset buf) = None ->
  find_sof buf offset sof_idx = sof_idx.
Proof.
  apply (find_sof_elim
           (fun buf offset sof_idx r =>
              re_find_first _JPEG_SOFS (drop offset buf) = None -> r = sof_idx)).
  - clear. intros buf offset m Hm sof_idx _ _ Hnone. congruence.
  - clear. reflexivity.
Qed.

Lemma find_sof_file_scan mm f offset sof_idx :
  getvalue f = mm ->
  fst (find_sof_file mm f offset sof_idx) = find_sof mm offset sof_idx
  /\ getvalue (snd (find_sof_file mm f offset sof_idx)) = mm.
Proof.
  apply (find_sof_file_elim
           (fun mm f offset sof_idx r =>
              getvalue f = mm ->
              fst r = find_sof mm offset sof_idx /\ getvalue (snd r) = mm)).
  - clear. intros mm f offset m Hm sof_idx IH _ Hf. cbv zeta in *.
    rewrite (find_sof_Some _ _ _ _ Hm). cbv zeta.
    destruct (bytes_eqb _ start_of_scan); [now split|].
    destruct (IH Hf) as [IH1 IH2]. split; [|exact IH2]. rewrite IH1.
    cbn [f_read f_seek getvalue tell fst snd]. rewrite Hf.
    replace (m + offset + 2 + 2)%nat with (m + offset + 4)%nat by lia.
    reflexivity.
  - clear. intros mm f offset Hnone sof_idx _ Hf.
    rewrite (find_sof_None _ _ _ Hnone). now split.
Qed.

(** ** JPEG: what the readers report *)

Lemma int_from_bytes_big_bound (b : bytes) :
  0 <= int_from_bytes_big b < 256 ^ Z.of_nat (length b).
Proof.
  unfold int_from_bytes_big.
  assert (H : forall acc n, 0 <= acc < 256 ^ n -> 0 <= n ->
            0 <= fold_left (fun acc x => acc * 256 + Z.of_N (Byte.to_N x)) b acc
              < 256 ^ (n + Z.of_nat (length b))).
  { induction b as [|x b IH]; intros acc n Hacc Hn; cbn [fold_left length].
    - now rewrite Z.add_0_r.
    - replace (n + Z.of_nat (S (length b))) with ((n + 1) + Z.of_nat (length b)) by lia.
      apply IH; [|lia]. rewrite Z.pow_add_r, Z.pow_1_r by lia.
      pose proof (Byte.to_N_bounded x). lia. }
  apply (H 0 0); lia.
Qed.

(** X9: whenever the JPEG fast path returns a shape, there is an index
    [i] in the stream where one of the fourteen start-of-frame markers
    stands, the shape is read from the five bytes at [i + 5], each entry lies
    in [0, 65535], and the shape has two entries, or three of which the last
    (the component count) is not 1. *)
Theorem jpeg_shape_from_frame_header (buf : bytes) (shape : list Z) :
  _read_jpeg_shape_from_buffer buf = Return shape ->
  exists i h1 h0 w1 w0 c,
    frame_marker_at buf i
    /\ slice buf (i + 5) (i + 10) = [h1; h0; w1; w0; c]
    /\ shape = jpeg_shape (int_from_bytes_big [h1; h0], int_from_bytes_big [w1; w0],
                           int_from_bytes_big [c])
    /\ Forall (fun x => 0 <= x < 65536) shape
    /\ (length shape = 2%nat \/ length shape = 3%nat /\ nth 2 shape 0 <> 1).
Proof.
  unfold _read_jpeg_shape_from_buffer.
  destruct (find_sof buf 0 None) as [i|] eqn:Hsof; [|discriminate].
  apply find_sof_frame_marker in Hsof; [|discriminate].
  unfold unpack_HHB.
  destruct (slice buf (i + 5) (i + 10)) as [|h1 [|h0 [|w1 [|w0 [|c [|? ?]]]]]]
    eqn:Eslice; cbn [mbind outcome_bind]; try discriminate.
  intros [= <-]. exists i, h1, h0, w1, w0, c.
  split; [exact Hsof|]. split; [exact Eslice|]. split; [reflexivity|]. split.
  - pose proof (int_from_bytes_big_bound [h1; h0]) as Hh.
    pose proof (int_from_bytes_big_bound [w1; w0]) as Hw.
    pose proof (int_from_bytes_big_bound [c]) as Hc.
    cbn [length] in Hh, Hw, Hc. change (256 ^ Z.of_nat 2) with 65536 in *.
    change (256 ^ Z.of_nat 1) with 256 in *.
    unfold jpeg_shape. destruct (int_from_bytes_big [c] =? 1);
      repeat (constructor; [lia|]); constructor.
  - unfold jpeg_shape. destruct (int_from_bytes_big [c] =? 1) eqn:E; [now left|].
    right. split; [reflexivity|]. cbn [nth]. now apply Z.eqb_neq.
Qed.

Lemma jpeg_shape_from_frame_header_witness :
  exists i h1 h0 w1 w0 c,
    frame_marker_at truncated_jpeg i
    /\ slice truncated_jpeg (i + 5) (i + 10) = [h1; h0; w1; w0; c]
    /\ [2; 3; 3] = jpeg_shape (int_from_bytes_big [h1; h0], int_from_bytes_big [w1; w0],
                               int_from_bytes_big [c])
    /\ Forall (fun x => 0 <= x < 65536) [2; 3; 3]
    /\ (length [2; 3; 3] = 2%nat
        \/ length [2; 3; 3] = 3%nat /\ nth 2 [2; 3; 3] 0 <> 1).
Proof.
  apply (jpeg_shape_from_frame_header truncated_jpeg [2; 3; 3]).
  vm_compute. reflexivity.
Defined.

Lemma verify_jpeg_buffer_shape (buf : bytes) (shape : list Z) :
  _verify_jpeg_buffer buf = Return shape ->
  _read_jpeg_shape_from_buffer buf = Return shape
  /\ take 2 buf = [xff; xd8]
  /\ bytes_find end_of_image buf <> None.
Proof.
  unfold _verify_jpeg_buffer, _read_jpeg_shape_from_buffer.
  destruct (is_prefix [xff; xd8] buf) eqn:Hsoi; cbn [assert mbind outcome_bind];
    [|discriminate].
  destruct (find_sof buf 0 None) as [i|]; [|discriminate].
  destruct (in_markers _ _); cbn [assert mbind outcome_bind]; [|discriminate].
  destruct (unpack_HHB _) as [hwc|]; cbn [mbind outcome_bind]; [|discriminate].
  destruct (bool_decide _) eqn:Heoi; cbn [assert mbind outcome_bind]; [|discriminate].
  intros [= <-]. repeat split.
  - now apply is_prefix_take in Hsoi.
  - now apply bool_decide_eq_true in Heoi.
Qed.

(** ** JPEG: files and buffers *)

Lemma soi_check buf : bytes_eqb (slice buf 0 2) [xff; xd8] = is_prefix [xff; xd8] buf.
Proof.
  unfold slice. change (2 - 0)%nat with 2%nat. rewrite drop_0.
  now destruct buf as [|a [|b rest]].
Qed.

Lemma mmap_nonempty f : getvalue f <> [] -> mmap f = Return (getvalue f).
Proof. unfold mmap. destruct (getvalue f); congruence. Qed.

(** Slices past a position are slices of what follows it. *)
Lemma slice_from {A} (l : list A) (i k n : nat) :
  slice l (i + k) (i + k + n) = take n (drop k (drop i l)).
Proof.
  unfold slice. rewrite drop_drop. f_equal. lia.
Qed.

Lemma not_a_definition_1 (x : byte) :
  in_markers [x] [ [xff; xc4]; [xff; xdb]; [xff; xdd]; [xff; xda] ] = false.
Proof. cbn. now rewrite !andb_false_r. Qed.

Lemma not_a_definition_2 (c x : byte) :
  Byte.eqb c xff = false ->
  in_markers [c; x] [ [xff; xc4]; [xff; xdb]; [xff; xdd]; [xff; xda] ] = false.
Proof. intros H. cbn. now rewrite H. Qed.

(** X10: the file and the buffer readers of JPEG agree: on an open file
    that is not empty, [_read_jpeg_shape] gives what it gives on the
    contents of the file, wherever the read position stands; so does
    [_verify_jpeg] when the position is at the start, as
    [verify_compressed_file] leaves it. *)
Theorem jpeg_readers_agree (f : BinaryIO) :
  getvalue f <> [] ->
  _read_jpeg_shape (Handle f) = _read_jpeg_shape (Contents (getvalue f))
  /\ (tell f = 0%nat ->
      _verify_jpeg (Handle f) = _verify_jpeg (Contents (getvalue f))).
Proof.
  intros Hne. cbn [_read_jpeg_shape _verify_jpeg]. split.
  - unfold _read_jpeg_shape_from_file, _read_jpeg_shape_from_buffer.
    rewrite (mmap_nonempty f Hne). cbn [mbind outcome_bind].
    destruct (find_sof_file_scan (getvalue f) f 0 None eq_refl) as [Hscan Hsame].
    destruct (find_sof_file (getvalue f) f 0 None) as [sof f'].
    cbn [fst snd] in Hscan, Hsame. rewrite <- Hscan.
    destruct sof as [sof_idx|]; [|reflexivity].
    cbn [f_read f_seek getvalue tell]. rewrite Hsame.
    replace (sof_idx + 5 + 5)%nat with (sof_idx + 10)%nat by lia. reflexivity.
  - intros Hstart. unfold _verify_jpeg_file, _verify_jpeg_buffer.
    rewrite (mmap_nonempty f Hne). cbn [mbind outcome_bind].
    cbn [f_read]. rewrite Hstart. cbn [Nat.add]. rewrite soi_check.
    destruct (is_prefix [xff; xd8] (getvalue f)); cbn [assert mbind outcome_bind];
      [|reflexivity].
    set (f1 := mk_BinaryIO _ _).
    destruct (find_sof_file_scan (getvalue f) f1 0 None eq_refl) as [Hscan Hsame].
    destruct (find_sof_file (getvalue f) f1 0 None) as [sof f'].
    cbn [fst snd] in Hscan, Hsame. rewrite <- Hscan.
    destruct sof as [sof_idx|]; [|reflexivity].
    symmetry in Hscan. apply find_sof_frame_marker in Hscan; [|discriminate].
    destruct Hscan as [Hlen Hmarker].
    apply frame_marker_cases in Hmarker as (c & Hmarker & Hc & Hdef).
    cbn [f_read f_seek f_seek_cur getvalue tell]. rewrite Hsame.
    set (buf := getvalue f) in *.
    replace (slice buf (sof_idx + 2) (sof_idx + 4))
      with (slice buf (sof_idx + 2) (sof_idx + 2 + 2)) by (f_equal; lia).
    remember (slice buf (sof_idx + 2) (sof_idx + 2 + 2)) as len eqn:Hlen2.
    pose proof (int_from_bytes_big_bound len) as HL.
    remember (int_from_bytes_big len) as L eqn:HeqL.
    unfold f_seek_cur. cbn [getvalue tell].
    replace (Z.of_nat (sof_idx + 2 + length len) + (L - 2) <? 0) with false
      by (symmetry; apply Z.ltb_ge; lia).
    cbn [mbind outcome_bind getvalue tell].
    replace (Z.to_nat (Z.of_nat (sof_idx + 2 + length len) + (L - 2)))
      with (sof_idx + (length len + Z.to_nat L))%nat by lia.
    replace (sof_idx + Z.to_nat L + 2)%nat with (sof_idx + (Z.to_nat L + 2))%nat by lia.
    replace (sof_idx + Z.to_nat L + 4)%nat
      with (sof_idx + (Z.to_nat L + 2) + 2)%nat by lia.
    replace (sof_idx + 5 + 5)%nat with (sof_idx + 10)%nat by lia.
    rewrite !slice_from.
    assert (Hhead : take 2 (drop sof_idx buf) = [xff; c]).
    { rewrite <- Hmarker. unfold slice. f_equal. lia. }
    rewrite slice_from in Hlen2.
    destruct (drop sof_idx buf) as [|m1 [|m0 rest]] eqn:Etail; try discriminate.
    injection Hhead as -> ->. cbn [drop skipn] in Hlen2.
    destruct rest as [|l1 [|l0 rest]].
    + subst len. cbn [length take firstn] in *.
      assert (L = 0) by (subst L; reflexivity). clear HeqL.
      replace (Z.to_nat L) with 0%nat by lia.
      cbn [length Nat.add drop skipn take firstn].
      unfold slice in Hdef. rewrite Nat.add_sub', Etail in Hdef.
      cbn [take firstn] in Hdef. rewrite Hdef. reflexivity.
    + subst len. cbn [length take firstn] in *.
      destruct (Z.to_nat L) as [|[|n]]; cbn [length Nat.add drop skipn take firstn].
      * now rewrite not_a_definition_1, not_a_definition_2.
      * now rewrite not_a_definition_1.
      * rewrite drop_nil, (drop_ge [l1]) by (cbn; lia). reflexivity.
    + subst len. change (length (take 2 (drop 0 (l1 :: l0 :: rest)))) with 2%nat.
      now rewrite (Nat.add_comm 2).
Qed.

Lemma jpeg_readers_agree_witness :
  let f := mk_BinaryIO complete_jpeg 0 in
  _read_jpeg_shape (Handle f) = _read_jpeg_shape (Contents complete_jpeg)
  /\ _verify_jpeg (Handle f) = _verify_jpeg (Contents complete_jpeg).
Proof.
  intros f.
  destruct (jpeg_readers_agree f ltac:(discriminate)) as [Hread Hverify].
  split; [exact Hread | exact (Hverify eq_refl)].
Defined.

(** ** Introspection: the header readers *)

Lemma length_slice {A} (l : list A) (i j : nat) :
  length (slice l i j) = Nat.min (j - i) (length l - i).
Proof. unfold slice. now rewrite length_take, length_drop. Qed.

(** X11: the PNG fast path looks at bytes 16 to 25 and at nothing else:
    [read_meta_from_compressed_file] with the identifier png returns a shape
    and a dtype for every input of 26 bytes or more, whatever the bytes are,
    and reports [CorruptedSampleError] for every shorter input, without
    calling any library. *)
Theorem png_fast_path_needs_26_bytes (w : World) (file : bytes) :
  if (26 <=? length file)%nat then
    exists shape typestr,
      read_meta_from_compressed_file w file (Some "png"%string)
      = ([], Return ("png"%string, shape, typestr))
  else
    read_meta_from_compressed_file w file (Some "png"%string)
    = ([], Raise (CorruptedSampleError "png")).
Proof.
  unfold read_meta_from_compressed_file. rewrite bind_mret.
  change (is_id (Some "png"%string) "jpeg") with false.
  change (is_id (Some "png"%string) "png") with true. cbv iota.
  unfold _read_png_shape_and_dtype, unpack_ii.
  pose proof (length_slice file 16 24) as H8.
  pose proof (length_slice file 24 26) as H2.
  destruct (26 <=? length file)%nat eqn:Hlen.
  - apply Nat.leb_le in Hlen.
    replace (length (slice file 16 24) =? 8)%nat with true
      by (symmetry; apply Nat.eqb_eq; lia).
    cbn [mbind outcome_bind].
    destruct (slice file 24 26) as [|bits [|colors [|? ?]]]; cbn [length] in H2;
      try lia.
    cbn [mbind outcome_bind].
    destruct (Z.of_N (Byte.to_N colors) =? 0); cbn [pure try_except mbind M_bind];
      eexists _, _; reflexivity.
  - apply Nat.leb_gt in Hlen.
    destruct (length (slice file 16 24) =? 8)%nat eqn:E8; [|reflexivity].
    apply Nat.eqb_eq in E8. cbn [mbind outcome_bind].
    destruct (slice file 24 26) as [|bits [|colors [|? ?]]]; cbn [length] in H2;
      try lia; reflexivity.
Qed.

(** ** Verification *)

Lemma try_except_any_cases {A} (m : M A) (e0 : Exception) (P : A -> Prop) :
  (forall a, result m = Return a -> P a) ->
  (exists a, result (try_except m any_exception (fun _ => raise e0)) = Return a /\ P a)
  \/ result (try_except m any_exception (fun _ => raise e0)) = Raise e0.
Proof. destruct m as [l [a|e]]; cbn; eauto. Qed.

(** X12: for every identifier and every input, [verify_compressed_file]
    returns a shape and a dtype or raises [CorruptedSampleError] carrying the
    identifier it was given: no other exception leaves it. *)
Theorem verification_failures_normalised (w : World) (file : bytes) (c : string) :
  (exists shape typestr,
     result (verify_compressed_file w file c) = Return (Some (shape, typestr)))
  \/ result (verify_compressed_file w file c) = Raise (CorruptedSampleError c).
Proof.
  unfold verify_compressed_file.
  match goal with
  | |- context [try_except ?m _ _] =>
      destruct (try_except_any_cases m (CorruptedSampleError c)
                  (fun r => exists shape typestr, r = Some (shape, typestr)))
        as [(r & Hr & shape & typestr & ->) | Hr]; [| eauto | now right]
  end.
  intros r.
  destruct (String.eqb c "png").
  { destruct (_verify_png w file) as [l [[s t]|e]]; cbn [fmap M_fmap result snd];
      [|discriminate]. intros [= <-]. eauto. }
  destruct (String.eqb c "jpeg").
  { destruct (_verify_jpeg_buffer file) as [s|e];
      cbn [pure mbind M_bind mret M_ret result snd]; [|discriminate].
    intros [= <-]. eauto. }
  destruct (get_compression_type w (Some c)) as [t|e];
    cbn [pure mbind M_bind result snd]; [|discriminate].
  destruct (is_type t AUDIO_COMPRESSION).
  { destruct (_read_audio_shape w (Buffer file) (Some c)) as [l [s|e]];
      cbn [mbind M_bind mret M_ret result snd]; [|discriminate].
    intros [= <-]. eauto. }
  destruct (is_video_format (Some c)).
  { destruct (_read_video_shape w (Buffer file)) as [l [s|e]];
      cbn [mbind M_bind mret M_ret result snd]; [|discriminate].
    intros [= <-]. eauto. }
  destruct (_fast_decompress w file) as [l [[s t']|e]]; cbn [fmap M_fmap result snd];
    [|discriminate].
  intros [= <-]. eauto.
Qed.

(** X13: on file contents, a missing optional dependency is reported as a
    corrupted sample by the introspection functions: for an audio
    identifier without miniaudio, and for mp4, mkv or avi without PyAV,
    [read_meta_from_compressed_file] and [verify_compressed_file], given the
    contents of a file, raise [CorruptedSampleError], not
    [ModuleNotFoundError], and call nothing. *)
Theorem missing_dependency_reads_as_corrupted (w : World) (file : bytes) (c : string)
    (t : option compression_type) :
  String.eqb c "jpeg" = false ->
  String.eqb c "png" = false ->
  get_compression_type w (Some c) = Return t ->
  (is_type t AUDIO_COMPRESSION = true /\ _MINIAUDIO_INSTALLED w = false)
  \/ (is_type t AUDIO_COMPRESSION = false /\ is_video_format (Some c) = true
      /\ _PYAV_INSTALLED w = false) ->
  read_meta_from_compressed_file w file (Some c)
  = ([], Raise (CorruptedSampleError c))
  /\ verify_compressed_file w file c = ([], Raise (CorruptedSampleError c)).
Proof.
  intros Hjpeg Hpng Hclass Hmissing.
  unfold read_meta_from_compressed_file, verify_compressed_file.
  rewrite bind_mret. cbn [is_id]. rewrite Hjpeg, Hpng, Hclass, !bind_pure_Return.
  destruct Hmissing as [[-> Hflag] | (-> & -> & Hflag)].
  - unfold _read_audio_shape. rewrite Hflag. split; reflexivity.
  - unfold _read_video_shape, _open_video. rewrite Hflag. split; reflexivity.
Qed.

Lemma missing_dependency_reads_as_corrupted_witness :
  (read_meta_from_compressed_file Fixture.bare_world [x00; x01] (Some "mp3"%string)
   = ([], Raise (CorruptedSampleError "mp3"))
   /\ verify_compressed_file Fixture.bare_world [x00; x01] "mp3"
      = ([], Raise (CorruptedSampleError "mp3")))
  /\ (read_meta_from_compressed_file Fixture.bare_world [x00; x01] (Some "mkv"%string)
      = ([], Raise (CorruptedSampleError "mkv"))
      /\ verify_compressed_file Fixture.bare_world [x00; x01] "mkv"
         = ([], Raise (CorruptedSampleError "mkv"))).
Proof.
  split.
  - apply (missing_dependency_reads_as_corrupted Fixture.bare_world [x00; x01] "mp3"
             (Some AUDIO_COMPRESSION)); try reflexivity.
    left. split; reflexivity.
  - apply (missing_dependency_reads_as_corrupted Fixture.bare_world [x00; x01] "mkv"
             (Some VIDEO_COMPRESSION)); try reflexivity.
    right. repeat split; reflexivity.
Defined.

(** X14: on file contents, for audio identifiers and for mp4, mkv and
    avi, verification is the metadata read: given the contents of a file,
    [verify_compressed_file] makes the calls
    [read_meta_from_compressed_file] makes and ends as it ends, its result
    being the shape and dtype without the format name. *)
Theorem media_verification_is_the_metadata_read (w : World) (file : bytes) (c : string)
    (t : option compression_type) :
  String.eqb c "jpeg" = false ->
  String.eqb c "png" = false ->
  get_compression_type w (Some c) = Return t ->
  is_type t AUDIO_COMPRESSION = true \/ is_video_format (Some c) = true ->
  verify_compressed_file w file c
  = (fun meta => Some (meta.1.2, meta.2))
      <$> read_meta_from_compressed_file w file (Some c).
Proof.
  intros Hjpeg Hpng Hclass Hmedia.
  unfold read_meta_from_compressed_file, verify_compressed_file.
  rewrite bind_mret. cbn [is_id]. rewrite Hjpeg, Hpng, Hclass, !bind_pure_Return.
  destruct (is_type t AUDIO_COMPRESSION).
  - now destruct (_read_audio_shape w (Buffer file) (Some c)) as [l [s|e]].
  - destruct Hmedia as [Haudio | Hvideo]; [discriminate|]. rewrite Hvideo.
    now destruct (_read_video_shape w (Buffer file)) as [l [s|e]].
Qed.

Lemma media_verification_is_the_metadata_read_witness :
  verify_compressed_file Fixture.world [x00; x01] "mp4"
  = (fun meta => Some (meta.1.2, meta.2))
      <$> read_meta_from_compressed_file Fixture.world [x00; x01] (Some "mp4"%string).
Proof.
  apply (media_verification_is_the_metadata_read Fixture.world [x00; x01] "mp4"
           (Some VIDEO_COMPRESSION)); try reflexivity.
  now right.
Defined.

(** X15: a JPEG stream that [verify_compressed_file] accepts starts with
    the start-of-image marker, holds an end-of-image marker, and
    [read_meta_from_compressed_file] reports for it the shape and dtype the
    verification returned. *)
Theorem verified_jpeg_reads_the_same (w : World) (file : bytes) (shape : list Z)
    (typestr : string) :
  result (verify_compressed_file w file "jpeg") = Return (Some (shape, typestr)) ->
  read_meta_from_compressed_file w file (Some "jpeg"%string)
  = ([], Return ("jpeg"%string, shape, typestr))
  /\ take 2 file = [xff; xd8]
  /\ bytes_find end_of_image file <> None.
Proof.
  unfold verify_compressed_file, read_meta_from_compressed_file.
  change (String.eqb "jpeg" "png") with false.
  change (String.eqb "jpeg" "jpeg") with true. cbv iota.
  rewrite bind_mret. change (is_id (Some "jpeg"%string) "jpeg") with true. cbv iota.
  destruct (_verify_jpeg_buffer file) as [s|e] eqn:Hverify; [|discriminate].
  cbn. intros [= <- <-].
  apply verify_jpeg_buffer_shape in Hverify as (-> & Hsoi & Heoi). now repeat split.
Qed.

Lemma verified_jpeg_reads_the_same_witness :
  read_meta_from_compressed_file Fixture.world complete_jpeg (Some "jpeg"%string)
  = ([], Return ("jpeg"%string, [2; 3; 3], "|u1"%string))
  /\ take 2 complete_jpeg = [xff; xd8]
  /\ bytes_find end_of_image complete_jpeg <> None.
Proof.
  apply (verified_jpeg_reads_the_same Fixture.world complete_jpeg [2; 3; 3] "|u1").
  vm_compute. reflexivity.
Defined.

(** ** Video: what the loop leaves alone *)

Lemma result_bind_inv {A B} (m : M A) (f : A -> M B) (b : B) :
  result (m ≫= f) = Return b ->
  exists a, result m = Return a /\ result (f a) = Return b.
Proof.
  destruct m as [l [a|e]]; [|discriminate].
  unfold mbind, M_bind. destruct (f a) as [l' r] eqn:E. cbn [result snd].
  intros ->. exists a. split; [reflexivity|]. now rewrite E.
Qed.

Lemma setitem0_shape video i arr video' :
  setitem0 video i arr = Return video' ->
  shape video' = shape video /\ arr_dtype video' = arr_dtype video.
Proof.
  unfold setitem0. destruct (shape video) as [|n s] eqn:Hs; [discriminate|].
  destruct (negb (i <? n)%nat); [discriminate|].
  destruct (negb (shape_eqb (shape arr) s)); [discriminate|].
  destruct (negb (dtype_eqb _ _)); [discriminate|].
  intros [= <-]. now split.
Qed.

Lemma flip0_shape a : shape (flip0 a) = shape a /\ arr_dtype (flip0 a) = arr_dtype a.
Proof. unfold flip0. destruct (shape a) eqn:E; now split. Qed.

Section LoopInvariants.
Context (container : Container) (nframes : nat) (step_time : Z)
        (step_seeking seekable : bool).

Local Abbreviation loop := (demux_loop container nframes step_time step_seeking seekable).

(** One turn of the inner loop on a frame at or past the target. *)
Lemma demux_loop_store free pending packet_pts frame frames seek_target video video' :
  pts_reached packet_pts seek_target = true ->
  result (loop free pending packet_pts (frame :: frames) seek_target video)
  = Return video' ->
  exists free' arr video1 pending',
    free = S free'
    /\ setitem0 video (nframes - free) arr = Return video1
    /\ result (loop free' pending' packet_pts frames (seek_target + step_time) video1)
       = Return video'.
Proof.
  intros Hreached. rewrite demux_loop_cons, Hreached. intros H.
  apply result_bind_inv in H as (arr & _ & H).
  destruct free as [|free']; [discriminate|].
  apply result_bind_inv in H as (video1 & Hset & H). cbn in Hset. cbv zeta in H.
  destruct (step_seeking && seekable).
  - apply result_bind_inv in H as (pending' & _ & H). eauto 8.
  - eauto 8.
Qed.

Lemma demux_loop_shape free :
  forall pending packet_pts frames seek_target video video',
    result (loop free pending packet_pts frames seek_target video) = Return video' ->
    shape video' = shape video /\ arr_dtype video' = arr_dtype video.
Proof.
  induction free as [|free' IHfree].
  - intros pending packet_pts frames. revert pending packet_pts.
    induction frames as [|frame frames IHframes];
      intros pending packet_pts seek_target video video'.
    + rewrite demux_loop_nil. cbn. now intros [= <-].
    + destruct (pts_reached packet_pts seek_target) eqn:Hreached.
      * intros H. apply demux_loop_store in H as (? & ? & ? & ? & ? & _); [|assumption].
        discriminate.
      * rewrite demux_loop_cons, Hreached. apply IHframes.
  - assert (Hstore : forall pending packet_pts frame frames seek_target video video',
              pts_reached packet_pts seek_target = true ->
              result (loop (S free') pending packet_pts (frame :: frames)
                        seek_target video) = Return video' ->
              shape video' = shape video /\ arr_dtype video' = arr_dtype video).
    { intros pending packet_pts frame frames seek_target video video' Hreached H.
      apply demux_loop_store in H as (f & arr & video1 & pending' & [= <-] & Hset & H);
        [|assumption].
      apply IHfree in H as [-> ->]. now apply setitem0_shape in Hset. }
    induction pending as [|packet rest IHpending].
    + intros packet_pts frames. revert packet_pts.
      induction frames as [|frame frames IHframes];
        intros packet_pts seek_target video video'.
      * rewrite demux_loop_nil. cbn. now intros [= <-].
      * destruct (pts_reached packet_pts seek_target) eqn:Hreached;
          [now apply Hstore|].
        rewrite demux_loop_cons, Hreached. apply IHframes.
    + intros packet_pts frames. revert packet_pts.
      induction frames as [|frame frames IHframes];
        intros packet_pts seek_target video video'.
      * rewrite demux_loop_nil. cbn [Nat.eqb]. intros H.
        apply result_bind_inv in H as (fs & _ & H). now apply IHpending in H.
      * destruct (pts_reached packet_pts seek_target) eqn:Hreached;
          [now apply Hstore|].
        rewrite demux_loop_cons, Hreached. apply IHframes.
Qed.

End LoopInvariants.

Section LoopEvents.
Context (container : Container) (nframes : nat) (step_time : Z)
        (step_seeking seekable : bool).

Local Abbreviation loop := (demux_loop container nframes step_time step_seeking seekable).
Local Abbreviation allowed := (forallb (loop_event (step_seeking && seekable))).

Lemma demux_loop_store_events free pending packet_pts frame frames seek_target video :
  (forall pending' video',
     allowed (calls (loop (pred free) pending' packet_pts frames
                       (seek_target + step_time) video')) = true) ->
  pts_reached packet_pts seek_target = true ->
  allowed (calls (loop free pending packet_pts (frame :: frames) seek_target video))
  = true.
Proof.
  intros IH Hreached. rewrite demux_loop_cons, Hreached.
  rewrite calls_bind. cbn [call calls result fst snd app forallb loop_event andb].
  destruct (to_ndarray_rgb24 frame) as [arr|]; [|reflexivity].
  destruct free as [|free']; [reflexivity|].
  rewrite calls_bind. cbn [pure calls result fst snd app].
  destruct (setitem0 video (nframes - S free') arr) as [video'|]; [|reflexivity].
  cbv zeta. cbn [pred] in IH.
  destruct (step_seeking && seekable) eqn:Hss.
  - rewrite calls_bind. cbn [call calls result fst snd app forallb loop_event andb].
    destruct (seek container (seek_target + step_time)) as [pending'|];
      [|reflexivity].
    pose proof (IH pending' video') as H. now rewrite ?Hss in H.
  - pose proof (IH pending video') as H. now rewrite ?Hss in H.
Qed.

Lemma demux_loop_events free :
  forall pending packet_pts frames seek_target video,
    allowed (calls (loop free pending packet_pts frames seek_target video)) = true.
Proof.
  induction free as [|free' IHfree].
  - intros pending packet_pts frames. revert pending packet_pts.
    induction frames as [|frame frames IHframes]; intros pending packet_pts seek_target video.
    + rewrite demux_loop_nil. reflexivity.
    + destruct (pts_reached packet_pts seek_target) eqn:Hreached.
      * rewrite demux_loop_cons, Hreached, calls_bind.
        cbn [call calls result fst snd app forallb loop_event andb].
        destruct (to_ndarray_rgb24 frame); reflexivity.
      * rewrite demux_loop_cons, Hreached. apply IHframes.
  - induction pending as [|packet rest IHpending].
    + intros packet_pts frames. revert packet_pts.
      induction frames as [|frame frames IHframes]; intros packet_pts seek_target video.
      * rewrite demux_loop_nil. reflexivity.
      * destruct (pts_reached packet_pts seek_target) eqn:Hreached.
        -- apply demux_loop_store_events; [|assumption]. intros ? ?. apply IHfree.
        -- rewrite demux_loop_cons, Hreached. apply IHframes.
    + intros packet_pts frames. revert packet_pts.
      induction frames as [|frame frames IHframes]; intros packet_pts seek_target video.
      * rewrite demux_loop_nil. cbn [Nat.eqb].
        rewrite calls_bind. cbn [call calls result fst snd app forallb loop_event andb].
        destruct (decode packet); [apply IHpending | reflexivity].
      * destruct (pts_reached packet_pts seek_target) eqn:Hreached.
        -- apply demux_loop_store_events; [|assumption]. intros ? ?. apply IHfree.
        -- rewrite demux_loop_cons, Hreached. apply IHframes.
Qed.

Lemma demux_all_events pending seek_target video :
  allowed (calls (demux_all container nframes step_time step_seeking seekable
                    pending seek_target video)) = true.
Proof.
  unfold demux_all. destruct pending as [|packet rest]; [reflexivity|].
  rewrite calls_bind. cbn [call calls result fst snd app forallb loop_event andb].
  destruct (decode packet); [apply demux_loop_events | reflexivity].
Qed.

Lemma demux_all_shape pending seek_target video video' :
  result (demux_all container nframes step_time step_seeking seekable
            pending seek_target video) = Return video' ->
  shape video' = shape video /\ arr_dtype video' = arr_dtype video.
Proof.
  unfold demux_all. destruct pending as [|packet rest].
  - cbn. now intros [= <-].
  - intros H. apply result_bind_inv in H as (fs & _ & H).
    now apply demux_loop_shape in H.
Qed.

End LoopEvents.

Lemma loop_events_counts seeking log :
  forallb (loop_event seeking) log = true ->
  opens log = 0%nat
  /\ ~ In (warning_call cannot_seek) log
  /\ (seeking = false -> seeks log = 0%nat).
Proof.
  unfold opens, seeks.
  induction log as [|ev log IH]; cbn [forallb]; [intros _; repeat split; auto|].
  intros H. apply andb_prop in H as [Hev Hlog].
  destruct (IH Hlog) as (Ho & Hw & Hs).
  destruct ev; cbn in Hev; try discriminate; cbn [List.filter is_open is_seek];
    (split; [exact Ho|]); (split; [intros [?|?]; [discriminate | contradiction]|]);
    intros Hoff; try (now apply Hs); congruence.
Qed.

(** ** Video: seeking *)

Lemma open_video_cases (w : World) file :
  (exists c v vs,
     _open_video w file = ([av_open_call file], Return (c, v))
     /\ av_open w file = Return c /\ streams_video c = v :: vs)
  \/ exists e, _open_video w file = ([], Raise e)
               \/ _open_video w file = ([av_open_call file], Raise e).
Proof.
  unfold _open_video. destruct (_PYAV_INSTALLED w); cbn [negb]; [|right; eauto].
  destruct (av_open w file) as [c|e] eqn:Hopen; [|right; eauto].
  rewrite bind_call_Return.
  destruct (streams_video c) as [|v vs] eqn:Hstreams; [right; eauto|].
  left. exists c, v, vs. now repeat split.
Qed.

Lemma calls_pure_bind {A B} (r : outcome A) (f : A -> M B) :
  calls (pure r ≫= f) = match r with
                         | Return a => calls (f a)
                         | Raise _ => []
                         end.
Proof. rewrite calls_bind. now destruct r. Qed.

Lemma decompress_video_log (w : World) file start stop step reverse :
  let log := calls (_decompress_video w file start stop step reverse) in
  (seeks log = 0%nat /\ (opens log <= 1)%nat /\ ~ In (warning_call cannot_seek) log)
  \/ exists c v vs target rest,
       av_open w file = Return c /\ streams_video c = v :: vs
       /\ ((log = av_open_call file :: av_seek_call target :: rest
            /\ forallb (loop_event (gop_size v <? default 1 step)) rest = true)
           \/ (log = av_open_call file :: av_seek_call target
                     :: av_open_call file :: warning_call cannot_seek :: rest
               /\ forallb (loop_event false) rest = true)).
Proof.
  assert (Hearly : forall l : list Event,
            l = [] \/ l = [av_open_call file] ->
            seeks l = 0%nat /\ (opens l <= 1)%nat /\ ~ In (warning_call cannot_seek) l).
  { intros l [-> | ->]; cbn; repeat split; try lia; intros [?|?]; try discriminate;
      contradiction. }
  cbv zeta. unfold _decompress_video.
  destruct (open_video_cases w file) as [(c & v & vs & Hopen & Hav & Hstreams)
                                        | (e & [Hopen | Hopen])];
    rewrite Hopen; [|left; apply Hearly; cbn; auto ..].
  rewrite calls_bind. cbn [calls result fst snd].
  rewrite calls_pure_bind.
  destruct (_read_metadata_from_vstream c v) as [[[[[[nframes h] wd] ?] ?] ?]|];
    [|left; apply Hearly; cbn; auto].
  cbv zeta. rewrite calls_pure_bind.
  destruct (ceil_div _ _) as [n|]; [|left; apply Hearly; cbn; auto].
  rewrite calls_pure_bind.
  destruct (n <? 0); [left; apply Hearly; cbn; auto|].
  rewrite calls_pure_bind.
  destruct (_frame_to_stamp (default 0 start) v) as [target|];
    [|left; apply Hearly; cbn; auto].
  rewrite calls_pure_bind.
  destruct (_frame_to_stamp (default 1 step) v) as [step_time|];
    [|left; apply Hearly; cbn; auto].
  right. exists c, v, vs, target.
  rewrite calls_bind.
  destruct (seek c target) as [pending|e] eqn:Hseek.
  - rewrite bind_call_Return. cbn [mret M_ret try_except calls result fst snd app].
    rewrite calls_bind. eexists. repeat split; try eassumption. left.
    split; [reflexivity|]. rewrite forallb_app.
    rewrite <- (andb_true_r (gop_size v <? default 1 step)) at 1.
    rewrite demux_all_events. cbn [andb].
    destruct (result _) as [video|]; now destruct reverse.
  - cbn [call mbind M_bind try_except].
    destruct (is_AVPermissionError e).
    + cbn [call mret M_ret mbind M_bind app calls result fst snd].
      rewrite calls_bind. eexists. repeat split; try eassumption. right.
      split; [reflexivity|]. rewrite forallb_app.
      rewrite <- (andb_false_r (gop_size v <? default 1 step)) at 1.
      rewrite demux_all_events. cbn [andb].
      destruct (result _) as [video|]; now destruct reverse.
    + cbn [calls result fst snd app]. eexists. repeat split; try eassumption.
      left. split; reflexivity.
Qed.

(** X16: how often [_decompress_video] seeks.  A run that warned that it
    cannot seek has sought exactly once and opened the source exactly twice:
    the fallback is taken once, and nothing is sought after it.  A run whose
    step does not exceed the key-frame distance of the stream seeks at most
    once. *)
Theorem seeking_is_bounded (w : World) (file : Source) (start stop step : option Z)
    (reverse : bool) :
  let log := calls (_decompress_video w file start stop step reverse) in
  (In (warning_call cannot_seek) log -> seeks log = 1%nat /\ opens log = 2%nat)
  /\ ((forall c v vs, av_open w file = Return c -> streams_video c = v :: vs ->
         (gop_size v <? default 1 step) = false) ->
      (seeks log <= 1)%nat).
Proof.
  cbv zeta.
  destruct (decompress_video_log w file start stop step reverse)
    as [(Hs & Ho & Hw) | (c & v & vs & target & rest & Hav & Hstreams & Hlog)].
  { split; [contradiction | lia]. }
  destruct Hlog as [[-> Hrest] | [-> Hrest]];
    apply loop_events_counts in Hrest as (Ho & Hw & Hs).
  - split.
    + intros [?|[?|?]]; try discriminate. contradiction.
    + intros Hgop. specialize (Hs (Hgop c v vs Hav Hstreams)).
      unfold seeks in *. cbn [List.filter is_seek length]. lia.
  - specialize (Hs eq_refl). unfold seeks, opens in *.
    cbn [List.filter is_seek is_open length]. split; [|lia].
    intros _. split; lia.
Qed.

Lemma seeking_is_bounded_witness :
  let log := calls (_decompress_video Fixture.world (Path "clip.mp4")
                      (Some 10) (Some 20) (Some 2) false) in
  (seeks log = 1%nat /\ opens log = 2%nat) /\ (seeks log <= 1)%nat.
Proof.
  intros log.
  destruct (seeking_is_bounded Fixture.world (Path "clip.mp4")
              (Some 10) (Some 20) (Some 2) false) as [Hfallback Hstep].
  split.
  - apply Hfallback. vm_compute. do 3 right. left. reflexivity.
  - apply Hstep. intros c v vs [= <-] [= <- _]. reflexivity.
Defined.

(** ** Video: the array returned *)

Lemma read_metadata_dims c v nframes h wd duration fps tb :
  _read_metadata_from_vstream c v = Return (nframes, h, wd, duration, fps, tb) ->
  h = cc_height v /\ wd = cc_width v.
Proof.
  unfold _read_metadata_from_vstream.
  destruct (match vs_duration v with
            | Some d => _
            | None => _
            end) as [[d0 tb0]|]; cbn [mbind outcome_bind]; [|discriminate].
  destruct (truediv _ _); cbn [mbind outcome_bind]; [|discriminate].
  destruct (if vs_frames v =? 0 then _ else _); cbn [mbind outcome_bind];
    [|discriminate].
  now intros [= _ <- <- _ _ _].
Qed.

(** X17: whatever the source yields, an array that [_decompress_video]
    returns for a window (start, stop, step) has [ceil((stop - start) / step)]
    frames, a count that is not negative, of the height and width of the
    stream's codec context, three channels, dtype uint8; reversed or not. *)
Theorem decoded_window_shape (w : World) (file : Source) (start stop step : Z)
    (reverse : bool) (video : ndarray) :
  result (_decompress_video w file (Some start) (Some stop) (Some step) reverse)
  = Return video ->
  exists c v vs n,
    av_open w file = Return c /\ streams_video c = v :: vs
    /\ ceil_div (stop - start) step = Return n /\ 0 <= n
    /\ shape video = [Z.to_nat n; cc_height v; cc_width v; 3%nat]
    /\ arr_dtype video = UInt8.
Proof.
  intros H. unfold _decompress_video in H.
  apply result_bind_inv in H as ([c v] & Hopen & H).
  destruct (open_video_cases w file) as [(c' & v' & vs & Hopen' & Hav & Hstreams)
                                        | (e & [Hopen' | Hopen'])];
    rewrite Hopen' in Hopen; try discriminate.
  injection Hopen as <- <-.
  apply result_bind_inv in H as ([[[[[nframes h] wd] ?] ?] ?] & Hmeta & H).
  apply read_metadata_dims in Hmeta as [-> ->]. cbv zeta in H. cbn [default] in H.
  apply result_bind_inv in H as (n & Hn & H).
  apply result_bind_inv in H as (video0 & Hvideo0 & H).
  destruct (n <? 0) eqn:Hneg; [discriminate|]. apply Z.ltb_ge in Hneg.
  injection Hvideo0 as <-.
  apply result_bind_inv in H as (target & _ & H).
  apply result_bind_inv in H as (step_time & _ & H).
  apply result_bind_inv in H as ([[seekable c''] pending] & _ & H).
  apply result_bind_inv in H as (video1 & Hloop & H).
  apply demux_all_shape in Hloop as [Hshape Hdtype].
  exists c', v', vs, n. repeat split; try assumption.
  - destruct reverse; injection H as <-; [rewrite (proj1 (flip0_shape video1))|];
      exact Hshape.
  - destruct reverse; injection H as <-; [rewrite (proj2 (flip0_shape video1))|];
      exact Hdtype.
Qed.

Lemma decoded_window_shape_witness :
  let video := mk_ndarray UInt8 [3; 1; 1; 3]%nat
                 (map Fixture.byte_of_nat [18; 18; 18; 14; 14; 14; 10; 10; 10]%nat) in
  exists c v vs n,
    av_open Fixture.world (Buffer []) = Return c /\ streams_video c = v :: vs
    /\ ceil_div (20 - 10) 4 = Return n /\ 0 <= n
    /\ shape video = [Z.to_nat n; cc_height v; cc_width v; 3%nat]
    /\ arr_dtype video = UInt8.
Proof.
  intros video.
  apply (decoded_window_shape Fixture.world (Buffer []) 10 20 4 true video).
  vm_compute. reflexivity.
Defined.

(** ** Video: packets without a time stamp *)

Lemma pts_reached_no_stamp p t : no_stamp p -> pts_reached p t = false.
Proof. now intros [-> | ->]. Qed.

Section Unstamped.
Context (container : Container) (nframes : nat) (step_time : Z)
        (step_seeking seekable : bool).

Local Abbreviation loop := (demux_loop container nframes step_time step_seeking seekable).

Lemma demux_loop_unstamped free :
  forall pending packet_pts frames seek_target video video',
    Forall (fun p => no_stamp (pts p)) pending ->
    no_stamp packet_pts ->
    result (loop free pending packet_pts frames seek_target video) = Return video' ->
    video' = video.
Proof.
  intros pending. induction pending as [|packet rest IHpending];
    intros packet_pts frames; revert packet_pts;
    (induction frames as [|frame frames IHframes];
     intros packet_pts seek_target video video' Hpending Hpts;
     [ rewrite demux_loop_nil
     | rewrite demux_loop_cons, (pts_reached_no_stamp _ _ Hpts);
       now apply IHframes ]).
  - destruct (free =? 0)%nat; cbn; now intros [= <-].
  - destruct (free =? 0)%nat; [cbn; now intros [= <-]|].
    apply Forall_cons in Hpending as [Hpacket Hrest].
    intros H. apply result_bind_inv in H as (fs & _ & H).
    exact (IHpending (pts packet) fs seek_target video video' Hrest Hpacket H).
Qed.

Lemma demux_all_unstamped pending seek_target video video' :
  Forall (fun p => no_stamp (pts p)) pending ->
  result (demux_all container nframes step_time step_seeking seekable
            pending seek_target video) = Return video' ->
  video' = video.
Proof.
  unfold demux_all. destruct pending as [|packet rest]; intros Hpending.
  - cbn. now intros [= <-].
  - apply Forall_cons in Hpending as [Hpacket Hrest].
    intros H. apply result_bind_inv in H as (fs & _ & H).
    exact (demux_loop_unstamped _ _ _ _ _ _ _ Hrest Hpacket H).
Qed.

End Unstamped.

Lemma flip0_zeros (s : Shape) (d : dtype) : flip0 (np_zeros s (Some d)) = np_zeros s (Some d).
Proof.
  unfold flip0, np_zeros. cbn [shape arr_dtype tobytes default from_option].
  destruct s as [|n s]; [reflexivity|]. f_equal.
  unfold nbytes_of. change (id d) with d.
  change (prod (n :: s)) with (n * prod s)%nat. rewrite <- Nat.mul_assoc.
  generalize (prod s * itemsize d)%nat as fs. intros fs.
  assert (Hchunks : chunks n fs (replicate (n * fs) x00) = replicate n (replicate fs x00)).
  { induction n as [|n IH]; [reflexivity|].
    cbn [chunks Nat.mul replicate]. rewrite replicate_add.
    rewrite take_app_length', drop_app_length' by now rewrite length_replicate.
    now rewrite IH. }
  rewrite Hchunks, reverse_replicate.
  clear Hchunks. induction n as [|n IH]; [reflexivity|].
  cbn [replicate concat Nat.mul]. now rewrite IH, replicate_add.
Qed.

(** X18: a source whose packets carry no presentation time stamp, or the
    stamp 0, has none of its frames stored: whenever [_decompress_video]
    returns for it, the array is the zero-filled one it allocated. *)
Theorem unstamped_packets_leave_zeros (w : World) (file : Source) (start stop step : Z)
    (reverse : bool) (video : ndarray) :
  (forall c, av_open w file = Return c ->
     Forall (fun p => no_stamp (pts p)) (demux c)
     /\ forall t ps, seek c t = Return ps -> Forall (fun p => no_stamp (pts p)) ps) ->
  result (_decompress_video w file (Some start) (Some stop) (Some step) reverse)
  = Return video ->
  exists c v vs n,
    av_open w file = Return c /\ streams_video c = v :: vs
    /\ ceil_div (stop - start) step = Return n
    /\ video = np_zeros [Z.to_nat n; cc_height v; cc_width v; 3%nat] (Some UInt8).
Proof.
  intros Hunstamped H. unfold _decompress_video in H.
  apply result_bind_inv in H as ([c v] & Hopen & H).
  destruct (open_video_cases w file) as [(c' & v' & vs & Hopen' & Hav & Hstreams)
                                        | (e & [Hopen' | Hopen'])];
    rewrite Hopen' in Hopen; try discriminate.
  injection Hopen as <- <-.
  destruct (Hunstamped c' Hav) as [Hdemux Hseek].
  apply result_bind_inv in H as ([[[[[nframes h] wd] ?] ?] ?] & Hmeta & H).
  apply read_metadata_dims in Hmeta as [-> ->]. cbv zeta in H. cbn [default] in H.
  apply result_bind_inv in H as (n & Hn & H).
  apply result_bind_inv in H as (video0 & Hvideo0 & H).
  destruct (n <? 0) eqn:Hneg; [discriminate|].
  injection Hvideo0 as <-.
  apply result_bind_inv in H as (target & _ & H).
  apply result_bind_inv in H as (step_time & _ & H).
  apply result_bind_inv in H as ([[seekable c''] pending] & Hstage & H).
  assert (Hpending : Forall (fun p => no_stamp (pts p)) pending).
  { destruct (seek c' target) as [ps|e] eqn:Hps.
    - rewrite bind_call_Return in Hstage. injection Hstage as _ _ <-.
      now apply (Hseek target).
    - cbn [call mbind M_bind try_except] in Hstage.
      destruct (is_AVPermissionError e); [|discriminate].
      rewrite Hopen' in Hstage. injection Hstage as _ _ <-. exact Hdemux. }
  apply result_bind_inv in H as (video1 & Hloop & H).
  apply demux_all_unstamped in Hloop; [|exact Hpending]. subst video1.
  exists c', v', vs, n. repeat split; try assumption.
  destruct reverse; injection H as <-; [apply flip0_zeros | reflexivity].
Qed.

Lemma unstamped_packets_leave_zeros_witness :
  exists c v vs n,
    av_open Samples.world (Buffer []) = Return c /\ streams_video c = v :: vs
    /\ ceil_div (4 - 0) 1 = Return n
    /\ mk_ndarray UInt8 [4; 1; 1; 3]%nat (replicate 12 x00)
       = np_zeros [Z.to_nat n; cc_height v; cc_width v; 3%nat] (Some UInt8).
Proof.
  apply (unstamped_packets_leave_zeros Samples.world (Buffer []) 0 4 1 false).
  - intros c [= <-]. split.
    + repeat constructor.
    + intros t ps [= <-]. repeat constructor.
  - vm_compute. reflexivity.
Defined.

(** ** Animated PNG *)

Section Transpose.
Context {A : Type}.
Implicit Types (E : list A).

Lemma stride_select_cons n c i E x :
  take c E !! i = Some x ->
  stride_select (S n) c i E = x :: stride_select n c i (drop c E).
Proof. intros Hx. unfold stride_select. cbn [chunks omap list_omap]. now rewrite Hx. Qed.

Lemma lookups_from (pre g : list A) :
  omap (fun i => (pre ++ g) !! i) (seq (length pre) (length g)) = g.
Proof.
  revert pre; induction g as [|x g IH]; intros pre; [reflexivity|].
  cbn [length seq omap list_omap]. rewrite lookup_app_r, Nat.sub_diag by lia.
  cbn [lookup list_lookup]. f_equal.
  specialize (IH (pre ++ [x])). rewrite <- app_assoc, length_app in IH.
  cbn [length app] in IH. now rewrite Nat.add_1_r in IH.
Qed.

Lemma heads_and_tails n c E (idx : list nat) :
  Forall (fun i => is_Some (take c E !! i)) idx ->
  omap head (map (fun i => stride_select (S n) c i E) idx)
  = omap (fun i => take c E !! i) idx
  /\ map (drop 1) (map (fun i => stride_select (S n) c i E) idx)
     = map (fun i => stride_select n c i (drop c E)) idx.
Proof.
  induction 1 as [|i idx [x Hx] _ [IH1 IH2]]; [now split|].
  cbn [map omap list_omap]. rewrite (stride_select_cons _ _ _ _ _ Hx), Hx.
  cbn [head drop skipn]. rewrite IH1, IH2. now split.
Qed.

(** Taking the items apart by their position within the groups of [c] and
    interleaving them again gives the list back. *)
Lemma interleave_stride_select n c E :
  length E = (n * c)%nat ->
  interleave n (map (fun i => stride_select n c i E) (seq 0 c)) = E.
Proof.
  revert E; induction n as [|n IH]; intros E Hlen.
  - now destruct E.
  - cbn [interleave].
    destruct (heads_and_tails n c E (seq 0 c)) as [-> ->].
    { apply Forall_seq. intros i Hi. apply lookup_lt_is_Some.
      rewrite length_take. lia. }
    rewrite IH by (rewrite length_drop; lia).
    pose proof (lookups_from [] (take c E)) as Hg. cbn [app length] in Hg.
    rewrite length_take in Hg. replace (c `min` length E)%nat with c in Hg by lia.
    rewrite Hg. apply take_drop.
Qed.

Lemma stride_select_length n c i E :
  length E = (n * c)%nat -> (i < c)%nat -> length (stride_select n c i E) = n.
Proof.
  revert E; induction n as [|n IH]; intros E Hlen Hi; [reflexivity|].
  destruct (lookup_lt_is_Some_2 (take c E) i) as [x Hx].
  { rewrite length_take. lia. }
  rewrite (stride_select_cons _ _ _ _ _ Hx). cbn [length].
  rewrite IH; [reflexivity | rewrite length_drop; lia | exact Hi].
Qed.

Lemma stride_select_Forall (P : A -> Prop) n c i E :
  Forall P E -> Forall P (stride_select n c i E).
Proof.
  revert E; induction n as [|n IH]; intros E HE; [constructor|].
  unfold stride_select. cbn [chunks omap list_omap].
  destruct (take c E !! i) as [x|] eqn:Hx.
  - constructor.
    + eapply Forall_lookup_1; [|exact Hx]. now apply Forall_take.
    + apply IH. now apply Forall_drop.
  - apply IH. now apply Forall_drop.
Qed.

End Transpose.

Lemma map_fromarray_Return (w : World) (frames : list ndarray) (imgs : list Image) :
  Forall2 (fun f i => Image_fromarray w f = Return i) frames imgs ->
  result (map_fromarray w (map Return frames)) = Return imgs.
Proof.
  induction 1 as [|f i frames imgs Hf _ IH]; [reflexivity|].
  cbn [map map_fromarray]. rewrite bind_pure_Return, Hf, bind_call_Return.
  cbn [result snd]. rewrite (result_bind_Return _ _ _ IH). reflexivity.
Qed.

Lemma apng_frames_handed (w : World) (a : ndarray) :
  ndim a = 3%nat \/ ndim a = 4%nat /\ (nth 3 (shape a) 0 <= 4)%nat ->
  _compress_apng w a
  = (frames ← map_fromarray w (map Return (apng_frames a));
     match frames with
     | [] => raise (IndexError "list index out of range")
     | _ => call (Image_save_all_call frames) (Image_save_all w frames)
     end).
Proof.
  unfold _compress_apng, apng_frames, ndim, plane.
  destruct (shape a) as [|h [|wd [|c [|c' [|? ?]]]]] eqn:Hs; cbn [length nth];
    intros [H | [H Hc]]; try discriminate.
  - cbn [Nat.eqb]. now rewrite map_map.
  - cbn [Nat.eqb andb]. apply Nat.leb_le in Hc. now rewrite Hc.
Qed.

Lemma apng_frames_3d (a : ndarray) h wd c :
  well_formed a -> shape a = [h; wd; c] -> (0 < c)%nat ->
  exists frame0 more,
    apng_frames a = frame0 :: more
    /\ shape frame0 = [h; wd] /\ arr_dtype frame0 = arr_dtype a
    /\ same_layout frame0 (frame0 :: more) = true
    /\ length (frame0 :: more) = c
    /\ concat (interleave (prod [h; wd])
                 (map (fun f => chunks (prod (shape f)) (itemsize (arr_dtype a))
                                  (tobytes f))
                      (frame0 :: more)))
       = tobytes a.
Proof.
  intros Hwf Hs Hc. unfold apng_frames. rewrite Hs.
  set (E := chunks (h * wd * c) (itemsize (arr_dtype a)) (tobytes a)).
  set (frame := fun i => mk_ndarray (arr_dtype a) [h; wd]
                           (concat (stride_select (h * wd) c i E))).
  assert (Hdata : length (tobytes a) = (h * wd * c * itemsize (arr_dtype a))%nat).
  { unfold well_formed, nbytes_of in Hwf. rewrite Hwf, Hs. cbn [prod foldr]. lia. }
  assert (HE : length E = (h * wd * c)%nat) by apply chunks_length.
  assert (Hitems : Forall (fun r => length r = itemsize (arr_dtype a)) E)
    by now apply chunks_Forall_length.
  assert (Hlayout : forall f0, shape f0 = [h; wd] -> arr_dtype f0 = arr_dtype a ->
            same_layout f0 (map frame (seq 0 c)) = true).
  { intros f0 Hs0 Hd0. unfold same_layout. apply forallb_forall. intros f Hf.
    apply in_map_iff in Hf as (i & <- & _). cbn [shape arr_dtype frame].
    rewrite Hs0, Hd0.
    apply andb_true_intro. split; [now apply shape_eqb_eq | now apply dtype_eqb_eq]. }
  assert (Hall : concat (interleave (prod [h; wd])
                   (map (fun f => chunks (prod (shape f)) (itemsize (arr_dtype a))
                                    (tobytes f))
                        (map frame (seq 0 c))))
                 = tobytes a).
  { rewrite map_map.
    rewrite (map_ext_in _ (fun i => stride_select (h * wd) c i E)).
    - replace (prod [h; wd]) with (h * wd)%nat by (cbn; lia).
      rewrite interleave_stride_select by exact HE.
      subst E. now apply concat_chunks.
    - intros i Hi. apply in_seq in Hi. cbn [frame shape tobytes].
      replace (prod [h; wd]) with (length (stride_select (h * wd) c i E)).
      + apply chunks_concat. now apply stride_select_Forall.
      + rewrite stride_select_length; [cbn; lia | exact HE | lia]. }
  assert (Hcount : length (map frame (seq 0 c)) = c)
    by now rewrite length_map, length_seq.
  destruct c as [|c']; [lia|].
  exists (frame 0%nat), (map frame (seq 1 c')).
  split; [reflexivity|]. split; [reflexivity|]. split; [reflexivity|].
  split; [now apply (Hlayout (frame 0%nat))|]. split; [exact Hcount | exact Hall].
Qed.

Lemma apng_frames_4d (a : ndarray) n h wd c :
  well_formed a -> shape a = [n; h; wd; c] -> (0 < n)%nat ->
  exists frame0 more,
    apng_frames a = frame0 :: more
    /\ shape frame0 = [h; wd; c] /\ arr_dtype frame0 = arr_dtype a
    /\ same_layout frame0 (frame0 :: more) = true
    /\ length (frame0 :: more) = n
    /\ concat (map tobytes (frame0 :: more)) = tobytes a.
Proof.
  intros Hwf Hs Hn. unfold apng_frames, subarrays. rewrite Hs.
  set (fs := nbytes_of [h; wd; c] (arr_dtype a)).
  assert (Hdata : length (tobytes a) = (n * fs)%nat).
  { unfold well_formed, nbytes_of in Hwf. rewrite Hwf, Hs. subst fs.
    unfold nbytes_of. cbn [prod foldr]. lia. }
  destruct n as [|n']; [lia|]. cbn [chunks map].
  eexists _, _. split; [reflexivity|]. split; [reflexivity|]. split; [reflexivity|].
  split.
  { unfold same_layout. apply forallb_forall. intros f Hf.
    change (?x :: map ?g ?l) with (map g (take fs (tobytes a) :: l)) in Hf.
    apply in_map_iff in Hf as (row & <- & _). cbn [shape arr_dtype].
    apply andb_true_intro. split; [now apply shape_eqb_eq | now apply dtype_eqb_eq]. }
  split.
  { cbn [length]. now rewrite length_map, chunks_length. }
  cbn [map tobytes concat]. rewrite map_map. cbn [tobytes]. rewrite map_id.
  change (take fs (tobytes a) ++ concat (chunks n' fs (drop fs (tobytes a))))
    with (concat (chunks (S n') fs (tobytes a))).
  now apply concat_chunks.
Qed.

Lemma zero_in_false s : zero_in s = false -> Forall (fun n => (0 < n)%nat) s.
Proof.
  induction s as [|n s IH]; [constructor|]. cbn [zero_in existsb].
  intros H. apply orb_false_elim in H as [Hn Hs]. constructor.
  - destruct n; [discriminate | lia].
  - now apply IH.
Qed.

(** X19: the apng round trip.  For a well-formed array without a
    zero-sized dimension, of three axes, or of four with at most four
    channels, and an image library that writes the frames it is handed and
    reads them back, [decompress_array] undoes [compress_array] under apng:
    the planes of a three-axis array are interleaved again, the frames of a
    four-axis array are stacked again. *)
Theorem animation_round_trip (w : World) (a : ndarray) (t : option compression_type)
    (s : option Shape) (d : option dtype) (imgs : list Image) (blob : bytes)
    (img : Image) :
  well_formed a ->
  ndim a = 3%nat \/ ndim a = 4%nat /\ (nth 3 (shape a) 0 <= 4)%nat ->
  zero_in (shape a) = false ->
  in_compressions w (Some "apng"%string) = true ->
  get_compression_type w (Some "apng"%string) = Return t ->
  is_type t BYTE_COMPRESSION = false ->
  is_type t AUDIO_COMPRESSION = false ->
  is_type t VIDEO_COMPRESSION = false ->
  Forall2 (fun f i => Image_fromarray w f = Return i) (apng_frames a) imgs ->
  Image_save_all w imgs = Return blob ->
  Image_open w (Buffer blob) = Return img ->
  im_frames img = apng_frames a ->
  result (compress_array w a (Some "apng"%string)) = Return blob
  /\ result (decompress_array w (Buffer blob) s d (Some "apng"%string)
               None None None false) = Return a.
Proof.
  intros Hwf Hdim Hz Hin Hclass Hb Ha Hv Hfrom Hsave Hopen Hframes.
  pose proof (zero_in_false _ Hz) as Hpos.
  assert (Hshape : exists frame0 more,
            apng_frames a = frame0 :: more
            /\ same_layout frame0 (frame0 :: more) = true
            /\ (if (ndim frame0 =? 2)%nat
                then mk_ndarray (arr_dtype frame0)
                       (shape frame0 ++ [length (frame0 :: more)])
                       (concat (interleave (prod (shape frame0))
                                  (map (fun f => chunks (prod (shape f))
                                                   (itemsize (arr_dtype frame0))
                                                   (tobytes f))
                                       (frame0 :: more))))
                else mk_ndarray (arr_dtype frame0)
                       (length (frame0 :: more) :: shape frame0)
                       (concat (map tobytes (frame0 :: more))))
               = a).
  { unfold ndim in Hdim.
    destruct (shape a) as [|n [|h [|wd [|c [|? ?]]]]] eqn:Hs; cbn [length nth] in Hdim;
      try (destruct Hdim as [? | [? _]]; discriminate).
    - destruct (apng_frames_3d a n h wd) as (f0 & more & Hf & Hs0 & Hd0 & Hl & Hn & Hdata);
        auto.
      { apply Forall_cons in Hpos as [_ Hpos]. apply Forall_cons in Hpos as [_ Hpos].
        now apply Forall_cons in Hpos as [? _]. }
      exists f0, more. split; [exact Hf|]. split; [exact Hl|].
      unfold ndim. rewrite Hs0, Hd0, Hn, Hdata. cbn [length Nat.eqb app].
      destruct a; cbn in *; congruence.
    - destruct (apng_frames_4d a n h wd c) as (f0 & more & Hf & Hs0 & Hd0 & Hl & Hn & Hdata);
        auto.
      { now apply Forall_cons in Hpos as [? _]. }
      exists f0, more. split; [exact Hf|]. split; [exact Hl|].
      unfold ndim. rewrite Hs0, Hd0, Hn, Hdata. cbn [length Nat.eqb].
      destruct a; cbn in *; congruence. }
  destruct Hshape as (frame0 & more & Hf & Hlayout & Hback).
  split.
  - unfold compress_array. rewrite Hz, Hin. cbn [negb].
    rewrite Hclass, bind_pure_Return, Hb, Ha, Hv.
    change (String.eqb "apng" "apng") with true. cbv iota.
    rewrite (apng_frames_handed w a Hdim).
    rewrite (result_bind_Return _ _ _ (map_fromarray_Return w _ _ Hfrom)).
    destruct imgs as [|i0 imgs']; [rewrite Hf in Hfrom; inversion Hfrom|].
    now rewrite Hsave.
  - unfold decompress_array. rewrite Hclass, bind_pure_Return, Hb, Ha, Hv.
    change (is_id (Some "apng"%string) "apng") with true. cbv iota.
    unfold _decompress_apng. rewrite Hopen, bind_call_Return.
    rewrite Hframes, Hf. unfold im_frames in Hframes. rewrite Hf in Hframes.
    injection Hframes as -> _. rewrite Hlayout. cbn [negb].
    destruct (ndim frame0 =? 2)%nat; cbn [result snd mret M_ret]; now rewrite Hback.
Qed.

Lemma animation_round_trip_witness :
  let a := mk_ndarray UInt8 [2; 2; 3]%nat (map Fixture.byte_of_nat (seq 1 12)) in
  let b := mk_ndarray UInt8 [2; 1; 2; 3]%nat (map Fixture.byte_of_nat (seq 1 12)) in
  (exists blob,
     result (compress_array Samples.world a (Some "apng"%string)) = Return blob
     /\ result (decompress_array Samples.world (Buffer blob) None None
                  (Some "apng"%string) None None None false) = Return a)
  /\ (exists blob,
        result (compress_array Samples.world b (Some "apng"%string)) = Return blob
        /\ result (decompress_array Samples.world (Buffer blob) None None
                     (Some "apng"%string) None None None false) = Return b).
Proof.
  intros a b. split.
  - eexists.
    apply (animation_round_trip Samples.world a (Some IMAGE_COMPRESSION) None None
             (map (fun f => mk_Image f [] "") (apng_frames a)) _
             (mk_Image (hd a (apng_frames a)) (tl (apng_frames a)) "PNG"));
      try reflexivity.
    + now left.
    + repeat constructor.
  - eexists.
    apply (animation_round_trip Samples.world b (Some IMAGE_COMPRESSION) None None
             (map (fun f => mk_Image f [] "") (apng_frames b)) _
             (mk_Image (hd b (apng_frames b)) (tl (apng_frames b)) "PNG"));
      try reflexivity.
    + right. split; [reflexivity | cbn; lia].
    + repeat constructor.
Defined.

(** ** Audio *)

Lemma substring_all (s : string) : String.substring 0 (String.length s) s = s.
Proof. induction s as [|c s IH]; [reflexivity|]. cbn. now rewrite IH. Qed.

Lemma length_append (x s : string) :
  String.length (x +:+ s) = (String.length x + String.length s)%nat.
Proof.
  induction x as [|c x IH]; [reflexivity|].
  change (String c x +:+ s) with (String c (x +:+ s)).
  cbn [String.length Nat.add]. now f_equal.
Qed.

Lemma endswith_append (x s : string) : endswith (x +:+ s) s = true.
Proof.
  unfold endswith. pose proof (length_append x s) as Hlen.
  rewrite Hlen. replace (String.length s <=? String.length x + String.length s)%nat
    with true by (symmetry; apply Nat.leb_le; lia).
  rewrite Nat.add_sub. cbn [andb]. apply String.eqb_eq.
  clear Hlen. induction x as [|c x IH]; [apply substring_all|]. exact IH.
Qed.

Lemma append_cancel_r (x y s : string) : x +:+ s = y +:+ s -> x = y.
Proof.
  revert y; induction x as [|c x IH]; intros [|c' y]; [reflexivity| | |].
  - intros H. apply (f_equal String.length) in H.
    rewrite !length_append in H. cbn [String.length] in H. lia.
  - intros H. apply (f_equal String.length) in H.
    rewrite !length_append in H. cbn [String.length] in H. lia.
  - change (String c (x +:+ s) = String c' (y +:+ s) -> String c x = String c' y).
    intros [= -> H]. f_equal. now apply IH.
Qed.

(** The names imported from miniaudio that end in a given suffix are
    those of the three formats. *)
Lemma miniaudio_name (x suffix : string) :
  suffix = "_read_f32"%string \/ suffix = "_read_file_f32"%string
  \/ suffix = "_get_info"%string \/ suffix = "_get_file_info"%string ->
  existsb (String.eqb (x +:+ suffix)) miniaudio_globals = true ->
  x = "mp3"%string \/ x = "flac"%string \/ x = "wav"%string.
Proof.
  intros Hsuffix Hin. apply existsb_exists in Hin as (g & Hg & Heq).
  apply String.eqb_eq in Heq.
  pose proof (endswith_append x suffix) as Hends. rewrite Heq in Hends.
  cbv [miniaudio_globals] in Hg.
  repeat (destruct Hg as [<- | Hg];
          [ destruct Hsuffix as [-> | [-> | [-> | ->]]];
            try (vm_compute in Hends; discriminate);
            first [ left; apply (append_cancel_r _ "mp3" _ Heq)
                  | right; left; apply (append_cancel_r _ "flac" _ Heq)
                  | right; right; apply (append_cancel_r _ "wav" _ Heq) ]
          |]).
  destruct Hg.
Qed.

Lemma audio_function_known (file : Source) (c : option string) (part1 part2 : string) :
  (part1 = "_read"%string /\ part2 = "_f32"%string)
  \/ (part1 = "_get"%string /\ part2 = "_info"%string) ->
  match globals (str_of c +:+ part1 +:+ (if is_str file then "_file" else "") +:+ part2)
  with
  | Return name =>
      In c [Some "mp3"; Some "flac"; Some "wav"]%string
      /\ name = (str_of c +:+ part1 +:+ (if is_str file then "_file" else "")
                 +:+ part2)%string
  | Raise e => exists name, e = KeyError name
  end.
Proof.
  intros Hparts. unfold globals.
  destruct (existsb _ miniaudio_globals) eqn:Hin; [|eauto].
  split; [|reflexivity].
  assert (Hx : str_of c = "mp3"%string \/ str_of c = "flac"%string
               \/ str_of c = "wav"%string).
  { destruct Hparts as [[-> ->] | [-> ->]], (is_str file);
      (eapply miniaudio_name; [|exact Hin]); auto. }
  destruct c as [s|]; cbn in Hx.
  - destruct Hx as [-> | [-> | ->]]; cbn; auto.
  - destruct Hx as [Hx | [Hx | Hx]]; discriminate.
Qed.

(** X20: the audio decoder is picked by name.  With miniaudio installed,
    an identifier other than mp3, flac and wav makes [_decompress_audio] and
    [_read_audio_shape] raise [KeyError] before any call; and whenever
    [_decompress_audio] returns, the identifier is one of the three, exactly
    one call was made, to the reader named after the identifier and the kind
    of source, and the array is a well-formed two-axis float32 array. *)
Theorem audio_decoder_by_name (w : World) (file : Source) (c : option string) :
  _MINIAUDIO_INSTALLED w = true ->
  (~ In c [Some "mp3"; Some "flac"; Some "wav"]%string ->
   (exists name, _decompress_audio w file c = ([], Raise (KeyError name)))
   /\ (exists name, _read_audio_shape w file c = ([], Raise (KeyError name))))
  /\ (forall a, result (_decompress_audio w file c) = Return a ->
      In c [Some "mp3"; Some "flac"; Some "wav"]%string
      /\ arr_dtype a = Float32 /\ ndim a = 2%nat /\ well_formed a
      /\ calls (_decompress_audio w file c)
         = [miniaudio_call (str_of c +:+ "_read"
                            +:+ (if is_str file then "_file" else "") +:+ "_f32")
              file]).
Proof.
  intros Hflag. unfold _decompress_audio, _read_audio_shape. rewrite Hflag.
  cbn [negb].
  pose proof (audio_function_known file c "_read" "_f32" ltac:(auto)) as Hread.
  pose proof (audio_function_known file c "_get" "_info" ltac:(auto)) as Hinfo.
  set (read_name := (str_of c +:+ "_read" +:+ (if is_str file then "_file" else "")
                     +:+ "_f32")%string) in *.
  set (info_name := (str_of c +:+ "_get" +:+ (if is_str file then "_file" else "")
                     +:+ "_info")%string) in *.
  split.
  - intros Hc. split.
    + destruct (globals read_name) as [name|e]; [now destruct Hread|].
      destruct Hread as [name ->]. eauto.
    + destruct (globals info_name) as [name|e]; [now destruct Hinfo|].
      destruct Hinfo as [name ->]. eauto.
  - clear Hinfo. intros a.
    destruct (globals read_name) as [name|e]; [|discriminate].
    destruct Hread as [Hc ->]. rewrite bind_pure_Return.
    destruct (miniaudio w read_name file) as [raw|e]; [|discriminate].
    rewrite bind_call_Return. cbn [result calls pure fst snd].
    unfold np_frombuffer_reshape.
    destruct (negb (_ mod _ =? 0)%nat); [discriminate|].
    destruct (length (samples raw) =? _)%nat eqn:Hlen; [|discriminate].
    cbn [negb]. intros [= <-]. apply Nat.eqb_eq in Hlen. now repeat split.
Qed.

Lemma audio_decoder_by_name_witness :
  let file := Buffer (map Fixture.byte_of_nat (seq 1 8)) in
  let a := mk_ndarray Float32 [2; 1]%nat (map Fixture.byte_of_nat (seq 1 8)) in
  In (Some "wav"%string) [Some "mp3"; Some "flac"; Some "wav"]%string
  /\ arr_dtype a = Float32 /\ ndim a = 2%nat /\ well_formed a
  /\ calls (_decompress_audio Fixture.world file (Some "wav"%string))
     = [miniaudio_call "wav_read_f32" file].
Proof.
  intros file a.
  apply (proj2 (audio_decoder_by_name Fixture.world file (Some "wav"%string) eq_refl) a).
  reflexivity.
Defined.

(** ** Format sniffing *)

Lemma lower_append (a b : string) : lower (a +:+ b) = lower a +:+ lower b.
Proof.
  induction a as [|c a IH]; [reflexivity|].
  change (String c a +:+ b) with (String c (a +:+ b)). cbn [lower].
  rewrite IH. reflexivity.
Qed.

Lemma substring_append_skip (x s : string) (k m : nat) :
  String.substring (String.length x + k) m (x +:+ s) = String.substring k m s.
Proof. induction x as [|c x IH]; [reflexivity|]. exact IH. Qed.

Lemma endswith_append_long (x s t : string) :
  (String.length t <= String.length s)%nat ->
  endswith (x +:+ s) t = endswith s t.
Proof.
  intros Hlen. unfold endswith. rewrite length_append.
  replace (String.length t <=? String.length x + String.length s)%nat with true
    by (symmetry; apply Nat.leb_le; lia).
  replace (String.length t <=? String.length s)%nat with true
    by (symmetry; apply Nat.leb_le; lia).
  replace (String.length x + String.length s - String.length t)%nat
    with (String.length x + (String.length s - String.length t))%nat by lia.
  now rewrite substring_append_skip.
Qed.

Lemma string_last (x : string) :
  x = ""%string \/ exists x0 c, x = (x0 +:+ String c "")%string.
Proof.
  induction x as [|c x IH]; [now left|]. right.
  destruct IH as [-> | (x0 & c' & ->)].
  - now exists ""%string, c.
  - now exists (String c x0), c'.
Qed.

Lemma append_assoc (a b c : string) : ((a +:+ b) +:+ c = a +:+ (b +:+ c))%string.
Proof.
  induction a as [|x a IH]; [reflexivity|].
  change (String x ((a +:+ b) +:+ c) = String x (a +:+ (b +:+ c))). now rewrite IH.
Qed.

(** A name that ends in a four-letter extension does not end in ".flac". *)
Lemma not_flac (x s : string) :
  String.length s = 4%nat ->
  endswith s "flac" = false ->
  endswith (x +:+ s) ".flac" = false.
Proof.
  intros Hlen Hs. destruct (string_last x) as [-> | (x0 & c & ->)].
  - unfold endswith. change ("" +:+ s)%string with s. rewrite Hlen. reflexivity.
  - rewrite append_assoc. change (String c "" +:+ s)%string with (String c s).
    rewrite endswith_append_long by (cbn [String.length]; lia).
    unfold endswith in *. cbn [String.length] in *. rewrite Hlen in *.
    cbn [Nat.leb Nat.sub andb] in *.
    change (String.substring 0 5 (String c s))
      with (String c (String.substring 0 4 s)).
    change ".flac"%string with (String "."%char "flac").
    cbn [String.eqb]. rewrite Hs. apply andb_false_r.
Qed.

(** X21: [get_compression] goes by the file extension first: for a path
    that ends in a dot and mp3, flac, wav, mp4, mkv or avi in any letter
    case, it returns that extension in lower case, whatever the header
    holds. *)
Theorem extension_decides_format (w : World) (header : bytes) (stem ext fmt : string) :
  In fmt ["mp3"; "flac"; "wav"; "mp4"; "mkv"; "avi"]%string ->
  lower ext = fmt ->
  get_compression w header (Some (stem +:+ "." +:+ ext)%string) = Return (Some fmt).
Proof.
  intros Hfmt Hext. unfold get_compression.
  replace (String.eqb (stem +:+ "." +:+ ext) "") with false.
  2:{ symmetry. apply String.eqb_neq. intros H.
      apply (f_equal String.length) in H. rewrite !length_append in H.
      cbn [String.length] in H. lia. }
  rewrite !lower_append, Hext. change (lower ".") with "."%string.
  set (L := lower stem).
  assert (Hfind : List.find (fun f => endswith (L +:+ "." +:+ fmt) ("." +:+ f))
                    ["mp3"; "flac"; "wav"; "mp4"; "mkv"; "avi"]%string = Some fmt);
    [|now rewrite Hfind].
  cbn [List.find In] in *.
  destruct Hfmt as [<- | [<- | [<- | [<- | [<- | [<- | []]]]]]];
    repeat match goal with
           | |- context [("." +:+ String ?c ?f)%string] =>
               let r := eval vm_compute in ("." +:+ String c f)%string in
               change ("." +:+ String c f)%string with r
           end;
    repeat first
      [ rewrite (endswith_append L)
      | rewrite (endswith_append_long L) by (cbn [String.length]; lia)
      | rewrite (not_flac L) by reflexivity
      | reflexivity ].
Qed.

Lemma extension_decides_format_witness :
  get_compression Fixture.world [x00; x01] (Some "clips/Take.One.MKV"%string)
  = Return (Some "mkv"%string).
Proof.
  apply (extension_decides_format Fixture.world [x00; x01] "clips/Take.One" "MKV" "mkv").
  - cbn. tauto.
  - reflexivity.
Defined.
